(** * quic-test: the server receive path, the FEC group codec, the
    congestion-control phase machine, the GUI test manager and the CLI
    entry point, embedded in Rocq.

    Layout: the definitions come first, grouped in one module per Go
    package ([Machine], [FEC], [Server], [Congestion], [Internal], [Gui],
    [Cli]); the
    lemmas and theorems follow.

    Conventions.
    - A Go [uint64] is a [Z] kept in [0, 2^64) by [wrap_u64]; a Go [int] or
      [int64] is a [Z] kept in [-2^63, 2^63) by [wrap_i64] ([int] is taken
      to be 64 bits wide, as on amd64 and arm64).
    - A [[]byte] is a [list byte]; [len] is [length].
    - [time.Now()] is an explicit argument [now : Z].
    - A goroutine is a component of the global state; one event is one
      loop iteration of one goroutine. *)

From Stdlib Require Import ZArith Lia Floats.PrimFloat.

#[local] Set Warnings "-inexact-float,-register-all".

From Stdlib Require Import Init.Byte Strings.Byte.
From stdpp Require Import gmap strings list relations pretty.

Local Open Scope Z_scope.

(* ===================================================================== *)
(** ** Machine integers and bytes *)
(* ===================================================================== *)

Module Machine.

(** Go's [uint64] arithmetic is modulo 2^64. *)
Definition wrap_u64 (z : Z) : Z := z mod 2 ^ 64.

(** Go's [int64] (and 64-bit [int]) arithmetic wraps in two's complement. *)
Definition wrap_i64 (z : Z) : Z := (z + 2 ^ 63) mod 2 ^ 64 - 2 ^ 63.

Definition max_i64 : Z := 2 ^ 63 - 1.

Definition Z_of_byte (b : byte) : Z := Z.of_N (Byte.to_N b).

Definition byte_of_Z (z : Z) : byte :=
  default x00 (Byte.of_N (Z.to_N (z mod 256))).

Definition byte_eqb (a b : byte) : bool := Byte.eqb a b.

(** The eight bits of a byte, as [Byte.to_bits] gives them. *)
Definition bits8 : Type :=
  bool * (bool * (bool * (bool * (bool * (bool * (bool * bool)))))).

Definition xor_bits (x y : bits8) : bits8 :=
  let '(a0, (a1, (a2, (a3, (a4, (a5, (a6, a7))))))) := x in
  let '(b0, (b1, (b2, (b3, (b4, (b5, (b6, b7))))))) := y in
  (xorb a0 b0, (xorb a1 b1, (xorb a2 b2, (xorb a3 b3,
  (xorb a4 b4, (xorb a5 b5, (xorb a6 b6, xorb a7 b7))))))).

(** Bitwise exclusive or of two bytes (Go's [a ^ b] on [byte]). *)
Definition byte_xor (a b : byte) : byte :=
  Byte.of_bits (xor_bits (Byte.to_bits a) (Byte.to_bits b)).

(** Byte-wise xor of two byte strings, the shorter one zero-padded to the
    length of the longer one ([x ^ 0 = x], so the tail of the longer one is
    copied). *)
Fixpoint xor_bytes (a b : list byte) : list byte :=
  match a, b with
  | [], _ => b
  | _, [] => a
  | x :: a', y :: b' => byte_xor x y :: xor_bytes a' b'
  end.

(** Xor of a list of payloads, each zero-padded to the longest. *)
Definition xor_all (ps : list (list byte)) : list byte :=
  foldr xor_bytes [] ps.

(** The byte at offset [i], reading zero past the end (zero padding). *)
Definition byte_at (l : list byte) (i : nat) : byte := nth i l x00.

(** The byte at offset [i] of the xor of all payloads. *)
Definition xor_column (ps : list (list byte)) (i : nat) : byte :=
  foldr (λ p acc, byte_xor (byte_at p i) acc) x00 ps.

(** Big-endian encoding of [v] on [w] bytes. *)
Fixpoint encode_be (w : nat) (v : Z) : list byte :=
  match w with
  | O => []
  | S w' => byte_of_Z (v / 256 ^ Z.of_nat w') :: encode_be w' v
  end.

(** Big-endian decoding of a byte string. *)
Definition decode_be (bs : list byte) : Z :=
  foldl (λ acc b, acc * 256 + Z_of_byte b) 0 bs.

End Machine.

Import Machine.

(* ===================================================================== *)
(** ** Package [internal/fec]: the group codec *)
(* ===================================================================== *)

(** The package [quic-test/internal/fec] is imported by [server/server.go]
    but its source files are not available.  Its definitions
    below follow sections 3, 4.1, 4.2 and 6 of the specification. *)

Module FEC.

(** Modelled from the spec: the redundancy header of section 4.1 and the
    redundancy packet of section 6,
    [{group_id: u64, parity_index: u8, k: u8, r: u8, payload_len_table,
    parity_payload}] ([internal/fec] is missing). *)
Record RedundancyPacket := mkRedundancyPacket {
  rp_group_id : Z;
  rp_parity_index : Z;
  rp_k : Z;
  rp_r : Z;
  rp_payload_len_table : list Z;
  rp_parity_payload : list byte
}.

(** Modelled from the spec: the data packet framing of section 6,
    [{group_id: u64, packet_index: u16, payload}] ([internal/fec] is
    missing). *)
Record DataPacket := mkDataPacket {
  dp_group_id : Z;
  dp_packet_index : Z;
  dp_payload : list byte
}.

(** Modelled from the spec: one entry of the [recovered_list] returned by
    [AddRedundancyPacket], [{packet_id, bytes}]; the server reads the bytes
    as [rec.Data] ([internal/fec] is missing). *)
Record RecoveredPacket := mkRecoveredPacket {
  PacketID : Z;
  Data : list byte
}.

(** Modelled from the spec: the four group states of section 3
    ([internal/fec] is missing). *)
Inductive GroupState := Open | Recoverable | Complete | Expired.

(** Modelled from the spec: the group of section 3.  The received-data
    bitmap is kept together with the payloads, as a map from data slot to
    payload; [k] and [r] are unknown until a redundancy header has been
    seen ([internal/fec] is missing). *)
Record Group := mkGroup {
  g_group_id : Z;
  g_k : option Z;
  g_r : option Z;
  g_data : gmap Z (list byte);
  g_redundancy : list RedundancyPacket;
  g_created_at : Z;
  g_state : GroupState
}.

(** Modelled from the spec: the decoder of section 4.2, a group table and
    the counter of dropped malformed headers ([internal/fec] is missing). *)
Record FECDecoder := mkFECDecoder {
  groups : gmap Z Group;
  decode_errors : Z
}.

(** *** Wire format *)

(** The two-byte type marker of a redundancy packet, as tested by
    [handleStream] ([0xFE 0xC0]). *)
Definition marker : list byte := [xfe; xc0].

(** Modelled from the spec: serialisation of a redundancy packet in the
    field order of section 6.  The spec leaves the byte order and the width
    of a length-table entry open; integers are big-endian and a table entry
    is a u16 here ([internal/fec] is missing). *)
Definition encode_redundancy (rp : RedundancyPacket) : list byte :=
  marker ++ encode_be 8 (rp_group_id rp)
         ++ [byte_of_Z (rp_parity_index rp); byte_of_Z (rp_k rp);
             byte_of_Z (rp_r rp)]
         ++ flat_map (encode_be 2) (rp_payload_len_table rp)
         ++ rp_parity_payload rp.

(** A redundancy packet whose fields fit their wire widths. *)
Definition wf_redundancy (rp : RedundancyPacket) : Prop :=
  0 ≤ rp_group_id rp < 2 ^ 64
  ∧ 0 ≤ rp_parity_index rp < 256
  ∧ 0 ≤ rp_k rp < 256
  ∧ 0 ≤ rp_r rp < 256
  ∧ Z.of_nat (length (rp_payload_len_table rp)) = rp_k rp
  ∧ Forall (λ l, 0 ≤ l < 65536) (rp_payload_len_table rp).

(** Reads [n] big-endian u16 entries. *)
Fixpoint decode_len_table (n : nat) (bs : list byte) : list Z :=
  match n with
  | O => []
  | S n' => decode_be (take 2 bs) :: decode_len_table n' (drop 2 bs)
  end.

(** Modelled from the spec: parsing of a redundancy packet, the inverse of
    [encode_redundancy]; a buffer that is too short for its own header or
    that lacks the marker is malformed ([internal/fec] is missing). *)
Definition parse_redundancy (buf : list byte) : option RedundancyPacket :=
  match buf with
  | m0 :: m1 :: rest =>
      if byte_eqb m0 xfe && byte_eqb m1 xc0 then
        match drop 8 rest with
        | pi :: k :: r :: rest' =>
            let kn := Z.to_nat (Z_of_byte k) in
            if (2 * kn <=? length rest')%nat then
              Some {| rp_group_id := decode_be (take 8 rest);
                      rp_parity_index := Z_of_byte pi;
                      rp_k := Z_of_byte k;
                      rp_r := Z_of_byte r;
                      rp_payload_len_table :=
                        decode_len_table kn (take (2 * kn) rest');
                      rp_parity_payload := drop (2 * kn) rest' |}
            else None
        | _ => None
        end
      else None
  | _ => None
  end.

(** Modelled from the spec: parsing of the data packet framing of section 6
    (u64 group id, u16 packet index, payload), big-endian ([internal/fec]
    is missing). *)
Definition parse_data (buf : list byte) : option DataPacket :=
  if (10 <=? length buf)%nat then
    Some {| dp_group_id := decode_be (take 8 buf);
            dp_packet_index := decode_be (take 2 (drop 8 buf));
            dp_payload := drop 10 buf |}
  else None.

(** *** Encoder *)

(** Modelled from the spec: [ComputeRedundancy] of section 4.1 for R = 1,
    the xor of all payloads of the group, zero-padded to the longest, with
    the per-packet length table and [k] the number of packets present
    ([internal/fec] is missing). *)
Definition ComputeRedundancy (gid : Z) (payloads : list (list byte))
  : RedundancyPacket :=
  {| rp_group_id := gid;
     rp_parity_index := 0;
     rp_k := Z.of_nat (length payloads);
     rp_r := 1;
     rp_payload_len_table := (λ p, Z.of_nat (length p)) <$> payloads;
     rp_parity_payload := xor_all payloads |}.

(** *** Decoder *)

(** Modelled from the spec: [NewFECDecoder], an empty group table
    ([internal/fec] is missing). *)
Definition NewFECDecoder : FECDecoder :=
  {| groups := ∅; decode_errors := 0 |}.

Definition new_group (gid now : Z) : Group :=
  {| g_group_id := gid; g_k := None; g_r := None; g_data := ∅;
     g_redundancy := []; g_created_at := now; g_state := Open |}.

Definition get_group (d : FECDecoder) (gid now : Z) : Group :=
  default (new_group gid now) (groups d !! gid).

Definition put_group (d : FECDecoder) (g : Group) : FECDecoder :=
  {| groups := <[g_group_id g := g]> (groups d);
     decode_errors := decode_errors d |}.

Definition count_decode_error (d : FECDecoder) : FECDecoder :=
  {| groups := groups d; decode_errors := decode_errors d + 1 |}.

(** Modelled from the spec: [AddPacket(payload, packet_id, group_id)],
    which creates the group if absent and records the arrival
    ([internal/fec] is missing). *)
Definition AddPacket (now : Z) (d : FECDecoder) (payload : list byte)
    (packet_id group_id : Z) : FECDecoder :=
  let g := get_group d group_id now in
  put_group d
    {| g_group_id := group_id; g_k := g_k g; g_r := g_r g;
       g_data := <[packet_id := payload]> (g_data g);
       g_redundancy := g_redundancy g;
       g_created_at := g_created_at g; g_state := g_state g |}.

(** The data slots [0 .. k-1] for which nothing has been recorded. *)
Definition missing_slots (k : Z) (data : gmap Z (list byte)) : list Z :=
  filter (λ i, data !! i = None) (seqZ 0 k).

(** The recorded payloads of the slots [0 .. k-1], in slot order. *)
Definition present_payloads (k : Z) (data : gmap Z (list byte))
  : list (list byte) :=
  omap (λ i, data !! i) (seqZ 0 k).

(** Modelled from the spec: the reconstruction rule of section 4.2, the xor
    of the parity and all present data payloads, truncated to the recorded
    length ([internal/fec] is missing). *)
Definition reconstruct (rp : RedundancyPacket) (data : gmap Z (list byte))
    (len : Z) : list byte :=
  take (Z.to_nat len)
       (xor_all (rp_parity_payload rp :: present_payloads (rp_k rp) data)).

Definition store_parity (g : Group) (rp : RedundancyPacket)
    (data : gmap Z (list byte)) (st : GroupState) : Group :=
  {| g_group_id := rp_group_id rp;
     g_k := Some (rp_k rp); g_r := Some (rp_r rp);
     g_data := data;
     g_redundancy := g_redundancy g ++ [rp];
     g_created_at := g_created_at g; g_state := st |}.

(** Modelled from the spec: [AddRedundancyPacket(payload)] of section 4.2.
    It parses the header (a malformed one is dropped and counted), stores
    the parity, and, for the single-parity scheme, reconstructs the one
    missing data slot when exactly one is missing.  A recorded length that
    exceeds the parity payload is a length mismatch and is dropped and
    counted too ([internal/fec] is missing). *)
Definition AddRedundancyPacket (now : Z) (d : FECDecoder) (buf : list byte)
  : FECDecoder * (bool * list RecoveredPacket) :=
  match parse_redundancy buf with
  | None => (count_decode_error d, (false, []))
  | Some rp =>
      let g := get_group d (rp_group_id rp) now in
      if bool_decide (rp_r rp = 1) then
        match missing_slots (rp_k rp) (g_data g) with
        | [] => (put_group d (store_parity g rp (g_data g) Complete),
                 (false, []))
        | [m] =>
            match rp_payload_len_table rp !! Z.to_nat m with
            | Some len =>
                if bool_decide (len ≤ Z.of_nat (length (rp_parity_payload rp)))
                then
                  let bytes := reconstruct rp (g_data g) len in
                  (put_group d
                     (store_parity g rp (<[m := bytes]> (g_data g)) Complete),
                   (true, [ {| PacketID := m; Data := bytes |} ]))
                else (count_decode_error d, (false, []))
            | None => (count_decode_error d, (false, []))
            end
        | _ => (put_group d (store_parity g rp (g_data g) (g_state g)),
                (false, []))
        end
      else (put_group d (store_parity g rp (g_data g) (g_state g)),
            (false, []))
  end.

(** Modelled from the spec: [CleanupGroups()], which evicts every group
    older than the retention window, whatever its state.  The length of the
    window is not given by the spec and is the argument [retention]
    ([internal/fec] is missing). *)
Definition CleanupGroups (retention now : Z) (d : FECDecoder) : FECDecoder :=
  {| groups := filter (λ kg, now - g_created_at kg.2 ≤ retention) (groups d);
     decode_errors := decode_errors d |}.

(** *** Traffic reaching the decoder *)

(** The data packets of the group [gid] with payloads [ps] reaching the
    decoder: the arrival [(now, i)] is the call
    [AddPacket(ps[i], i, gid)] at time [now].  Packets may arrive in any
    order and more than once. *)
Definition deliver (gid : Z) (ps : list (list byte)) (d : FECDecoder)
    (arrivals : list (Z * nat)) : FECDecoder :=
  foldl (λ d a, AddPacket a.1 d (default [] (ps !! a.2)) (Z.of_nat a.2) gid)
        d arrivals.

(** One call on the decoder. *)
Inductive Op :=
| OpAddPacket (now : Z) (payload : list byte) (packet_id group_id : Z)
| OpAddRedundancyPacket (now : Z) (buf : list byte)
| OpCleanupGroups (now : Z).

(** A sequence of calls on the decoder; the result lists, for every
    [AddRedundancyPacket], the buffer it was given and what it returned. *)
Fixpoint run_ops (retention : Z) (d : FECDecoder) (ops : list Op)
  : FECDecoder * list (list byte * (bool * list RecoveredPacket)) :=
  match ops with
  | [] => (d, [])
  | OpAddPacket now payload pid gid :: ops' =>
      run_ops retention (AddPacket now d payload pid gid) ops'
  | OpAddRedundancyPacket now buf :: ops' =>
      let '(d', res) := AddRedundancyPacket now d buf in
      let '(d'', out) := run_ops retention d' ops' in
      (d'', (buf, res) :: out)
  | OpCleanupGroups now :: ops' =>
      run_ops retention (CleanupGroups retention now d) ops'
  end.

(** The identifier of the group that a buffer claims to protect, when it
    parses as a redundancy packet. *)
Definition parity_group (buf : list byte) : option Z :=
  rp_group_id <$> parse_redundancy buf.

(** The decoder has recorded nothing for the data slots [i] and [j] of the
    group [gid]. *)
Definition slots_unseen (gid i j : Z) (d : FECDecoder) : Prop :=
  ∀ g, groups d !! gid = Some g → g_data g !! i = None ∧ g_data g !! j = None.



End FEC.

(* ===================================================================== *)
(** ** Package [server]: [server/server.go] *)
(* ===================================================================== *)

Module Server.

(** The operations of [*fec.FECDecoder] that [server.go] calls.  The
    package's source is not available, so the server is written
    against this interface; [now] is the clock the decoder reads. *)
Class FECDecoderAPI (D : Type) := {
  NewFECDecoder : D;
  AddPacket : Z → D → list byte → Z → Z → D;
  AddRedundancyPacket :
    Z → D → list byte → D * (bool * list FEC.RecoveredPacket);
  CleanupGroups : Z → D → D
}.

(** [type serverMetrics struct] (server.go:24); the mutex is the atomicity
    of the steps below, and a nil [FECDecoder] is [None]. *)
Record serverMetrics (D : Type) := mkServerMetrics {
  Connections : Z;
  Streams : Z;
  Bytes : Z;
  Errors : Z;
  Start : Z;
  FECDecoder : option D
}.
Arguments mkServerMetrics {D}.
Arguments Connections {D}.
Arguments Streams {D}.
Arguments Bytes {D}.
Arguments Errors {D}.
Arguments Start {D}.
Arguments FECDecoder {D}.

(** The local variables [packetID] and [groupID] of one [handleStream]
    (server.go:118-119), both [uint64]. *)
Record streamLocals := mkStreamLocals {
  packetID : Z;
  groupID : Z
}.

(** A call made on the decoder by [handleStream]. *)
Inductive DecoderCall :=
| CallAddRedundancyPacket (payload : list byte)
| CallAddPacket (payload : list byte) (packet_id group_id : Z).

Section server.
Context {D : Type} `{!FECDecoderAPI D}.

(** [metrics.Connections++] *)
Definition inc_Connections (m : serverMetrics D) : serverMetrics D :=
  mkServerMetrics (wrap_i64 (Connections m + 1)) (Streams m) (Bytes m)
                  (Errors m) (Start m) (FECDecoder m).

(** [metrics.Streams++] *)
Definition inc_Streams (m : serverMetrics D) : serverMetrics D :=
  mkServerMetrics (Connections m) (wrap_i64 (Streams m + 1)) (Bytes m)
                  (Errors m) (Start m) (FECDecoder m).

(** [metrics.Bytes += int64(n)] *)
Definition add_Bytes (m : serverMetrics D) (n : Z) : serverMetrics D :=
  mkServerMetrics (Connections m) (Streams m) (wrap_i64 (Bytes m + n))
                  (Errors m) (Start m) (FECDecoder m).

(** [metrics.Errors++] *)
Definition inc_Errors (m : serverMetrics D) : serverMetrics D :=
  mkServerMetrics (Connections m) (Streams m) (Bytes m)
                  (wrap_i64 (Errors m + 1)) (Start m) (FECDecoder m).

(** The decoder object is mutated in place by its own methods. *)
Definition set_decoder (m : serverMetrics D) (d : D) : serverMetrics D :=
  mkServerMetrics (Connections m) (Streams m) (Bytes m) (Errors m)
                  (Start m) (Some d).

(** The test of server.go:125,
    [n >= 11 && buf[0] == 0xFE && buf[1] == 0xC0], on [buf[:n]]. *)
Definition is_repair_packet (data : list byte) : bool :=
  (11 <=? Z.of_nat (length data))
  && byte_eqb (byte_at data 0) xfe
  && byte_eqb (byte_at data 1) xc0.

(** The loop of server.go:131-135 over [recoveredList]. *)
Definition count_recovered (m : serverMetrics D)
    (recoveredList : list FEC.RecoveredPacket) : serverMetrics D :=
  foldl (λ m rec, add_Bytes m (Z.of_nat (length (FEC.Data rec))))
        m recoveredList.

(** The update of the locals after a data packet (server.go:147-151):
    [packetID++; if packetID >= 10 { packetID = 0; groupID++ }]. *)
Definition advance (st : streamLocals) : streamLocals :=
  let packetID' := wrap_u64 (packetID st + 1) in
  if 10 <=? packetID'
  then mkStreamLocals 0 (wrap_u64 (groupID st + 1))
  else mkStreamLocals packetID' (groupID st).

(** The branch [if n > 0 { ... }] of server.go:123-154, for [buf[:n] = data]
    with [0 < n].  It returns the metrics, the locals and the decoder calls
    made. *)
Definition handle_buffer (now : Z) (m : serverMetrics D) (st : streamLocals)
    (data : list byte)
  : serverMetrics D * streamLocals * list DecoderCall :=
  if is_repair_packet data then
    match FECDecoder m with
    | Some d =>
        let '(d', (recovered, recoveredList)) :=
          AddRedundancyPacket now d data in
        let m' := set_decoder m d' in
        (if recovered && (0 <? Z.of_nat (length recoveredList))
         then count_recovered m' recoveredList else m',
         st, [CallAddRedundancyPacket data])
    | None => (m, st, [])
    end
  else
    let m1 := add_Bytes m (Z.of_nat (length data)) in
    match FECDecoder m1 with
    | Some d =>
        let d' := AddPacket now d data (packetID st) (groupID st) in
        (set_decoder m1 d', advance st,
         [CallAddPacket data (packetID st) (groupID st)])
    | None => (m1, st, [])
    end.

(** One iteration of the loop of [handleStream] (server.go:121-163) on the
    result [(n, err)] of [stream.Read(buf)], with [data = buf[:n]]; [None]
    for the locals means that [handleStream] has returned. *)
Definition handleStream_iter (now : Z) (m : serverMetrics D)
    (st : streamLocals) (data : list byte) (err : option string)
  : serverMetrics D * option streamLocals * list DecoderCall :=
  let '(m1, st1, calls) :=
    if 0 <? Z.of_nat (length data) then handle_buffer now m st data
    else (m, st, []) in
  match err with
  | Some e =>
      (if bool_decide (e ≠ "EOF"%string) then inc_Errors m1 else m1,
       None, calls)
  | None => (m1, Some st1, calls)
  end.

(** The goroutines of one server: the accept loop of [Run]
    (server.go:75-89), one [handleConn] per accepted connection, one
    [handleStream] per accepted stream, and the cleanup ticker
    (server.go:42-50). *)
Record ServerState := mkServerState {
  metrics : serverMetrics D;
  listening : bool;
  conns : list bool;
  streams : list (option streamLocals)
}.

(** One step of one goroutine. *)
Inductive Event :=
| EvAccept (ok : bool)
| EvAcceptStream (cid : nat) (ok : bool)
| EvRead (sid : nat) (now : Z) (data : list byte) (err : option string)
| EvTick (now : Z).

(** The state built by [Run] (server.go:36-39) once the listener is up. *)
Definition Run_init (now : Z) : ServerState :=
  {| metrics := mkServerMetrics 0 0 0 0 now (Some NewFECDecoder);
     listening := true; conns := []; streams := [] |}.

(** The step of the server on one event, with the decoder calls made,
    tagged with the stream that made them.
    - [EvAccept]: one iteration of the accept loop (server.go:76-88);
      an error ends the loop.
    - [EvAcceptStream cid]: one iteration of [handleConn] (server.go:101-113)
      for connection [cid]; an error ends it.
    - [EvRead sid]: one iteration of [handleStream] for stream [sid].
    - [EvTick]: one tick of the cleanup goroutine (server.go:45-49).
    An event of a goroutine that does not exist or has returned changes
    nothing. *)
Definition server_step (s : ServerState) (e : Event)
  : ServerState * list (nat * DecoderCall) :=
  match e with
  | EvAccept ok =>
      if listening s then
        if ok then
          (mkServerState (inc_Connections (metrics s)) true
                         (conns s ++ [true]) (streams s), [])
        else
          (mkServerState (inc_Errors (metrics s)) false
                         (conns s) (streams s), [])
      else (s, [])
  | EvAcceptStream cid ok =>
      match conns s !! cid with
      | Some true =>
          if ok then
            (mkServerState (inc_Streams (metrics s)) (listening s) (conns s)
                           (streams s ++ [Some (mkStreamLocals 0 0)]), [])
          else
            (mkServerState (inc_Errors (metrics s)) (listening s)
                           (<[cid := false]> (conns s)) (streams s), [])
      | _ => (s, [])
      end
  | EvRead sid now data err =>
      match streams s !! sid with
      | Some (Some st) =>
          let '(m', st', calls) :=
            handleStream_iter now (metrics s) st data err in
          (mkServerState m' (listening s) (conns s)
                         (<[sid := st']> (streams s)),
           (λ c, (sid, c)) <$> calls)
      | _ => (s, [])
      end
  | EvTick now =>
      match FECDecoder (metrics s) with
      | Some d =>
          (mkServerState (set_decoder (metrics s) (CleanupGroups now d))
                         (listening s) (conns s) (streams s), [])
      | None => (s, [])
      end
  end.

(** A run of the server: the final state and the log of decoder calls. *)
Fixpoint server_run (s : ServerState) (evs : list Event)
  : ServerState * list (nat * DecoderCall) :=
  match evs with
  | [] => (s, [])
  | e :: evs' =>
      let '(s1, log1) := server_step s e in
      let '(s2, log2) := server_run s1 evs' in
      (s2, log1 ++ log2)
  end.

(** The [AddPacket] calls of stream [sid] in a log, in order, as
    [(payload, packet_id, group_id)]. *)
Definition add_packet_calls (sid : nat) (log : list (nat * DecoderCall))
  : list (list byte * Z * Z) :=
  omap (λ '(i, c),
          match c with
          | CallAddPacket p pid gid =>
              if bool_decide (i = sid) then Some (p, pid, gid) else None
          | _ => None
          end) log.

(** The buffers that [handleStream] of stream [sid] treats as data packets
    in a run, in order of arrival. *)
Definition is_read_of (sid : nat) (e : Event) : option (list byte) :=
  match e with
  | EvRead i _ data _ =>
      if bool_decide (i = sid) then Some data else None
  | _ => None
  end.

(** Every counter of [m] is at most the corresponding counter of [m']. *)
Definition counters_le (m m' : serverMetrics D) : Prop :=
  Connections m ≤ Connections m'
  ∧ Streams m ≤ Streams m'
  ∧ Bytes m ≤ Bytes m'
  ∧ Errors m ≤ Errors m'.

(** Every counter of [m] lies between 0 and [B]. *)
Definition counters_within (B : Z) (m : serverMetrics D) : Prop :=
  0 ≤ Connections m ≤ B
  ∧ 0 ≤ Streams m ≤ B
  ∧ 0 ≤ Bytes m ≤ B
  ∧ 0 ≤ Errors m ≤ B.

(** The number of bytes in a list of recovered packets. *)
Definition recovered_bytes (l : list FEC.RecoveredPacket) : Z :=
  foldr (λ rec acc, Z.of_nat (length (FEC.Data rec)) + acc) 0 l.

(** [stream.Read] fills at most the 4096 bytes of [buf]
    (server.go:117). *)
Definition read_fits (e : Event) : Prop :=
  match e with
  | EvRead _ _ data _ => Z.of_nat (length data) ≤ 4096
  | _ => True
  end.

(** The buffer is at least 11 bytes long and starts with the type marker
    [0xFE 0xC0]. *)
Definition has_repair_marker (data : list byte) : Prop :=
  11 ≤ Z.of_nat (length data)
  ∧ data !! 0%nat = Some xfe ∧ data !! 1%nat = Some xc0.

(** The decoder never returns more recovered bytes than the buffer it was
    given holds. *)
Definition recovers_at_most_input : Prop :=
  ∀ now d buf,
    recovered_bytes (AddRedundancyPacket now d buf).2.2
    ≤ Z.of_nat (length buf).

(** Every counter of [m'] is the counter of [m] plus at most 4096. *)
Definition counters_step (m m' : serverMetrics D) : Prop :=
  Connections m ≤ Connections m' ≤ Connections m + 4096
  ∧ Streams m ≤ Streams m' ≤ Streams m + 4096
  ∧ Bytes m ≤ Bytes m' ≤ Bytes m + 4096
  ∧ Errors m ≤ Errors m' ≤ Errors m + 4096.

(** The [AddPacket] calls of stream [sid] in the log are numbered by
    arrival, ten to a group, and the locals of the stream, while it lives,
    hold the numbers of the next call. *)
Definition stream_numbered (sid : nat) (s : ServerState)
    (log : list (nat * DecoderCall)) : Prop :=
  let calls := add_packet_calls sid log in
  (∀ (b : nat) p pid gid,
     calls !! b = Some (p, pid, gid) →
     pid = Z.of_nat b `mod` 10 ∧ gid = (Z.of_nat b `div` 10) `mod` 2 ^ 64)
  ∧ match streams s !! sid with
    | Some (Some st) =>
        packetID st = Z.of_nat (length calls) `mod` 10
        ∧ groupID st = (Z.of_nat (length calls) `div` 10) `mod` 2 ^ 64
    | Some None => True
    | None => calls = []
    end.

(** What section 6 of the specification asks of the receive path: every
    data packet is recorded under the group identifier and packet index
    found in its framing. *)
Definition recorded_under_framing (log : list (nat * DecoderCall)) : Prop :=
  ∀ sid payload pid gid dp,
    (sid, CallAddPacket payload pid gid) ∈ log →
    FEC.parse_data payload = Some dp →
    gid = FEC.dp_group_id dp ∧ pid = FEC.dp_packet_index dp.


(** The bytes handed to [AddPacket] in a log of decoder calls. *)
Definition log_bytes (log : list (nat * DecoderCall)) : Z :=
  foldr (λ entry acc,
           match entry.2 with
           | CallAddPacket payload _ _ => Z.of_nat (length payload) + acc
           | CallAddRedundancyPacket _ => acc
           end) 0 log.

(** A read whose buffer does not carry the repair marker. *)
Definition plain_read (e : Event) : Prop :=
  match e with
  | EvRead _ _ data _ => is_repair_packet data = false
  | _ => True
  end.

(** The counters of accepted connections and streams agree with the
    goroutines that exist, of which there are at most [n]. *)
Definition accepted_counted (n : Z) (s : ServerState) : Prop :=
  Connections (metrics s) = Z.of_nat (length (conns s))
  ∧ Streams (metrics s) = Z.of_nat (length (streams s))
  ∧ Z.of_nat (length (conns s)) ≤ n
  ∧ Z.of_nat (length (streams s)) ≤ n.

End server.

Arguments ServerState D : clear implicits.

(** The decoder written from the spec is one implementation of the
    interface, for any retention window. *)
Definition spec_decoder (retention : Z) : FECDecoderAPI FEC.FECDecoder :=
  {| NewFECDecoder := FEC.NewFECDecoder;
     AddPacket := FEC.AddPacket;
     AddRedundancyPacket := FEC.AddRedundancyPacket;
     CleanupGroups := FEC.CleanupGroups retention |}.

(** A server that has accepted one connection and one stream on it, and a
    13-byte buffer that starts with the type marker (group 5, parity index
    0, k = 0, r = 1, nothing more). *)
Definition example_events : list Event :=
  [EvAccept true; EvAcceptStream 0 true].

Definition example_repair : list byte :=
  [xfe; xc0; x00; x00; x00; x00; x00; x00; x00; x05; x00; x00; x01].

(** A short run: one connection, one stream, a data packet, then a read
    that fails. *)
Definition example_run : list Event :=
  example_events
  ++ [EvRead 0 1 [x01; x02] None; EvRead 0 2 [] (Some "reset"%string)].

(** A data packet framed as in section 6 of the specification: group
    identifier [0x0101010101010101], packet index [0x0101], one byte of
    payload. *)
Definition example_framed : list byte :=
  [x01; x01; x01; x01; x01; x01; x01; x01; x01; x01; x2a].

Definition example_framed_run : list Event :=
  example_events ++ [EvRead 0 1 example_framed None].

(** One connection, one stream, eleven one-byte data packets. *)
Definition example_eleven : list Event :=
  example_events ++ replicate 11 (EvRead 0 1 [x2a] None).

(** A run in which the listener fails after the first connection, and one
    in which the stream ends with an error and is read again. *)
Definition example_accept_error : list Event :=
  [EvAccept true; EvAccept false; EvAccept true; EvAcceptStream 0 true].

Definition example_after_error : list Event :=
  [EvRead 0 3 [x01; x02; x03] None; EvTick 4;
   EvRead 0 5 [x04] (Some "EOF"%string)].

End Server.

(* ===================================================================== *)
(** ** Package [internal/congestion]: the phase machine *)
(* ===================================================================== *)

Module Congestion.

(** Modelled from the spec: the phases of section 4.3,
    [Startup → Drain → ProbeBW ⇄ ProbeRTT] ([internal/congestion] is
    missing). *)
Inductive Phase := Startup | Drain | ProbeBW | ProbeRTT.

(** Modelled from the spec: what makes the controller change phase in
    section 4.3: the bandwidth plateau, the drained in-flight bytes, the
    periodic min-RTT probe, the end of that probe, and the stall timeout
    ([internal/congestion] is missing). *)
Inductive Signal :=
| BandwidthPlateau
| InflightDrained
| ProbeRTTDue
| ProbeRTTDone
| StallTimeout.

(** Modelled from the spec: the transition table of section 4.3; a signal
    that does not apply in the current phase leaves it unchanged, and the
    stall timeout forces [ProbeRTT] from every phase
    ([internal/congestion] is missing). *)
Definition next_phase (p : Phase) (s : Signal) : Phase :=
  match s, p with
  | StallTimeout, _ => ProbeRTT
  | BandwidthPlateau, Startup => Drain
  | InflightDrained, Drain => ProbeBW
  | ProbeRTTDue, ProbeBW => ProbeRTT
  | ProbeRTTDone, ProbeRTT => ProbeBW
  | _, _ => p
  end.

(** The phase after a sequence of signals. *)
Definition run_phases (p : Phase) (ss : list Signal) : Phase :=
  foldl next_phase p ss.

(** Modelled from the spec: the same table as a relation between phases
    ([internal/congestion] is missing). *)
Inductive transition : Phase → Phase → Prop :=
| t_startup_drain : transition Startup Drain
| t_drain_probe_bw : transition Drain ProbeBW
| t_probe_bw_probe_rtt : transition ProbeBW ProbeRTT
| t_probe_rtt_probe_bw : transition ProbeRTT ProbeBW
| t_stall p : transition p ProbeRTT.

End Congestion.

(* ===================================================================== *)
(** ** Package [internal]: the test configuration *)
(* ===================================================================== *)

Module Internal.

(** [internal.TestConfig], with the fields that [main] fills
    (part_001:91-136); a [time.Duration] is a number of nanoseconds and a
    [float64] a binary64 float. *)
Record TestConfig := mkTestConfig {
  Mode : string;
  Addr : string;
  Streams : Z;
  Connections : Z;
  Duration : Z;
  PacketSize : Z;
  Rate : Z;
  ReportPath : string;
  ReportFormat : string;
  CertPath : string;
  KeyPath : string;
  Pattern : string;
  NoTLS : bool;
  Prometheus : bool;
  EmulateLoss : float;
  EmulateLatency : Z;
  EmulateDup : float;
  SlaRttP95 : Z;
  SlaLoss : float;
  SlaThroughput : float;
  SlaErrors : Z;
  CongestionControl : string;
  MaxIdleTimeout : Z;
  HandshakeTimeout : Z;
  KeepAlive : Z;
  MaxStreams : Z;
  MaxStreamData : Z;
  Enable0RTT : bool;
  EnableKeyUpdate : bool;
  EnableDatagrams : bool;
  MaxIncomingStreams : Z;
  MaxIncomingUniStreams : Z;
  FECEnabled : bool;
  FECRedundancy : float;
  PQCEnabled : bool;
  PQCAlgorithm : string
}.

(** The redundancy fractions that section 6 of the specification allows,
    [fec_redundancy ∈ [0.05, 0.20]]. *)
Definition redundancy_in_range (f : float) : bool :=
  PrimFloat.leb 0.05 f && PrimFloat.leb f 0.20.

(** The congestion-control algorithms that section 6 of the specification
    allows. *)
Definition known_algorithms : list string :=
  ["cubic"; "bbr"; "bbrv2"; "bbrv3"; "reno"]%string.

(** The [ConfigError] of section 7 of the specification: an invalid
    redundancy fraction or an unknown algorithm. *)
Definition config_error (cfg : TestConfig) : Prop :=
  redundancy_in_range (FECRedundancy cfg) = false
  ∨ CongestionControl cfg ∉ known_algorithms.

End Internal.

(* ===================================================================== *)
(** ** Package [internal/gui]: the test manager and the API server *)
(* ===================================================================== *)

Module Gui.

Import Internal.

(** A value stored in [map[string]interface{}] by the test runners. *)
Inductive MetricValue :=
| MInt (z : Z)
| MFloat (f : float).

(** [type TestSession struct] (part_002:1166); a [time.Time] is a number of
    seconds in the local zone, and a nil [EndTime] is [None]. *)
Record TestSession := mkTestSession {
  ID : string;
  Config : TestConfig;
  Status : string;
  StartTime : Z;
  EndTime : option Z;
  Metrics : gmap string MetricValue;
  Logs : list string
}.

(** [type TestManager struct] (part_002:1160): [activeTests], each
    identifier owning its session. *)
Record TestManager := mkTestManager {
  activeTests : gmap string TestSession
}.

(** [NewTestManager] (part_002:1189). *)
Definition NewTestManager : TestManager := {| activeTests := ∅ |}.

(** Two decimal digits. *)
Definition two_digits (n : Z) : string :=
  (pretty ((n / 10) `mod` 10) ++ pretty (n `mod` 10))%string.

(** [t.Format("15:04:05")]. *)
Definition format_hms (t : Z) : string :=
  (two_digits ((t / 3600) `mod` 24) ++ ":"
   ++ two_digits ((t / 60) `mod` 60)
   ++ ":" ++ two_digits (t `mod` 60))%string.

(** [addLog] (test_manager.go:257-268) on the [Logs] of a session: the
    entry is appended and only the last 100 entries are kept. *)
Definition addLog (now : Z) (logs : list string) (message : string)
  : list string :=
  let logEntry := ("[" ++ format_hms now ++ "] " ++ message)%string in
  let logs' := logs ++ [logEntry] in
  if (100 <? length logs')%nat then drop (length logs' - 100)%nat logs'
  else logs'.

(** The three assignments of test_manager.go:53-56; the clock is read once
    for [EndTime] ([now]) and once more inside [addLog] ([logged]). *)
Definition stop_session (now logged : Z) (s : TestSession) : TestSession :=
  {| ID := ID s; Config := Config s;
     Status := "stopped";
     StartTime := StartTime s;
     EndTime := Some now;
     Metrics := Metrics s;
     Logs := addLog logged (Logs s) "Test stopped by user" |}.

(** [StopTest] (test_manager.go:37-59): the manager afterwards and the
    returned error ([None] is nil). *)
Definition StopTest (tm : TestManager) (testID : string) (now logged : Z)
  : TestManager * option string :=
  match activeTests tm !! testID with
  | None => (tm, Some ("test not found: " ++ testID)%string)
  | Some session =>
      if bool_decide (Status session ≠ "running"%string) then
        (tm, Some ("test is not running: " ++ testID)%string)
      else
        ({| activeTests :=
              <[testID := stop_session now logged session]> (activeTests tm) |},
         None)
  end.

(** [StartTest] (test_manager.go:12-34): the session is registered under
    [test_<unix seconds>]; the test itself runs in its own goroutine.  The
    clock is read once for the identifier ([now]) and once for [StartTime]
    ([started]). *)
Definition StartTest (tm : TestManager) (config : TestConfig)
    (now started : Z) : TestManager * TestSession :=
  let testID := ("test_" ++ pretty now)%string in
  let session :=
    {| ID := testID; Config := config; Status := "running";
       StartTime := started; EndTime := None; Metrics := ∅; Logs := [] |} in
  ({| activeTests := <[testID := session]> (activeTests tm) |}, session).

(** A manager with one running session. *)
Definition example_manager : TestManager :=
  (StartTest NewTestManager
     (mkTestConfig "test" ":9000" 1 1 0 1200 100 "" "md" "" "" "random"
        false false 0 0 0 0 0 0 0 "" 0 0 0 0 0 false false false 0 0
        false 0 false "ml-kem-768") 1700000000 1700000000).1.

(** What a handler writes: [sendError] or [sendSuccess] of a session. *)
Inductive Response :=
| sendError (message : string) (statusCode : Z)
| sendSuccess (session : TestSession).

(** A decoded JSON value, as [encoding/json] stores it in an
    [interface{}]: every number is a [float64]. *)
Inductive JSON :=
| JNull
| JBool (b : bool)
| JNumber (f : float)
| JString (s : string)
| JArray (l : list JSON)
| JObject (fields : list (string * JSON)).

(** A computation that returns a value or an error message. *)
Definition bind_err {A B : Type} (x : A + string) (k : A → B + string)
  : B + string :=
  match x with
  | inl a => k a
  | inr e => inr e
  end.

Section api.
(** The request body is kept abstract, with [json.Decode], [strconv.Atoi],
    [time.ParseDuration], the conversion [int(v)] of a [float64], and
    [TestConfig.Validate] (package [internal], source not available) as
    functions; a [None] or an [inr] is their error result. *)
Context {Body : Type}.
Variable decode : Body → gmap string JSON + string.
Variable Atoi : string → option Z.
Variable ParseDuration : string → option Z.
Variable int_of_float : float → Z.
Variable Validate : TestConfig → option string.

(** The type assertion [raw[key].(string)] with its [ok]. *)
Definition as_string (raw : gmap string JSON) (key : string)
  : option string :=
  match raw !! key with
  | Some (JString v) => Some v
  | _ => None
  end.

(** The type assertion [raw[key].(float64)] with its [ok]. *)
Definition as_number (raw : gmap string JSON) (key : string)
  : option float :=
  match raw !! key with
  | Some (JNumber v) => Some v
  | _ => None
  end.

(** The type assertion [raw[key].(bool)] with its [ok]. *)
Definition as_bool (raw : gmap string JSON) (key : string) : option bool :=
  match raw !! key with
  | Some (JBool v) => Some v
  | _ => None
  end.

(** The pattern of api_server.go:189-201, repeated for [connections],
    [streams], [packet_size] and [rate]: a number is converted, a string
    is parsed (empty means the default), anything else is the default. *)
Definition int_field (raw : gmap string JSON) (key : string) (dflt : Z)
  : Z + string :=
  match as_number raw key with
  | Some v => inl (int_of_float v)
  | None =>
      match as_string raw key with
      | Some v =>
          if bool_decide (v = ""%string) then inl dflt
          else match Atoi v with
               | Some parsed => inl parsed
               | None => inr ("invalid " ++ key ++ " value: " ++ v)%string
               end
      | None => inl dflt
      end
  end.

(** api_server.go:260-271. *)
Definition duration_field (raw : gmap string JSON) : Z + string :=
  match as_string raw "duration" with
  | Some v =>
      match ParseDuration v with
      | Some d => inl d
      | None => inr ("invalid duration format: " ++ v)%string
      end
  | None =>
      match as_number raw "duration" with
      | Some v => inl (int_of_float v)
      | None => inl (60 * 1000000000)
      end
  end.

(** api_server.go:273-279. *)
Definition emulate_latency_field (raw : gmap string JSON) : Z + string :=
  match as_string raw "emulate_latency" with
  | Some v =>
      if bool_decide (v ≠ ""%string) then
        match ParseDuration v with
        | Some d => inl d
        | None => inr ("invalid emulate_latency format: " ++ v)%string
        end
      else inl 0
  | None => inl 0
  end.

(** [parseTestConfig] (api_server.go:175-290); a field that is not set
    keeps its zero value. *)
Definition parseTestConfig (raw : gmap string JSON) : TestConfig + string :=
  let mode :=
    match as_string raw "mode" with
    | Some v => if bool_decide (v ≠ ""%string) then v else "test"%string
    | None => "test"%string
    end in
  let addr :=
    match as_string raw "addr" with
    | Some v =>
        if bool_decide (v ≠ ""%string) then v else "localhost:9000"%string
    | None => "localhost:9000"%string
    end in
  bind_err (int_field raw "connections" 2) (λ connections,
  bind_err (int_field raw "streams" 4) (λ streams,
  bind_err (int_field raw "packet_size" 1200) (λ packet_size,
  bind_err (int_field raw "rate" 100) (λ rate,
  bind_err (duration_field raw) (λ duration,
  bind_err (emulate_latency_field raw) (λ emulate_latency,
  inl {| Mode := mode; Addr := addr; Streams := streams;
         Connections := connections; Duration := duration;
         PacketSize := packet_size; Rate := rate;
         ReportPath := ""; ReportFormat := ""; CertPath := "";
         KeyPath := ""; Pattern := ""; NoTLS := false;
         Prometheus := default false (as_bool raw "prometheus");
         EmulateLoss := default 0%float (as_number raw "emulate_loss");
         EmulateLatency := emulate_latency;
         EmulateDup := default 0%float (as_number raw "emulate_dup");
         SlaRttP95 := 0; SlaLoss := 0; SlaThroughput := 0; SlaErrors := 0;
         CongestionControl :=
           default ""%string (as_string raw "congestion_control");
         MaxIdleTimeout := 0; HandshakeTimeout := 0; KeepAlive := 0;
         MaxStreams := 0; MaxStreamData := 0; Enable0RTT := false;
         EnableKeyUpdate := false; EnableDatagrams := false;
         MaxIncomingStreams := 0; MaxIncomingUniStreams := 0;
         FECEnabled := default false (as_bool raw "fec_enabled");
         FECRedundancy := default 0%float (as_number raw "fec_redundancy");
         PQCEnabled := default false (as_bool raw "pqc_enabled");
         PQCAlgorithm := "" |})))))).

(** [handleCreateTest] (api_server.go:149-172). *)
Definition handleCreateTest (tm : TestManager) (body : Body)
    (now started : Z) : TestManager * Response :=
  match decode body with
  | inr err => (tm, sendError ("Invalid JSON: " ++ err)%string 400)
  | inl rawConfig =>
      match parseTestConfig rawConfig with
      | inr err =>
          (tm, sendError ("Invalid configuration: " ++ err)%string 400)
      | inl config =>
          match Validate config with
          | Some err =>
              (tm, sendError ("Invalid configuration: " ++ err)%string 400)
          | None =>
              let '(tm', session) := StartTest tm config now started in
              (tm', sendSuccess session)
          end
      end
  end.

End api.

(** *** The rest of [test_manager.go] *)

(** [GetTest] (test_manager.go:62-67); a nil session is [None]. *)
Definition GetTest (tm : TestManager) (testID : string)
  : option TestSession :=
  activeTests tm !! testID.

(** What [GetAllTests] (test_manager.go:70-80) may return: the sessions of
    the map, in the order in which Go happens to iterate over it. *)
Definition GetAllTests_returns (tm : TestManager) (tests : list TestSession)
  : Prop :=
  tests ≡ₚ (map_to_list (activeTests tm)).*2.

(** [GetActiveTestCount] (test_manager.go:83-97): the loop over the map
    that counts the running sessions.  The count is at most
    [len(tm.activeTests)], an [int], so the increments do not wrap. *)
Definition GetActiveTestCount (tm : TestManager) : Z :=
  map_fold (λ _ session count,
              if bool_decide (Status session = "running"%string)
              then count + 1 else count)
           0 (activeTests tm).

(** [GetTotalTestCount] (test_manager.go:100-105). *)
Definition GetTotalTestCount (tm : TestManager) : Z :=
  Z.of_nat (size (activeTests tm)).

(** [addLogSafe] (test_manager.go:271-275). *)
Definition addLogSafe (logged : Z) (ts : TestSession) (message : string)
  : TestSession :=
  {| ID := ID ts; Config := Config ts; Status := Status ts;
     StartTime := StartTime ts; EndTime := EndTime ts;
     Metrics := Metrics ts;
     Logs := addLog logged (Logs ts) message |}.

(** [updateMetrics] (test_manager.go:277-284): the loop that copies every
    entry of [metrics] into [ts.Metrics]. *)
Definition updateMetrics (ts : TestSession)
    (metrics : gmap string MetricValue) : TestSession :=
  {| ID := ID ts; Config := Config ts; Status := Status ts;
     StartTime := StartTime ts; EndTime := EndTime ts;
     Metrics := map_fold (λ key value acc, <[key := value]> acc)
                         (Metrics ts) metrics;
     Logs := Logs ts |}.

(** [GetMetrics] (test_manager.go:287-297): a fresh map filled by a loop
    over [ts.Metrics]. *)
Definition GetMetrics (ts : TestSession) : gmap string MetricValue :=
  map_fold (λ key value acc, <[key := value]> acc) ∅ (Metrics ts).

(** [GetLogs] (test_manager.go:300-308): a copy of the slice. *)
Definition GetLogs (ts : TestSession) : list string := Logs ts.

(** The assignments of test_manager.go:151-156, 111-116 and 163-166: the
    status, the end time and one log entry. *)
Definition finish_session (status : string) (now logged : Z)
    (message : string) (ts : TestSession) : TestSession :=
  {| ID := ID ts; Config := Config ts; Status := status;
     StartTime := StartTime ts; EndTime := Some now;
     Metrics := Metrics ts;
     Logs := addLog logged (Logs ts) message |}.

(** What happens to one session: each event is one critical section on
    [session.mu], taken by [StopTest] or by the goroutines of [runTest].
    - [SeLog]: [addLogSafe].
    - [SeUpdateMetrics]: [updateMetrics].
    - [SeStop]: the body of [StopTest] after the lookup
      (test_manager.go:46-58).
    - [SeComplete]: the end of [runTest] (test_manager.go:161-168).
    - [SeUnknownMode]: the default case of the switch
      (test_manager.go:151-156).
    - [SePanic]: the deferred recovery (test_manager.go:110-117), with the
      printed panic value. *)
Inductive SessionEvent :=
| SeLog (logged : Z) (message : string)
| SeUpdateMetrics (metrics : gmap string MetricValue)
| SeStop (now logged : Z)
| SeComplete (now logged : Z)
| SeUnknownMode (now logged : Z)
| SePanic (now logged : Z) (r : string).

Definition session_step (ts : TestSession) (e : SessionEvent)
  : TestSession :=
  match e with
  | SeLog logged message => addLogSafe logged ts message
  | SeUpdateMetrics metrics => updateMetrics ts metrics
  | SeStop now logged =>
      if bool_decide (Status ts ≠ "running"%string) then ts
      else stop_session now logged ts
  | SeComplete now logged =>
      if bool_decide (Status ts = "running"%string)
      then finish_session "completed" now logged
             "Test completed successfully" ts
      else ts
  | SeUnknownMode now logged =>
      finish_session "failed" now logged
        ("Unknown test mode: " ++ Mode (Config ts))%string ts
  | SePanic now logged r =>
      finish_session "failed" now logged
        ("Test failed with panic: " ++ r)%string ts
  end.

Definition session_run (ts : TestSession) (evs : list SessionEvent)
  : TestSession :=
  foldl session_step ts evs.

(** The four values that the code ever stores in [Status]. *)
Definition known_statuses : list string :=
  ["running"; "stopped"; "completed"; "failed"]%string.

(** What the events of a session keep true. *)
Definition session_ok (ts0 ts : TestSession) : Prop :=
  ID ts = ID ts0 ∧ Config ts = Config ts0 ∧ StartTime ts = StartTime ts0
  ∧ Status ts ∈ known_statuses
  ∧ (Status ts = "running"%string ↔ EndTime ts = None)
  ∧ (length (Logs ts) ≤ 100)%nat.

(** An event of a test that runs to its end or is stopped: not the
    unknown-mode failure and not a panic. *)
Definition orderly (e : SessionEvent) : Prop :=
  match e with
  | SeUnknownMode _ _ | SePanic _ _ _ => False
  | _ => True
  end.

(** A step of a test in progress: a log entry or a metrics update of the
    runners. *)
Definition in_progress (e : SessionEvent) : Prop :=
  match e with
  | SeLog _ _ | SeUpdateMetrics _ => True
  | _ => False
  end.

(** The events of the session registered under [testID], seen from the
    manager: the map holds a pointer to the session (test_manager.go:28),
    so that what [runTest], started at test_manager.go:31, writes to the
    session is what [GetTest] and [StopTest] find afterwards. *)
Definition session_events (tm : TestManager) (testID : string)
    (evs : list SessionEvent) : TestManager :=
  {| activeTests := alter (λ ts, session_run ts evs) testID (activeTests tm) |}.

(** [strings.TrimPrefix]. *)
Fixpoint strip_prefix (s prefix : string) : option string :=
  match prefix with
  | EmptyString => Some s
  | String c prefix' =>
      match s with
      | String d s' =>
          if Ascii.eqb c d then strip_prefix s' prefix' else None
      | EmptyString => None
      end
  end.

Definition TrimPrefix (s prefix : string) : string :=
  default s (strip_prefix s prefix).

(** What the handlers of [api_server.go] write: [sendError], or
    [sendSuccess] of a session, of a page of sessions
    (api_server.go:133-145) or of a message (api_server.go:310-312). *)
Inductive Reply :=
| ReplyError (message : string) (statusCode : Z)
| ReplySession (session : TestSession)
| ReplyTests (tests : list TestSession) (total limit offset : Z)
| ReplyMessage (message : string).

Definition reply_of (r : Response) : Reply :=
  match r with
  | sendError message statusCode => ReplyError message statusCode
  | sendSuccess session => ReplySession session
  end.

(** A slice expression [l[lo:hi]]; [None] is the run-time panic for bounds
    out of range. *)
Definition go_slice {A : Type} (l : list A) (lo hi : Z) : option (list A) :=
  if bool_decide (0 ≤ lo ∧ lo ≤ hi ∧ hi ≤ Z.of_nat (length l))
  then Some (take (Z.to_nat (hi - lo)) (drop (Z.to_nat lo) l))
  else None.

Section routes.
Context {Body : Type}.
Variable decode : Body → gmap string JSON + string.
Variable Atoi : string → option Z.
Variable ParseDuration : string → option Z.
Variable int_of_float : float → Z.
Variable Validate : TestConfig → option string.

(** The [limit] of api_server.go:94-99. *)
Definition parse_limit (limitStr : string) : Z :=
  if bool_decide (limitStr ≠ ""%string) then
    match Atoi limitStr with
    | Some l => if 0 <? l then l else 50
    | None => 50
    end
  else 50.

(** The [offset] of api_server.go:101-106. *)
Definition parse_offset (offsetStr : string) : Z :=
  if bool_decide (offsetStr ≠ ""%string) then
    match Atoi offsetStr with
    | Some o => if 0 <=? o then o else 0
    | None => 0
    end
  else 0.

(** The filter of api_server.go:112-117. *)
Definition filter_status (status : string) (allTests : list TestSession)
  : list TestSession :=
  filter (λ test, status = ""%string ∨ Status test = status) allTests.

(** [handleListTests] (api_server.go:88-146) on the query parameters
    [status], [limit] and [offset] and on what [GetAllTests] returned;
    [None] is the panic of the slice expression. *)
Definition handleListTests (status limitStr offsetStr : string)
    (allTests : list TestSession) : option Reply :=
  let limit := parse_limit limitStr in
  let offset := parse_offset offsetStr in
  let filteredTests := filter_status status allTests in
  let total := Z.of_nat (length filteredTests) in
  let start := offset in
  let end_ := wrap_i64 (offset + limit) in
  if total <=? start then Some (ReplyTests [] total limit offset)
  else
    let end' := if total <? end_ then total else end_ in
    match go_slice filteredTests start end' with
    | Some page => Some (ReplyTests page total limit offset)
    | None => None
    end.

(** [handleGetTest] (api_server.go:293-301). *)
Definition handleGetTest (tm : TestManager) (testID : string) : Reply :=
  match GetTest tm testID with
  | None => ReplyError "Test not found" 404
  | Some session => ReplySession session
  end.

(** [handleStopTest] (api_server.go:304-313). *)
Definition handleStopTest (tm : TestManager) (testID : string)
    (now logged : Z) : TestManager * Reply :=
  match StopTest tm testID now logged with
  | (tm', Some err) => (tm', ReplyError err 400)
  | (tm', None) => (tm', ReplyMessage "Test stopped successfully")
  end.

(** A request as the two test handlers read it. *)
Record Request := mkRequest {
  Method : string;
  Path : string;
  query_status : string;
  query_limit : string;
  query_offset : string;
  RequestBody : Body
}.

(** [handleTests] (api_server.go:58-67), for [/api/tests]. *)
Definition handleTests (tm : TestManager) (r : Request)
    (allTests : list TestSession) (now started : Z)
  : TestManager * option Reply :=
  if bool_decide (Method r = "GET"%string) then
    (tm, handleListTests (query_status r) (query_limit r) (query_offset r)
           allTests)
  else if bool_decide (Method r = "POST"%string) then
    let '(tm', resp) :=
      handleCreateTest decode Atoi ParseDuration int_of_float Validate
                       tm (RequestBody r) now started in
    (tm', Some (reply_of resp))
  else (tm, Some (ReplyError "Method not allowed" 405)).

(** [handleTestByID] (api_server.go:70-85), for [/api/tests/{id}]. *)
Definition handleTestByID (tm : TestManager) (r : Request) (now logged : Z)
  : TestManager * Reply :=
  let testID := TrimPrefix (Path r) "/api/tests/" in
  if bool_decide (testID = ""%string) then
    (tm, ReplyError "Test ID required" 400)
  else if bool_decide (Method r = "GET"%string) then
    (tm, handleGetTest tm testID)
  else if bool_decide (Method r = "DELETE"%string) then
    handleStopTest tm testID now logged
  else (tm, ReplyError "Method not allowed" 405).

End routes.

(** The running session of [example_manager], and a life of it: a log
    entry, a stop, a second stop, a metrics update and the end of
    [runTest]. *)
Definition example_session : TestSession :=
  (StartTest NewTestManager
     (mkTestConfig "test" ":9000" 1 1 0 1200 100 "" "md" "" "" "random"
        false false 0 0 0 0 0 0 0 "" 0 0 0 0 0 false false false 0 0
        false 0 false "ml-kem-768") 1700000000 1700000000).2.

Definition example_after_stop : list SessionEvent :=
  [SeLog 1700000061 "Server test stopped"; SeStop 1700000062 1700000062;
   SeUpdateMetrics {[ "connections"%string := MInt 0 ]};
   SeComplete 1700000063 1700000063].

(** A stand-in for [strconv.Atoi] that knows three numerals, and three
    sessions to page through. *)
Definition example_Atoi (s : string) : option Z :=
  if bool_decide (s = "1"%string) then Some 1
  else if bool_decide (s = "2"%string) then Some 2
  else if bool_decide (s = "9223372036854775807"%string)
       then Some 9223372036854775807
  else None.

Definition example_tests : list TestSession :=
  [example_session;
   session_step example_session (SeStop 1700000060 1700000060);
   session_step example_session (SeComplete 1700000070 1700000070)].

(** Stand-ins for the library functions of the API server: a decoder that
    takes the body to be the decoded map already, a duration parser and a
    float conversion that are never reached on numeric-free requests, and a
    [Validate] that accepts everything. *)
Definition example_decode (body : gmap string JSON)
  : gmap string JSON + string := inl body.
Definition example_ParseDuration (_ : string) : option Z := None.
Definition example_int_of_float (_ : float) : Z := 0.
Definition example_Validate (_ : TestConfig) : option string := None.

(** The requests [GET] and [DELETE /api/tests/test_1700000000]. *)
Definition example_get : Request (Body := gmap string JSON) :=
  mkRequest "GET" "/api/tests/test_1700000000" "" "" "" ∅.
Definition example_delete : Request (Body := gmap string JSON) :=
  mkRequest "DELETE" "/api/tests/test_1700000000" "" "" "" ∅.

(** What [runTest] may have done to a test before a request arrives, and
    between two requests. *)
Definition example_started : list SessionEvent :=
  [SeLog 1700000001 "Starting test execution";
   SeLog 1700000001 "Starting integrated test (server + client)";
   SeUpdateMetrics {[ "connections"%string := MInt 2 ]}].

Definition example_wound_up : list SessionEvent :=
  [SeLog 1700000003 "Integrated test completed";
   SeComplete 1700000003 1700000003].

(** The configuration that [parseTestConfig] reads from an empty request,
    and a request whose [connections] is not a number. *)
Definition example_parsed : TestConfig :=
  mkTestConfig "test" "localhost:9000" 4 2 (60 * 1000000000) 1200 100
    "" "" "" "" "" false false 0 0 0 0 0 0 0 "" 0 0 0 0 0
    false false false 0 0 false 0 false "".

Definition example_bad_request : gmap string JSON :=
  {[ "connections"%string := JString "many" ]}.

End Gui.

(* ===================================================================== *)
(** ** Package [main]: the command line (part_001) *)
(* ===================================================================== *)

Module Cli.

Import Internal.

(** The values of the flags after [flag.Parse()] (part_001:20-83). *)
Record Flags := mkFlags {
  f_version : bool;
  f_mode : string;
  f_addr : string;
  f_streams : Z;
  f_connections : Z;
  f_duration : Z;
  f_packetSize : Z;
  f_rate : Z;
  f_reportPath : string;
  f_reportFormat : string;
  f_certPath : string;
  f_keyPath : string;
  f_pattern : string;
  f_noTLS : bool;
  f_prometheus : bool;
  f_quicBottom : bool;
  f_emulateLoss : float;
  f_emulateLatency : Z;
  f_emulateDup : float;
  f_fecEnabled : bool;
  f_fecRate : float;
  f_fecEnabledAlias : bool;
  f_fecRedundancyAlias : float;
  f_pqcEnabled : bool;
  f_pqcAlgorithm : string;
  f_slaRttP95 : Z;
  f_slaLoss : float;
  f_slaThroughput : float;
  f_slaErrors : Z;
  f_cc : string;
  f_maxIdleTimeout : Z;
  f_handshakeTimeout : Z;
  f_keepAlive : Z;
  f_maxStreams : Z;
  f_maxStreamData : Z;
  f_enable0RTT : bool;
  f_enableKeyUpdate : bool;
  f_enableDatagrams : bool;
  f_maxIncomingStreams : Z;
  f_maxIncomingUniStreams : Z;
  f_scenario : string;
  f_listScenarios : bool;
  f_networkProfile : string;
  f_listProfiles : bool
}.

(** The flags when the command line is empty (the defaults of
    part_001:20-81). *)
Definition default_flags : Flags :=
  {| f_version := false; f_mode := "test"; f_addr := ":9000";
     f_streams := 1; f_connections := 1; f_duration := 0;
     f_packetSize := 1200; f_rate := 100; f_reportPath := "";
     f_reportFormat := "md"; f_certPath := ""; f_keyPath := "";
     f_pattern := "random"; f_noTLS := false; f_prometheus := false;
     f_quicBottom := false; f_emulateLoss := 0; f_emulateLatency := 0;
     f_emulateDup := 0; f_fecEnabled := false; f_fecRate := 0.10;
     f_fecEnabledAlias := false; f_fecRedundancyAlias := 0.10;
     f_pqcEnabled := false; f_pqcAlgorithm := "ml-kem-768";
     f_slaRttP95 := 0; f_slaLoss := 0; f_slaThroughput := 0;
     f_slaErrors := 0; f_cc := ""; f_maxIdleTimeout := 0;
     f_handshakeTimeout := 0; f_keepAlive := 0; f_maxStreams := 0;
     f_maxStreamData := 0; f_enable0RTT := false;
     f_enableKeyUpdate := false; f_enableDatagrams := false;
     f_maxIncomingStreams := 0; f_maxIncomingUniStreams := 0;
     f_scenario := ""; f_listScenarios := false; f_networkProfile := "";
     f_listProfiles := false |}.

(** The closure of part_001:125-133 that computes [FECRedundancy]. *)
Definition fec_redundancy_of (f : Flags) : float :=
  if f_fecEnabled f || f_fecEnabledAlias f then
    if negb (PrimFloat.eqb (f_fecRedundancyAlias f) 0.10)
    then f_fecRedundancyAlias f
    else f_fecRate f
  else 0%float.

(** The [internal.TestConfig] literal of part_001:91-136. *)
Definition config_of_flags (f : Flags) : TestConfig :=
  {| Mode := f_mode f; Addr := f_addr f; Streams := f_streams f;
     Connections := f_connections f; Duration := f_duration f;
     PacketSize := f_packetSize f; Rate := f_rate f;
     ReportPath := f_reportPath f; ReportFormat := f_reportFormat f;
     CertPath := f_certPath f; KeyPath := f_keyPath f;
     Pattern := f_pattern f; NoTLS := f_noTLS f;
     Prometheus := f_prometheus f; EmulateLoss := f_emulateLoss f;
     EmulateLatency := f_emulateLatency f; EmulateDup := f_emulateDup f;
     SlaRttP95 := f_slaRttP95 f; SlaLoss := f_slaLoss f;
     SlaThroughput := f_slaThroughput f; SlaErrors := f_slaErrors f;
     CongestionControl := f_cc f; MaxIdleTimeout := f_maxIdleTimeout f;
     HandshakeTimeout := f_handshakeTimeout f; KeepAlive := f_keepAlive f;
     MaxStreams := f_maxStreams f; MaxStreamData := f_maxStreamData f;
     Enable0RTT := f_enable0RTT f; EnableKeyUpdate := f_enableKeyUpdate f;
     EnableDatagrams := f_enableDatagrams f;
     MaxIncomingStreams := f_maxIncomingStreams f;
     MaxIncomingUniStreams := f_maxIncomingUniStreams f;
     FECEnabled := f_fecEnabled f || f_fecEnabledAlias f;
     FECRedundancy := fec_redundancy_of f;
     PQCEnabled := f_pqcEnabled f; PQCAlgorithm := f_pqcAlgorithm f |}.

(** How [main] ends: [os.Exit(code)], or one of the three runs of
    part_001:228-237 with the configuration it is given. *)
Inductive Outcome :=
| Exit (code : Z)
| RunServer (cfg : TestConfig)
| RunClient (cfg : TestConfig)
| RunTestMode (cfg : TestConfig).

Section main.
(** [internal.GetScenario], [internal.GetNetworkProfile] and
    [internal.ApplyNetworkProfile] have no source available; [None] is
    their error result. *)
Context {NetworkProfile : Type}.
Variable GetScenario : string → option TestConfig.
Variable GetNetworkProfile : string → option NetworkProfile.
Variable ApplyNetworkProfile : TestConfig → NetworkProfile → TestConfig.

(** The switch of part_001:228-241. *)
Definition dispatch (cfg : TestConfig) : Outcome :=
  if bool_decide (Mode cfg = "server"%string) then RunServer cfg
  else if bool_decide (Mode cfg = "client"%string) then RunClient cfg
  else if bool_decide (Mode cfg = "test"%string) then RunTestMode cfg
  else Exit 1.

(** The configuration that reaches the switch (part_001:186-209): the one
    built from the flags, replaced by the scenario's when [-scenario] is
    given, then changed by the network profile when [-network-profile] is
    given; [None] when the scenario or the profile is unknown. *)
Definition final_config (f : Flags) : option TestConfig :=
  let after_scenario : option TestConfig :=
    if bool_decide (f_scenario f ≠ ""%string)
    then GetScenario (f_scenario f)
    else Some (config_of_flags f) in
  match after_scenario with
  | None => None
  | Some cfg =>
      if bool_decide (f_networkProfile f ≠ ""%string) then
        ApplyNetworkProfile cfg <$> GetNetworkProfile (f_networkProfile f)
      else Some cfg
  end.

(** [main] (part_001:18-242) after [flag.Parse()]; printing and the
    optional start of the external visualiser are left out. *)
Definition main (f : Flags) : Outcome :=
  if f_version f then Exit 0
  else if f_listScenarios f then Exit 0
  else if f_listProfiles f then Exit 0
  else
    match final_config f with
    | None => Exit 1
    | Some cfg => dispatch cfg
    end.

End main.

(** [main] hands [cfg] to one of the three runs. *)
Definition started (o : Outcome) (cfg : TestConfig) : Prop :=
  o = RunServer cfg ∨ o = RunClient cfg ∨ o = RunTestMode cfg.

(** The modes that the switch of part_001:228-241 knows. *)
Definition known_modes : list string := ["server"; "client"; "test"]%string.

(** What section 7 of the specification asks of startup: no server, client
    or test run begins with a configuration that has a [ConfigError]. *)
Definition no_run_with_config_error {NetworkProfile : Type}
    (GetScenario : string → option TestConfig)
    (GetNetworkProfile : string → option NetworkProfile)
    (ApplyNetworkProfile : TestConfig → NetworkProfile → TestConfig) : Prop :=
  ∀ f cfg,
    started (main GetScenario GetNetworkProfile ApplyNetworkProfile f) cfg →
    ¬ config_error cfg.

(** The command line [-mode server -enable-fec -fec-rate 0.9 -cc bogus]:
    every other flag has its default. *)
Definition example_invalid_flags : Flags :=
  mkFlags false "server" ":9000" 1 1 0 1200 100 "" "md" "" "" "random"
    false false false 0 0 0 true 0.9 false 0.10 false "ml-kem-768"
    0 0 0 0 "bogus" 0 0 0 0 0 false false false 0 0 "" false "" false.

(** An installation without scenarios and network profiles. *)
Definition no_scenario (_ : string) : option TestConfig := None.
Definition no_profile (_ : string) : option unit := None.
Definition apply_no_profile (cfg : TestConfig) (_ : unit) : TestConfig := cfg.

(** An installation with one scenario, and a command line that asks for it
    together with a mode. *)
Definition example_GetScenario (name : string) : option TestConfig :=
  if bool_decide (name = "wifi"%string)
  then Some (config_of_flags default_flags) else None.

Definition example_scenario_flags (mode : string) : Flags :=
  mkFlags false mode ":9000" 1 1 0 1200 100 "" "md" "" "" "random"
    false false false 0 0 0 false 0.10 false 0.10 false "ml-kem-768"
    0 0 0 0 "" 0 0 0 0 0 false false false 0 0 "wifi" false "" false.

End Cli.

(* ===================================================================== *)
(** * Properties *)
(* ===================================================================== *)

(** ** Machine integers and bytes *)

Section machine_facts.

Lemma wrap_i64_small z : - 2 ^ 63 ≤ z ≤ max_i64 → wrap_i64 z = z.
Proof.
  unfold wrap_i64, max_i64. intros Hz.
  rewrite Z.mod_small; lia.
Qed.

Lemma wrap_u64_small z : 0 ≤ z < 2 ^ 64 → wrap_u64 z = z.
Proof. unfold wrap_u64. intros Hz. by rewrite Z.mod_small. Qed.

Lemma Z_of_byte_range b : 0 ≤ Z_of_byte b < 256.
Proof.
  unfold Z_of_byte. pose proof (Byte.to_N_bounded b). lia.
Qed.

Lemma Z_of_byte_of_Z z : Z_of_byte (byte_of_Z z) = z `mod` 256.
Proof.
  unfold Z_of_byte, byte_of_Z.
  pose proof (Z.mod_pos_bound z 256 eq_refl) as Hb.
  destruct (Byte.of_N (Z.to_N (z `mod` 256))) as [b|] eqn:E.
  - apply Byte.to_of_N in E. simpl. rewrite E. lia.
  - apply Byte.of_N_None_iff in E. lia.
Qed.

Lemma byte_eqb_eq a b : byte_eqb a b = true ↔ a = b.
Proof.
  unfold byte_eqb. split; [apply Byte.byte_dec_bl | apply Byte.byte_dec_lb].
Qed.

Lemma xor_bits_comm x y : xor_bits x y = xor_bits y x.
Proof.
  destruct x as (a0 & a1 & a2 & a3 & a4 & a5 & a6 & a7).
  destruct y as (b0 & b1 & b2 & b3 & b4 & b5 & b6 & b7).
  simpl. by rewrite (xorb_comm a0), (xorb_comm a1), (xorb_comm a2),
    (xorb_comm a3), (xorb_comm a4), (xorb_comm a5), (xorb_comm a6),
    (xorb_comm a7).
Qed.

Lemma xor_bits_assoc x y z :
  xor_bits x (xor_bits y z) = xor_bits (xor_bits x y) z.
Proof.
  destruct x as (a0 & a1 & a2 & a3 & a4 & a5 & a6 & a7).
  destruct y as (b0 & b1 & b2 & b3 & b4 & b5 & b6 & b7).
  destruct z as (c0 & c1 & c2 & c3 & c4 & c5 & c6 & c7).
  simpl. by rewrite !xorb_assoc.
Qed.

Lemma xor_bits_nilpotent x : xor_bits x x = Byte.to_bits x00.
Proof.
  destruct x as (a0 & a1 & a2 & a3 & a4 & a5 & a6 & a7).
  simpl. by rewrite !xorb_nilpotent.
Qed.

Lemma xor_bits_zero_l x : xor_bits (Byte.to_bits x00) x = x.
Proof.
  destruct x as (a0 & a1 & a2 & a3 & a4 & a5 & a6 & a7).
  simpl. by rewrite ?xorb_false_l.
Qed.

Lemma byte_xor_comm a b : byte_xor a b = byte_xor b a.
Proof. unfold byte_xor. by rewrite xor_bits_comm. Qed.

Lemma byte_xor_assoc a b c :
  byte_xor a (byte_xor b c) = byte_xor (byte_xor a b) c.
Proof.
  unfold byte_xor. by rewrite !Byte.to_bits_of_bits, xor_bits_assoc.
Qed.

Lemma byte_xor_nilpotent a : byte_xor a a = x00.
Proof.
  unfold byte_xor. by rewrite xor_bits_nilpotent, Byte.of_bits_to_bits.
Qed.

Lemma byte_xor_zero_l a : byte_xor x00 a = a.
Proof.
  unfold byte_xor. by rewrite xor_bits_zero_l, Byte.of_bits_to_bits.
Qed.

Lemma byte_xor_zero_r a : byte_xor a x00 = a.
Proof. by rewrite byte_xor_comm, byte_xor_zero_l. Qed.

(** Xoring [a] in twice cancels. *)
Lemma byte_xor_cancel a b : byte_xor a (byte_xor a b) = b.
Proof.
  by rewrite byte_xor_assoc, byte_xor_nilpotent, byte_xor_zero_l.
Qed.

Lemma byte_at_nil i : byte_at [] i = x00.
Proof. unfold byte_at. by destruct i. Qed.

Lemma byte_at_xor_bytes a b i :
  byte_at (xor_bytes a b) i = byte_xor (byte_at a i) (byte_at b i).
Proof.
  revert b i. induction a as [|x a IH]; intros b i.
  - simpl. by rewrite byte_at_nil, byte_xor_zero_l.
  - destruct b as [|y b].
    + simpl. by rewrite byte_at_nil, byte_xor_zero_r.
    + destruct i as [|i]; [done|]. apply (IH b i).
Qed.

Lemma length_xor_bytes a b :
  length (xor_bytes a b) = (length a `max` length b)%nat.
Proof.
  revert b. induction a as [|x a IH]; intros [|y b]; simpl; auto.
Qed.

Lemma byte_at_xor_all ps i : byte_at (xor_all ps) i = xor_column ps i.
Proof.
  induction ps as [|p ps IH]; simpl.
  - apply byte_at_nil.
  - unfold xor_all in *. simpl. by rewrite byte_at_xor_bytes, IH.
Qed.

Lemma length_xor_all_ge ps p :
  p ∈ ps → (length p ≤ length (xor_all ps))%nat.
Proof.
  induction 1 as [p ps|p q ps _ IH]; unfold xor_all in *; simpl;
    rewrite length_xor_bytes; lia.
Qed.

Lemma xor_column_app ps qs i :
  xor_column (ps ++ qs) i = byte_xor (xor_column ps i) (xor_column qs i).
Proof.
  induction ps as [|p ps IH]; simpl.
  - by rewrite byte_xor_zero_l.
  - by rewrite IH, byte_xor_assoc.
Qed.

(** Single-erasure recovery, byte by byte: the xor of the parity column
    with the columns of all payloads but the [j]-th is the [j]-th column. *)
Lemma xor_column_recover ps j pj i :
  ps !! j = Some pj →
  byte_xor (xor_column ps i) (xor_column (take j ps ++ drop (S j) ps) i)
  = byte_at pj i.
Proof.
  intros Hj.
  rewrite <- (take_drop_middle ps j pj Hj) at 1.
  rewrite !xor_column_app. simpl.
  set (a := xor_column (take j ps) i).
  set (b := xor_column (drop (S j) ps) i).
  set (c := byte_at pj i).
  rewrite (byte_xor_comm c b), (byte_xor_assoc a b c).
  by rewrite (byte_xor_comm _ (byte_xor a b)), byte_xor_cancel.
Qed.

(** Two byte strings that agree on the first [n] offsets have the same
    prefix of length [n]. *)
Lemma take_byte_at_ext (l : list byte) (p : list byte) :
  (length p ≤ length l)%nat →
  (∀ i, (i < length p)%nat → byte_at l i = byte_at p i) →
  take (length p) l = p.
Proof.
  revert l. induction p as [|x p IH]; intros l Hlen Hat.
  - done.
  - destruct l as [|y l]; simpl in *; [lia|].
    f_equal.
    + apply (Hat 0%nat). lia.
    + apply IH; [lia|]. intros i Hi. apply (Hat (S i)). lia.
Qed.

(** The xor of the parity payload with all payloads but the [j]-th,
    truncated to the length of the [j]-th, is the [j]-th payload. *)
Lemma xor_all_recover ps j pj :
  ps !! j = Some pj →
  take (length pj) (xor_all (xor_all ps :: (take j ps ++ drop (S j) ps)))
  = pj.
Proof.
  intros Hj. apply take_byte_at_ext.
  - etrans; [apply (length_xor_all_ge ps pj)|].
    + eapply list_elem_of_lookup_2, Hj.
    + apply length_xor_all_ge. left.
  - intros i _. rewrite byte_at_xor_all. simpl.
    rewrite byte_at_xor_all. by apply xor_column_recover.
Qed.

End machine_facts.

(** ** The wire format of redundancy packets *)

Section codec_facts.

Lemma length_encode_be w v : length (encode_be w v) = w.
Proof. induction w as [|w IH]; simpl; auto. Qed.

Lemma foldl_decode_encode_be w v acc :
  foldl (λ acc b, acc * 256 + Z_of_byte b) acc (encode_be w v)
  = acc * 256 ^ Z.of_nat w + v `mod` 256 ^ Z.of_nat w.
Proof.
  revert acc. induction w as [|w IH]; intros acc.
  - simpl. rewrite Z.mod_1_r. lia.
  - cbn [encode_be foldl]. rewrite IH, Z_of_byte_of_Z.
    rewrite Nat2Z.inj_succ, Z.pow_succ_r by lia.
    rewrite (Z.mul_comm 256 (256 ^ Z.of_nat w)).
    rewrite (Z.rem_mul_r v (256 ^ Z.of_nat w) 256) by lia.
    lia.
Qed.

Lemma decode_encode_be w v :
  0 ≤ v < 256 ^ Z.of_nat w → decode_be (encode_be w v) = v.
Proof.
  intros Hv. unfold decode_be.
  rewrite foldl_decode_encode_be, Z.mod_small; lia.
Qed.

Lemma byte_eqb_refl b : byte_eqb b b = true.
Proof. by apply byte_eqb_eq. Qed.

Lemma length_encode_len_table (t : list Z) :
  length (flat_map (encode_be 2) t) = (2 * length t)%nat.
Proof.
  induction t as [|l t IH]; [done|].
  cbn [flat_map]. rewrite length_app, length_encode_be, IH. simpl. lia.
Qed.

Lemma decode_encode_len_table (t : list Z) :
  Forall (λ l, 0 ≤ l < 65536) t →
  FEC.decode_len_table (length t) (flat_map (encode_be 2) t) = t.
Proof.
  induction 1 as [|l t Hl _ IH]; [done|].
  cbn [flat_map length FEC.decode_len_table].
  rewrite take_app_length', drop_app_length'
    by (symmetry; apply length_encode_be).
  rewrite IH, decode_encode_be; [done|]. simpl. lia.
Qed.

(** Parsing is the inverse of serialisation. *)
Lemma parse_encode_redundancy rp :
  FEC.wf_redundancy rp →
  FEC.parse_redundancy (FEC.encode_redundancy rp) = Some rp.
Proof.
  destruct rp as [gid pi k r t par].
  unfold FEC.wf_redundancy, FEC.encode_redundancy, FEC.marker,
    FEC.parse_redundancy.
  cbn [app FEC.rp_group_id FEC.rp_parity_index FEC.rp_k FEC.rp_r
       FEC.rp_payload_len_table FEC.rp_parity_payload].
  intros (Hgid & Hpi & Hk & Hr & Hlen & Ht).
  rewrite !byte_eqb_refl. cbn [andb].
  rewrite drop_app_length' by (symmetry; apply length_encode_be).
  cbn [app].
  rewrite take_app_length' by (symmetry; apply length_encode_be).
  rewrite !Z_of_byte_of_Z, !Z.mod_small by lia.
  assert (Z.to_nat k = length t) as -> by lia.
  rewrite length_app, length_encode_len_table.
  destruct (Nat.leb_spec (2 * length t) (2 * length t + length par));
    [|lia].
  rewrite take_app_length', drop_app_length'
    by (symmetry; apply length_encode_len_table).
  rewrite decode_encode_len_table by done.
  rewrite decode_encode_be by (simpl; lia).
  do 2 f_equal; lia.
Qed.

(** The redundancy packet of a group of at most 255 payloads, each shorter
    than 65536 bytes, fits the wire format. *)
Lemma wf_ComputeRedundancy gid (ps : list (list byte)) :
  0 ≤ gid < 2 ^ 64 →
  Z.of_nat (length ps) < 256 →
  Forall (λ p, Z.of_nat (length p) < 65536) ps →
  FEC.wf_redundancy (FEC.ComputeRedundancy gid ps).
Proof.
  intros Hgid Hk Hps. unfold FEC.wf_redundancy. simpl.
  rewrite length_fmap. repeat split; try lia.
  apply Forall_fmap. eapply Forall_impl; [exact Hps|].
  intros p Hp. unfold compose. cbn beta in *. lia.
Qed.

End codec_facts.

(** ** The decoder *)

Section decoder_facts.

Lemma get_group_data_time d gid now now' :
  FEC.g_data (FEC.get_group d gid now)
  = FEC.g_data (FEC.get_group d gid now').
Proof. unfold FEC.get_group. by destruct (FEC.groups d !! gid). Qed.

Lemma get_group_AddPacket d payload pid gid t now :
  FEC.g_data (FEC.get_group (FEC.AddPacket t d payload pid gid) gid now)
  = <[pid := payload]> (FEC.g_data (FEC.get_group d gid now)).
Proof.
  unfold FEC.AddPacket, FEC.put_group. simpl.
  unfold FEC.get_group at 1. simpl. rewrite lookup_insert_eq. simpl.
  f_equal. apply get_group_data_time.
Qed.

(** The slot map of a group after a sequence of arrivals. *)
Lemma get_group_deliver gid ps d arrivals now :
  FEC.g_data (FEC.get_group (FEC.deliver gid ps d arrivals) gid now)
  = foldl (λ m a, <[Z.of_nat a.2 := default [] (ps !! a.2)]> m)
          (FEC.g_data (FEC.get_group d gid now)) arrivals.
Proof.
  revert d. induction arrivals as [|a arrivals IH]; intros d; [done|].
  unfold FEC.deliver in *. cbn [foldl]. rewrite IH. f_equal.
  apply get_group_AddPacket.
Qed.

Lemma lookup_foldl_insert (ps : list (list byte)) (arrivals : list (Z * nat))
    (m : gmap Z (list byte)) (i : nat) :
  foldl (λ m a, <[Z.of_nat a.2 := default [] (ps !! a.2)]> m) m arrivals
    !! Z.of_nat i
  = if decide (i ∈ arrivals.*2) then Some (default [] (ps !! i))
    else m !! Z.of_nat i.
Proof.
  revert m. induction arrivals as [|a arrivals IH]; intros m; [done|].
  cbn [foldl fmap list_fmap]. rewrite IH.
  destruct (decide (i ∈ arrivals.*2)) as [Hin|Hnin].
  - rewrite decide_True; [done|]. by right.
  - destruct (decide (a.2 = i)) as [<-|Hne].
    + rewrite lookup_insert_eq, decide_True; [done|]. left.
    + rewrite lookup_insert_ne by lia.
      rewrite decide_False; [done|].
      intros [?|?]%elem_of_cons; done.
Qed.

Lemma filter_none {A} (P : A → Prop) `{!∀ x, Decision (P x)} (l : list A) :
  Forall (λ x, ¬ P x) l → filter P l = [].
Proof.
  induction 1 as [|x l Hx _ IH]; [done|].
  by rewrite filter_cons_False.
Qed.

(** When every slot of a range is recorded, the present payloads of the
    range are the corresponding payloads. *)
Lemma omap_present (data : gmap Z (list byte)) (ps : list (list byte))
    (a n : nat) :
  (∀ i, (a ≤ i < a + n)%nat → data !! Z.of_nat i = ps !! i) →
  (a + n ≤ length ps)%nat →
  omap (λ z, data !! z) (seqZ (Z.of_nat a) (Z.of_nat n))
  = take n (drop a ps).
Proof.
  revert a. induction n as [|n IH]; intros a Hdata Hlen; [done|].
  rewrite seqZ_cons by lia.
  destruct (lookup_lt_is_Some_2 ps a) as [p Hp]; [lia|].
  cbn [omap list_omap]. rewrite (Hdata a), Hp by lia.
  rewrite (drop_S _ _ _ Hp). cbn [take]. f_equal.
  replace (Z.succ (Z.of_nat a)) with (Z.of_nat (S a)) by lia.
  replace (Z.pred (Z.of_nat (S n))) with (Z.of_nat n) by lia.
  apply IH; [|lia]. intros i Hi. apply Hdata. lia.
Qed.

Section one_missing.
Context (data : gmap Z (list byte)) (ps : list (list byte)) (j : nat).
Hypothesis Hj : (j < length ps)%nat.
Hypothesis Hmissing : data !! Z.of_nat j = None.
Hypothesis Hpresent :
  ∀ i, (i < length ps)%nat → i ≠ j → data !! Z.of_nat i = ps !! i.

Lemma seqZ_split :
  seqZ 0 (Z.of_nat (length ps))
  = seqZ (Z.of_nat 0) (Z.of_nat j)
    ++ Z.of_nat j :: seqZ (Z.of_nat (S j)) (Z.of_nat (length ps - S j)).
Proof using Hj.
  replace (Z.of_nat (length ps))
    with (Z.of_nat j + Z.of_nat (S (length ps - S j))) by lia.
  rewrite seqZ_app by lia. f_equal.
  rewrite seqZ_cons by lia. f_equal. f_equal; lia.
Qed.

Lemma missing_slots_one :
  FEC.missing_slots (Z.of_nat (length ps)) data = [Z.of_nat j].
Proof using Hj Hmissing Hpresent.
  unfold FEC.missing_slots. rewrite seqZ_split.
  rewrite filter_app, filter_cons_True by done.
  rewrite !filter_none; [done| |].
  - apply Forall_seqZ. intros z Hz.
    replace z with (Z.of_nat (Z.to_nat z)) by lia.
    rewrite Hpresent by lia.
    intros Hnone%lookup_ge_None. lia.
  - apply Forall_seqZ. intros z Hz.
    replace z with (Z.of_nat (Z.to_nat z)) by lia.
    rewrite Hpresent by lia.
    intros Hnone%lookup_ge_None. lia.
Qed.

Lemma present_payloads_one :
  FEC.present_payloads (Z.of_nat (length ps)) data
  = take j ps ++ drop (S j) ps.
Proof using Hj Hmissing Hpresent.
  unfold FEC.present_payloads. rewrite seqZ_split.
  rewrite omap_app. cbn [omap list_omap]. rewrite Hmissing.
  rewrite !(omap_present data ps); try lia.
  - rewrite drop_0. f_equal. apply take_ge. rewrite length_drop. lia.
  - intros i Hi. apply Hpresent; lia.
  - intros i Hi. apply Hpresent; lia.
Qed.

End one_missing.

(** With two distinct slots of the group missing, the list of missing
    slots has at least two entries. *)
Lemma missing_slots_two (data : gmap Z (list byte)) (k i j : Z) :
  0 ≤ i < k → 0 ≤ j < k → i ≠ j →
  data !! i = None → data !! j = None →
  ∃ a b l, FEC.missing_slots k data = a :: b :: l.
Proof.
  intros Hi Hj Hne Hdi Hdj.
  assert (i ∈ FEC.missing_slots k data) as Hin1.
  { apply list_elem_of_filter. split; [done|]. apply elem_of_seqZ. lia. }
  assert (j ∈ FEC.missing_slots k data) as Hin2.
  { apply list_elem_of_filter. split; [done|]. apply elem_of_seqZ. lia. }
  destruct (FEC.missing_slots k data) as [|a [|b l]].
  - by apply elem_of_nil in Hin1.
  - apply list_elem_of_singleton in Hin1, Hin2. congruence.
  - eauto.
Qed.

End decoder_facts.

(** ** Recovery of a single loss *)

Section recovery.

Lemma deliver_slots gid (ps : list (list byte)) d0 arrivals now (i : nat) :
  FEC.groups d0 !! gid = None →
  FEC.g_data (FEC.get_group (FEC.deliver gid ps d0 arrivals) gid now)
    !! Z.of_nat i
  = if decide (i ∈ arrivals.*2) then Some (default [] (ps !! i)) else None.
Proof.
  intros Hfresh. rewrite get_group_deliver, lookup_foldl_insert.
  case_decide; [done|].
  unfold FEC.get_group. by rewrite Hfresh.
Qed.

(** C1.  For every group of K data packets (K at most 255, payloads
    shorter than 65536 bytes) and its redundancy packet, if the decoder has
    not seen the group before and receives every data packet but the
    [j]-th, in any order, any number of times, then [AddRedundancyPacket]
    on the redundancy packet returns [recovered = true] with the one-entry
    list holding slot [j] and exactly the bytes of the lost payload. *)
Theorem single_loss_recovered
    (gid : Z) (ps : list (list byte)) (j : nat) (pj : list byte)
    (d0 : FEC.FECDecoder) (arrivals : list (Z * nat)) (now : Z) :
  0 ≤ gid < 2 ^ 64 →
  Z.of_nat (length ps) < 256 →
  Forall (λ p, Z.of_nat (length p) < 65536) ps →
  ps !! j = Some pj →
  FEC.groups d0 !! gid = None →
  (∀ i, i ∈ arrivals.*2 ↔ (i < length ps)%nat ∧ i ≠ j) →
  (FEC.AddRedundancyPacket now (FEC.deliver gid ps d0 arrivals)
     (FEC.encode_redundancy (FEC.ComputeRedundancy gid ps))).2
  = (true, [ {| FEC.PacketID := Z.of_nat j; FEC.Data := pj |} ]).
Proof.
  intros Hgid Hk Hlens Hj Hfresh Harr.
  pose proof (lookup_lt_Some _ _ _ Hj) as Hjlt.
  unfold FEC.AddRedundancyPacket.
  rewrite parse_encode_redundancy by by apply wf_ComputeRedundancy.
  cbn [FEC.ComputeRedundancy FEC.rp_group_id FEC.rp_r FEC.rp_k
       FEC.rp_payload_len_table FEC.rp_parity_payload].
  rewrite bool_decide_eq_true_2 by done.
  set (data := FEC.g_data (FEC.get_group (FEC.deliver gid ps d0 arrivals)
                                         gid now)).
  assert (data !! Z.of_nat j = None) as Hmissing.
  { unfold data. rewrite deliver_slots by done.
    rewrite decide_False; [done|]. intros [_ ?]%Harr. done. }
  assert (∀ i, (i < length ps)%nat → i ≠ j → data !! Z.of_nat i = ps !! i)
    as Hpresent.
  { intros i Hi Hne. unfold data. rewrite deliver_slots by done.
    rewrite decide_True by by apply Harr.
    by destruct (lookup_lt_is_Some_2 ps i Hi) as [p ->]. }
  rewrite (missing_slots_one data ps j) by done.
  rewrite Nat2Z.id, list_lookup_fmap, Hj. cbn [fmap option_fmap option_map].
  rewrite bool_decide_eq_true_2.
  2: { apply inj_le, length_xor_all_ge. eapply list_elem_of_lookup_2, Hj. }
  cbn [snd]. do 3 f_equal.
  unfold FEC.reconstruct.
  cbn [FEC.ComputeRedundancy FEC.rp_k FEC.rp_parity_payload].
  rewrite (present_payloads_one data ps j) by done.
  rewrite Nat2Z.id. by apply xor_all_recover.
Qed.

(** An instance of C1: a group of three payloads of different lengths, the
    middle one lost, the others arriving out of order. *)
Lemma single_loss_recovered_witness :
  (FEC.AddRedundancyPacket 7
     (FEC.deliver 5 [[x01; x02; x03]; [x10; x20]; [xff]] FEC.NewFECDecoder
        [(3, 2%nat); (4, 0%nat)])
     (FEC.encode_redundancy
        (FEC.ComputeRedundancy 5 [[x01; x02; x03]; [x10; x20]; [xff]]))).2
  = (true, [ {| FEC.PacketID := 1; FEC.Data := [x10; x20] |} ]).
Proof.
  apply (single_loss_recovered 5 [[x01; x02; x03]; [x10; x20]; [xff]]
           1%nat [x10; x20] FEC.NewFECDecoder [(3, 2%nat); (4, 0%nat)] 7).
  - lia.
  - simpl. lia.
  - repeat constructor; simpl; lia.
  - reflexivity.
  - reflexivity.
  - intros i. simpl. rewrite !elem_of_cons, elem_of_nil. lia.
Defined.

End recovery.

(** ** Two losses are never reported as recovered *)

Section two_losses.
Context (retention gid i j : Z).
Hypothesis Hi : 0 ≤ i.
Hypothesis Hj : 0 ≤ j.
Hypothesis Hij : i ≠ j.

Lemma slots_unseen_get_group d now :
  FEC.slots_unseen gid i j d →
  FEC.g_data (FEC.get_group d gid now) !! i = None
  ∧ FEC.g_data (FEC.get_group d gid now) !! j = None.
Proof.
  intros Hinv. unfold FEC.get_group.
  destruct (FEC.groups d !! gid) as [g|] eqn:Hg; simpl; [by apply Hinv|done].
Qed.

Lemma slots_unseen_put_other d g :
  FEC.g_group_id g ≠ gid →
  FEC.slots_unseen gid i j d → FEC.slots_unseen gid i j (FEC.put_group d g).
Proof.
  intros Hne Hinv g'. unfold FEC.put_group. simpl.
  rewrite lookup_insert_ne by done. apply Hinv.
Qed.

Lemma slots_unseen_put_same d g :
  FEC.g_group_id g = gid →
  FEC.g_data g !! i = None → FEC.g_data g !! j = None →
  FEC.slots_unseen gid i j (FEC.put_group d g).
Proof.
  intros Heq H1 H2 g'. unfold FEC.put_group. simpl.
  rewrite Heq, lookup_insert_eq. by intros [= <-].
Qed.

Lemma slots_unseen_AddPacket d now payload pid gid' :
  (gid' = gid → pid ≠ i ∧ pid ≠ j) →
  FEC.slots_unseen gid i j d →
  FEC.slots_unseen gid i j (FEC.AddPacket now d payload pid gid').
Proof.
  intros Hpid Hinv. unfold FEC.AddPacket.
  destruct (decide (gid' = gid)) as [->|Hne].
  - destruct (Hpid eq_refl) as [Hpi Hpj].
    destruct (slots_unseen_get_group d now Hinv) as [H1 H2].
    apply slots_unseen_put_same; simpl; [done| |];
      by rewrite lookup_insert_ne.
  - by apply slots_unseen_put_other.
Qed.

Lemma slots_unseen_CleanupGroups d now :
  FEC.slots_unseen gid i j d →
  FEC.slots_unseen gid i j (FEC.CleanupGroups retention now d).
Proof.
  intros Hinv g. unfold FEC.CleanupGroups. simpl.
  intros [Hg _]%map_lookup_filter_Some. by apply Hinv.
Qed.

(** The heart of C2: with slots [i] and [j] unseen, a redundancy packet of
    the group that covers both slots is stored, nothing is reconstructed,
    and the two slots stay unseen. *)
Lemma AddRedundancyPacket_two_missing d now buf :
  FEC.slots_unseen gid i j d →
  (∀ rp, FEC.parse_redundancy buf = Some rp → FEC.rp_group_id rp = gid →
         i < FEC.rp_k rp ∧ j < FEC.rp_k rp) →
  FEC.slots_unseen gid i j (FEC.AddRedundancyPacket now d buf).1
  ∧ (FEC.parity_group buf = Some gid →
     (FEC.AddRedundancyPacket now d buf).2 = (false, [])).
Proof using Hi Hj Hij.
  intros Hinv Hk. unfold FEC.AddRedundancyPacket, FEC.parity_group.
  destruct (FEC.parse_redundancy buf) as [rp|] eqn:Hparse; [|done].
  destruct (decide (FEC.rp_group_id rp = gid)) as [Hgid|Hne].
  - destruct (Hk rp eq_refl Hgid) as [Hik Hjk].
    rewrite Hgid.
    destruct (slots_unseen_get_group d now Hinv) as [H1 H2].
    destruct (missing_slots_two
                (FEC.g_data (FEC.get_group d gid now)) (FEC.rp_k rp) i j)
      as (a & b & l & ->); try done; try lia.
    destruct (bool_decide (FEC.rp_r rp = 1)); simpl;
      (split; [by apply slots_unseen_put_same|done]).
  - split; [|simpl; congruence].
    repeat case_match; simpl; try done;
      by apply slots_unseen_put_other.
Qed.

(** C2.  Let [i] and [j] be two distinct data slots of the group [gid] that
    never reach the decoder: it has recorded neither at the start, and no
    [AddPacket] for the group carries either.  Then, over every sequence of
    decoder calls in which the redundancy packets of the group cover both
    slots, every [AddRedundancyPacket] for the group returns
    [recovered = false] and an empty list. *)
Theorem two_losses_never_recovered (d0 : FEC.FECDecoder) (ops : list FEC.Op) :
  FEC.slots_unseen gid i j d0 →
  (∀ now payload pid,
     FEC.OpAddPacket now payload pid gid ∈ ops → pid ≠ i ∧ pid ≠ j) →
  (∀ now buf rp,
     FEC.OpAddRedundancyPacket now buf ∈ ops →
     FEC.parse_redundancy buf = Some rp → FEC.rp_group_id rp = gid →
     i < FEC.rp_k rp ∧ j < FEC.rp_k rp) →
  ∀ buf res,
    (buf, res) ∈ (FEC.run_ops retention d0 ops).2 →
    FEC.parity_group buf = Some gid →
    res = (false, []).
Proof using Hi Hj Hij.
  revert d0. induction ops as [|op ops' IH]; intros d0 Hinv Hdata Hpar buf res.
  - simpl. by intros ?%elem_of_nil.
  - destruct op as [now payload pid gid'|now buf'|now]; cbn [FEC.run_ops].
    + apply IH.
      * apply slots_unseen_AddPacket; [|done].
        intros ->. eapply Hdata. left.
      * intros ????. eapply Hdata. by right.
      * intros ????. eapply Hpar. by right.
    + destruct (AddRedundancyPacket_two_missing d0 now buf' Hinv)
        as [Hinv' Hres].
      { intros rp. eapply Hpar. left. }
      destruct (FEC.AddRedundancyPacket now d0 buf') as [d' res'].
      destruct (FEC.run_ops retention d' ops') as [d'' out] eqn:Hrun.
      cbn [snd]. intros [[= -> ->]|Hin]%elem_of_cons Hgrp.
      * by apply Hres.
      * eapply (IH d'); try done.
        -- intros ????. eapply Hdata. by right.
        -- intros ????. eapply Hpar. by right.
        -- by rewrite Hrun.
    + apply IH.
      * by apply slots_unseen_CleanupGroups.
      * intros ????. eapply Hdata. by right.
      * intros ????. eapply Hpar. by right.
Qed.

End two_losses.

(** An instance of C2: a group of four payloads whose slots 1 and 2 are
    lost; the redundancy packet arrives twice, before and after the last
    data packet, and is answered [false] the first time. *)
Lemma two_losses_never_recovered_witness :
  (FEC.AddRedundancyPacket 2
     (FEC.AddPacket 1 FEC.NewFECDecoder [x01; x02] 0 5)
     (FEC.encode_redundancy
        (FEC.ComputeRedundancy 5 [[x01; x02]; [x03]; [x04; x05]; [x06]]))).2
  = (false, []).
Proof.
  apply (two_losses_never_recovered 30 5 1 2 ltac:(lia) ltac:(lia) ltac:(lia)
           FEC.NewFECDecoder
           [FEC.OpAddPacket 1 [x01; x02] 0 5;
            FEC.OpAddRedundancyPacket 2
              (FEC.encode_redundancy
                 (FEC.ComputeRedundancy 5
                    [[x01; x02]; [x03]; [x04; x05]; [x06]]));
            FEC.OpAddPacket 3 [x06] 3 5;
            FEC.OpAddRedundancyPacket 4
              (FEC.encode_redundancy
                 (FEC.ComputeRedundancy 5
                    [[x01; x02]; [x03]; [x04; x05]; [x06]]))]
           ltac:(intros g; simpl; by rewrite lookup_empty)
           ltac:(intros now payload pid Hin;
                 repeat (apply elem_of_cons in Hin as [Heq|Hin];
                         [try discriminate Heq; injection Heq; lia|]);
                 by apply elem_of_nil in Hin)
           ltac:(intros now buf rp Hin;
                 repeat (apply elem_of_cons in Hin as [Heq|Hin];
                         [try discriminate Heq; injection Heq as -> ->;
                          vm_compute; intros [= <-] _; done|]);
                 by apply elem_of_nil in Hin)
           (FEC.encode_redundancy
              (FEC.ComputeRedundancy 5 [[x01; x02]; [x03]; [x04; x05]; [x06]]))).
  - vm_compute. left.
  - vm_compute. reflexivity.
Defined.

(** ** The server: routing of buffers *)

Section server_routing.
Import Server.
Context {D : Type} `{!FECDecoderAPI D}.

Lemma is_repair_packet_spec (data : list byte) :
  is_repair_packet data = true ↔ has_repair_marker data.
Proof.
  unfold is_repair_packet, has_repair_marker.
  rewrite !andb_true_iff, Z.leb_le, !byte_eqb_eq.
  destruct data as [|b0 [|b1 data]]; simpl.
  - split; [lia|]. by intros (_ & [=] & _).
  - split; [lia|]. by intros (_ & _ & [=]).
  - unfold byte_at. simpl.
    intuition congruence.
Qed.

Lemma FECDecoder_count_recovered (m : serverMetrics D) l :
  FECDecoder (count_recovered m l) = FECDecoder m.
Proof.
  revert m. induction l as [|r l IH]; intros m; [done|].
  unfold count_recovered in *. simpl. by rewrite IH.
Qed.

Lemma FECDecoder_handle_buffer now (m : serverMetrics D) st data :
  is_Some (FECDecoder m) →
  is_Some (FECDecoder (handle_buffer now m st data).1.1).
Proof.
  intros [d Hd]. unfold handle_buffer.
  destruct (is_repair_packet data); simpl; rewrite Hd.
  - destruct (AddRedundancyPacket now d data) as [d' [recovered l]].
    simpl. destruct (recovered && _); simpl;
      rewrite ?FECDecoder_count_recovered; by eexists.
  - by eexists.
Qed.

Lemma FECDecoder_handleStream_iter now (m : serverMetrics D) st data err :
  is_Some (FECDecoder m) →
  is_Some (FECDecoder (handleStream_iter now m st data err).1.1).
Proof.
  intros Hd. unfold handleStream_iter.
  pose proof (FECDecoder_handle_buffer now m st data Hd) as Hb.
  destruct (0 <? Z.of_nat (length data));
    [destruct (handle_buffer now m st data) as [[m1 st1] calls]|];
    destruct err as [e|]; simpl in *; try done;
    by destruct (bool_decide (e ≠ "EOF"%string)).
Qed.

Lemma FECDecoder_server_step (s : ServerState D) e :
  is_Some (FECDecoder (metrics s)) →
  is_Some (FECDecoder (metrics (server_step s e).1)).
Proof.
  intros Hd. destruct e as [ok|cid ok|sid now data err|now]; simpl.
  - destruct (listening s), ok; done.
  - destruct (conns s !! cid) as [[]|]; [destruct ok| |]; done.
  - destruct (streams s !! sid) as [[st|]|]; try done.
    pose proof (FECDecoder_handleStream_iter now (metrics s) st data err Hd).
    by destruct (handleStream_iter now (metrics s) st data err)
      as [[m' st'] calls].
  - destruct Hd as [d Hd]. rewrite Hd. simpl. by eexists.
Qed.

(** The decoder installed by [Run] is never removed. *)
Lemma FECDecoder_server_run (s : ServerState D) evs :
  is_Some (FECDecoder (metrics s)) →
  is_Some (FECDecoder (metrics (server_run s evs).1)).
Proof.
  revert s. induction evs as [|e evs IH]; intros s Hd; [done|].
  simpl. pose proof (FECDecoder_server_step s e Hd) as Hd'.
  destruct (server_step s e) as [s1 log1].
  specialize (IH s1 Hd').
  by destruct (server_run s1 evs) as [s2 log2].
Qed.

(** C3.  In every state that the server reaches from [Run], a non-empty
    buffer read on a live stream is handed to [AddRedundancyPacket] if and
    only if it is at least 11 bytes long and starts with [0xFE 0xC0];
    every other non-empty buffer is counted in [Bytes] and handed to
    [AddPacket] with the identifiers of the stream. *)
Theorem buffer_routing (now0 : Z) (evs : list Event) (sid : nat)
    (st : streamLocals) (now : Z) (data : list byte) (err : option string) :
  let s := (server_run (Run_init now0) evs).1 in
  let out := server_step s (EvRead sid now data err) in
  streams s !! sid = Some (Some st) →
  data ≠ [] →
  ∃ d, FECDecoder (metrics s) = Some d
  ∧ (out.2 = [(sid, CallAddRedundancyPacket data)] ↔ has_repair_marker data)
  ∧ (has_repair_marker data →
       FECDecoder (metrics out.1)
       = Some (AddRedundancyPacket now d data).1)
  ∧ (¬ has_repair_marker data →
       out.2 = [(sid, CallAddPacket data (packetID st) (groupID st))]
       ∧ FECDecoder (metrics out.1)
         = Some (AddPacket now d data (packetID st) (groupID st))
       ∧ Bytes (metrics out.1)
         = wrap_i64 (Bytes (metrics s) + Z.of_nat (length data))).
Proof.
  intros s out Hst Hdata.
  destruct (FECDecoder_server_run (Run_init now0) evs) as [d Hd];
    [by eexists|].
  fold s in Hd. exists d. split; [done|].
  assert ((0 <? Z.of_nat (length data)) = true) as Hn.
  { apply Z.ltb_lt. destruct data; [done|simpl; lia]. }
  subst out. unfold server_step. rewrite Hst.
  unfold handleStream_iter. rewrite Hn. unfold handle_buffer.
  rewrite <- is_repair_packet_spec.
  destruct (is_repair_packet data) eqn:Hrep.
  - rewrite Hd.
    destruct (AddRedundancyPacket now d data) as [d' [recovered l]].
    repeat split; try done.
    + by destruct err.
    + intros _. destruct err as [e|]; simpl;
        [destruct (bool_decide (e ≠ "EOF"%string))|];
        destruct (recovered && _); simpl;
        by rewrite ?FECDecoder_count_recovered.
  - simpl. rewrite Hd.
    repeat split; try done.
    + destruct err; simpl; intros [=].
    + by destruct err.
    + destruct err as [e|]; simpl;
        [by destruct (bool_decide (e ≠ "EOF"%string))|done].
    + destruct err as [e|]; simpl;
        [by destruct (bool_decide (e ≠ "EOF"%string))|done].
Qed.

End server_routing.

(** An instance of C3: the first buffer of the first stream, 13 bytes
    starting with the marker. *)
Lemma buffer_routing_witness :
  let s := (@Server.server_run _ (Server.spec_decoder 30)
              (@Server.Run_init _ (Server.spec_decoder 30) 0)
              Server.example_events).1 in
  let out := @Server.server_step _ (Server.spec_decoder 30) s
               (Server.EvRead 0 1 Server.example_repair None) in
  ∃ d, Server.FECDecoder (Server.metrics s) = Some d
  ∧ (out.2 = [(0%nat, Server.CallAddRedundancyPacket Server.example_repair)]
     ↔ Server.has_repair_marker Server.example_repair)
  ∧ (Server.has_repair_marker Server.example_repair →
       Server.FECDecoder (Server.metrics out.1)
       = Some (FEC.AddRedundancyPacket 1 d Server.example_repair).1)
  ∧ (¬ Server.has_repair_marker Server.example_repair →
       out.2 = [(0%nat, Server.CallAddPacket Server.example_repair 0 0)]
       ∧ Server.FECDecoder (Server.metrics out.1)
         = Some (FEC.AddPacket 1 d Server.example_repair 0 0)
       ∧ Server.Bytes (Server.metrics out.1)
         = wrap_i64 (Server.Bytes (Server.metrics s) + 13)).
Proof.
  apply (@buffer_routing _ (Server.spec_decoder 30) 0 Server.example_events
           0 (Server.mkStreamLocals 0 0) 1 Server.example_repair None);
    [reflexivity | discriminate].
Defined.

(** ** The server: counters *)

Section server_counters.
Import Server.
Context {D : Type} `{!FECDecoderAPI D}.

Lemma recovered_bytes_nonneg l : 0 ≤ recovered_bytes l.
Proof. induction l as [|r l IH]; simpl; lia. Qed.

Lemma count_recovered_spec (m : serverMetrics D) l :
  0 ≤ Bytes m → Bytes m + recovered_bytes l ≤ max_i64 →
  count_recovered m l
  = mkServerMetrics (Connections m) (Streams m)
      (Bytes m + recovered_bytes l) (Errors m) (Start m) (FECDecoder m).
Proof.
  revert m. induction l as [|r l IH]; intros m H0 Hmax.
  - simpl. destruct m; simpl. f_equal. lia.
  - change (count_recovered m (r :: l))
      with (count_recovered (add_Bytes m (Z.of_nat (length (FEC.Data r)))) l).
    change (recovered_bytes (r :: l))
      with (Z.of_nat (length (FEC.Data r)) + recovered_bytes l) in *.
    pose proof (recovered_bytes_nonneg l) as Hl.
    assert (wrap_i64 (Bytes m + Z.of_nat (length (FEC.Data r)))
            = Bytes m + Z.of_nat (length (FEC.Data r))) as Hw.
    { apply wrap_i64_small. unfold max_i64 in *. lia. }
    rewrite IH; unfold add_Bytes;
      cbn [Connections Streams Bytes Errors Start FECDecoder];
      rewrite ?Hw; [f_equal; lia|lia..].
Qed.

Section step.
Hypothesis Hrec : recovers_at_most_input.
Context (B : Z) (HB : B + 4096 ≤ max_i64).

Lemma handle_buffer_step now (m : serverMetrics D) st data :
  Z.of_nat (length data) ≤ 4096 →
  counters_within B m →
  let m' := (handle_buffer now m st data).1.1 in
  Connections m' = Connections m ∧ Streams m' = Streams m
  ∧ Errors m' = Errors m ∧ Bytes m ≤ Bytes m' ≤ Bytes m + 4096.
Proof using Hrec HB.
  intros Hlen (HC & HS & HBy & HE). unfold handle_buffer.
  destruct (is_repair_packet data).
  - destruct (FECDecoder m) as [d|]; [|simpl; lia].
    pose proof (Hrec now d data) as Hr.
    destruct (AddRedundancyPacket now d data) as [d' [recovered l]].
    cbn [snd] in Hr. pose proof (recovered_bytes_nonneg l).
    destruct (recovered && _); cbn [fst];
      [rewrite count_recovered_spec by (simpl; lia)|]; simpl; lia.
  - cbn [add_Bytes FECDecoder].
    destruct (FECDecoder m); cbn [fst set_decoder add_Bytes Connections
      Streams Errors Bytes];
      rewrite wrap_i64_small by (unfold max_i64 in *; lia); lia.
Qed.

Lemma handleStream_iter_step now (m : serverMetrics D) st data err :
  Z.of_nat (length data) ≤ 4096 →
  counters_within B m →
  counters_step m (handleStream_iter now m st data err).1.1.
Proof using Hrec HB.
  intros Hlen Hm.
  pose proof (handle_buffer_step now m st data Hlen Hm) as Hb.
  destruct Hm as (HC & HS & HBy & HE).
  unfold handleStream_iter, counters_step.
  destruct (0 <? Z.of_nat (length data)).
  - destruct (handle_buffer now m st data) as [[m1 st1] calls].
    cbn [fst] in Hb. destruct Hb as (H1 & H2 & H3 & H4).
    destruct err as [e|]; cbn [fst];
      [destruct (bool_decide (e ≠ "EOF"%string))|];
      cbn [inc_Errors Connections Streams Bytes Errors];
      rewrite ?wrap_i64_small by (unfold max_i64 in *; lia); lia.
  - destruct err as [e|]; cbn [fst];
      [destruct (bool_decide (e ≠ "EOF"%string))|];
      cbn [inc_Errors Connections Streams Bytes Errors];
      rewrite ?wrap_i64_small by (unfold max_i64 in *; lia); lia.
Qed.

Lemma server_step_step (s : ServerState D) e :
  read_fits e →
  counters_within B (metrics s) →
  counters_step (metrics s) (metrics (server_step s e).1).
Proof using Hrec HB.
  intros He Hm. pose proof Hm as (HC & HS & HBy & HE).
  destruct e as [ok|cid ok|sid now data err|now]; cbn [server_step].
  - destruct (listening s), ok; unfold counters_step;
      cbn [fst metrics inc_Connections inc_Errors Connections Streams
           Bytes Errors];
      rewrite ?wrap_i64_small by (unfold max_i64 in *; lia); lia.
  - destruct (conns s !! cid) as [[]|]; [destruct ok| |];
      unfold counters_step;
      cbn [fst metrics inc_Streams inc_Errors Connections Streams
           Bytes Errors];
      rewrite ?wrap_i64_small by (unfold max_i64 in *; lia); lia.
  - destruct (streams s !! sid) as [[st|]|];
      [|unfold counters_step; simpl; lia..].
    pose proof (handleStream_iter_step now (metrics s) st data err He Hm).
    by destruct (handleStream_iter now (metrics s) st data err)
      as [[m' st'] calls].
  - destruct (FECDecoder (metrics s)); unfold counters_step; simpl; lia.
Qed.

End step.

Lemma counters_step_within B (m m' : serverMetrics D) :
  counters_within B m → counters_step m m' →
  counters_le m m' ∧ counters_within (B + 4096) m'.
Proof.
  unfold counters_within, counters_step, counters_le. lia.
Qed.

Lemma server_run_counters (s : ServerState D) evs B :
  recovers_at_most_input →
  Forall read_fits evs →
  counters_within B (metrics s) →
  B + 4096 * Z.of_nat (length evs) ≤ max_i64 →
  counters_le (metrics s) (metrics (server_run s evs).1)
  ∧ counters_within (B + 4096 * Z.of_nat (length evs))
      (metrics (server_run s evs).1).
Proof.
  intros Hrec Hfit. revert s B.
  induction Hfit as [|e evs He _ IH]; intros s B Hm HB.
  - cbn [server_run fst length].
    replace (B + 4096 * Z.of_nat 0) with B by lia.
    split; [unfold counters_le; lia|done].
  - cbn [server_run length] in *.
    assert (B + 4096 ≤ max_i64) as HB1 by lia.
    pose proof (server_step_step Hrec B HB1 s e He Hm) as Hstep.
    destruct (counters_step_within B _ _ Hm Hstep) as [Hle Hin].
    destruct (server_step s e) as [s1 log1]. cbn [fst] in *.
    destruct (IH s1 (B + 4096) Hin) as [Hle' Hin']; [lia|].
    destruct (server_run s1 evs) as [s2 log2]. cbn [fst] in *.
    split.
    + unfold counters_le in *. lia.
    + replace (B + 4096 * Z.of_nat (S (length evs)))
        with (B + 4096 + 4096 * Z.of_nat (length evs)) by lia. done.
Qed.

Lemma server_run_app (s : ServerState D) evs1 evs2 :
  server_run s (evs1 ++ evs2)
  = ((server_run (server_run s evs1).1 evs2).1,
     (server_run s evs1).2 ++ (server_run (server_run s evs1).1 evs2).2).
Proof.
  revert s. induction evs1 as [|e evs1 IH]; intros s.
  - simpl. by destruct (server_run s evs2).
  - cbn [app server_run]. destruct (server_step s e) as [s1 log1].
    rewrite IH. destruct (server_run s1 evs1) as [s2 log2]. simpl.
    by rewrite app_assoc.
Qed.

(** C8.  Over every sequence of accept, stream, read and tick events of
    the server started by [Run], as long as the sequence is short enough
    for the 64-bit counters not to wrap (4096 times its length is at most
    2^63 - 1) and the decoder returns no more bytes than it is given, no
    counter is smaller after the whole sequence than after any of its
    prefixes. *)
Theorem counters_monotonic (now0 : Z) (evs evs1 evs2 : list Event) :
  recovers_at_most_input →
  Forall read_fits evs →
  4096 * Z.of_nat (length evs) ≤ max_i64 →
  evs = evs1 ++ evs2 →
  counters_le (metrics (server_run (Run_init now0) evs1).1)
              (metrics (server_run (Run_init now0) evs).1).
Proof.
  intros Hrec Hfit Hlen ->.
  apply Forall_app in Hfit as [Hfit1 Hfit2].
  rewrite length_app in Hlen.
  destruct (server_run_counters (Run_init now0) evs1 0 Hrec Hfit1)
    as [_ Hin1]; [unfold counters_within; simpl; lia|lia|].
  rewrite server_run_app. cbn [fst].
  eapply server_run_counters; [done..|lia].
Qed.

End server_counters.

Lemma parse_redundancy_parity_length buf rp :
  FEC.parse_redundancy buf = Some rp →
  (length (FEC.rp_parity_payload rp) ≤ length buf)%nat.
Proof.
  unfold FEC.parse_redundancy.
  destruct buf as [|m0 [|m1 rest]]; try done.
  destruct (byte_eqb m0 xfe && byte_eqb m1 xc0); [|done].
  destruct (drop 8 rest) as [|pi [|k [|r rest']]] eqn:Hdrop; try done.
  case_match; [|done]. intros [= <-]. simpl.
  rewrite length_drop.
  assert (length (drop 8 rest) = S (S (S (length rest')))) as Hlen
    by by rewrite Hdrop.
  rewrite length_drop in Hlen. lia.
Qed.

(** The decoder written from the spec returns at most one packet, cut out
    of the parity payload of the buffer. *)
Lemma spec_decoder_recovers_at_most_input retention :
  @Server.recovers_at_most_input _ (Server.spec_decoder retention).
Proof.
  intros now d buf. cbn [Server.AddRedundancyPacket Server.spec_decoder].
  unfold FEC.AddRedundancyPacket.
  destruct (FEC.parse_redundancy buf) as [rp|] eqn:Hparse; [|simpl; lia].
  apply parse_redundancy_parity_length in Hparse.
  repeat case_match; simpl; try lia.
  unfold FEC.reconstruct. rewrite length_take.
  match goal with H : bool_decide _ = true |- _ =>
    apply bool_decide_eq_true_1 in H end.
  lia.
Qed.

(** An instance of C8: the counters after the first two events of a run
    and after the whole run. *)
Lemma counters_monotonic_witness :
  Server.counters_le
    (Server.metrics
       (@Server.server_run _ (Server.spec_decoder 30)
          (@Server.Run_init _ (Server.spec_decoder 30) 0)
          Server.example_events).1)
    (Server.metrics
       (@Server.server_run _ (Server.spec_decoder 30)
          (@Server.Run_init _ (Server.spec_decoder 30) 0)
          Server.example_run).1).
Proof.
  apply (@counters_monotonic _ (Server.spec_decoder 30) 0
           Server.example_run Server.example_events
           [Server.EvRead 0 1 [x01; x02] None;
            Server.EvRead 0 2 [] (Some "reset"%string)]).
  - apply spec_decoder_recovers_at_most_input.
  - repeat constructor; simpl; lia.
  - vm_compute. discriminate.
  - reflexivity.
Defined.

(** ** The server: identifiers of data packets *)

Section server_identifiers.
Import Server.
Context {D : Type} `{!FECDecoderAPI D}.

Lemma advance_numbered (c : Z) (st : streamLocals) :
  0 ≤ c →
  packetID st = c `mod` 10 →
  groupID st = (c `div` 10) `mod` 2 ^ 64 →
  packetID (advance st) = (c + 1) `mod` 10
  ∧ groupID (advance st) = ((c + 1) `div` 10) `mod` 2 ^ 64.
Proof.
  intros Hc Hp Hg. unfold advance.
  assert (0 ≤ c `mod` 10 < 10) as Hm by (apply Z.mod_pos_bound; lia).
  rewrite wrap_u64_small by lia.
  destruct (Z.leb_spec 10 (packetID st + 1)) as [Hge|Hlt]; simpl.
  - assert ((c + 1) `div` 10 = c `div` 10 + 1) as ->
      by (Z.div_mod_to_equations; lia).
    split; [Z.div_mod_to_equations; lia|].
    unfold wrap_u64. rewrite Hg. apply Zplus_mod_idemp_l.
  - assert ((c + 1) `div` 10 = c `div` 10) as ->
      by (Z.div_mod_to_equations; lia).
    split; [Z.div_mod_to_equations; lia|done].
Qed.

Lemma add_packet_calls_app sid (l1 l2 : list (nat * DecoderCall)) :
  add_packet_calls sid (l1 ++ l2)
  = add_packet_calls sid l1 ++ add_packet_calls sid l2.
Proof. apply omap_app. Qed.

Lemma add_packet_calls_other sid sid' (calls : list DecoderCall) :
  sid' ≠ sid → add_packet_calls sid ((λ c, (sid', c)) <$> calls) = [].
Proof.
  intros Hne. induction calls as [|c calls IH]; [done|].
  unfold add_packet_calls in *. cbn [fmap list_fmap omap list_omap].
  rewrite IH. destruct c; [done|]. by rewrite bool_decide_eq_false_2.
Qed.

(** What one iteration of [handleStream] calls and leaves in the locals:
    either no [AddPacket] and the locals as they were, or one [AddPacket]
    of the whole buffer under the current locals, which then advance. *)
Lemma handleStream_iter_calls now (m : serverMetrics D) st data err :
  ((handleStream_iter now m st data err).2 = []
   ∨ (handleStream_iter now m st data err).2 = [CallAddRedundancyPacket data])
  ∧ ((handleStream_iter now m st data err).1.2 = None
     ∨ (handleStream_iter now m st data err).1.2 = Some st)
  ∨ (handleStream_iter now m st data err).2
    = [CallAddPacket data (packetID st) (groupID st)]
    ∧ ((handleStream_iter now m st data err).1.2 = None
       ∨ (handleStream_iter now m st data err).1.2 = Some (advance st)).
Proof.
  unfold handleStream_iter, handle_buffer.
  destruct (0 <? Z.of_nat (length data));
    [destruct (is_repair_packet data)|].
  - destruct (FECDecoder m) as [d|];
      [destruct (AddRedundancyPacket now d data) as [d' [recovered l]]|];
      destruct err; simpl; auto.
  - cbn [add_Bytes FECDecoder].
    destruct (FECDecoder m); destruct err; simpl; auto.
  - destruct err; simpl; auto.
Qed.

Lemma stream_numbered_unchanged sid (s s' : ServerState D) log :
  streams s' !! sid = streams s !! sid →
  stream_numbered sid s log → stream_numbered sid s' (log ++ []).
Proof.
  intros Heq. unfold stream_numbered. by rewrite app_nil_r, Heq.
Qed.

Lemma stream_numbered_step sid (s : ServerState D) log e :
  stream_numbered sid s log →
  stream_numbered sid (server_step s e).1 (log ++ (server_step s e).2).
Proof.
  intros Hinv.
  destruct e as [ok|cid ok|sid' now data err|now]; cbn [server_step].
  - destruct (listening s), ok; by apply (stream_numbered_unchanged sid s).
  - destruct (conns s !! cid) as [[]|]; [destruct ok| |];
      try by apply (stream_numbered_unchanged sid s).
    cbn [fst snd]. destruct Hinv as [Hcalls Hst].
    unfold stream_numbered. rewrite app_nil_r. split; [done|].
    cbn [streams].
    destruct (decide (sid < length (streams s))%nat) as [Hlt|Hge].
    + by rewrite lookup_app_l.
    + rewrite (lookup_ge_None_2 (streams s) sid) in Hst by lia.
      rewrite Hst. rewrite lookup_app_r by lia.
      destruct (sid - length (streams s))%nat as [|n]; simpl; done.
  - destruct (streams s !! sid') as [[st|]|] eqn:Hlook;
      try by apply (stream_numbered_unchanged sid s).
    pose proof (handleStream_iter_calls now (metrics s) st data err) as Hit.
    destruct (handleStream_iter now (metrics s) st data err)
      as [[m' st'] calls].
    cbn [fst snd streams] in *.
    destruct (decide (sid' = sid)) as [->|Hne].
    + destruct Hinv as [Hcalls Hst]. rewrite Hlook in Hst.
      pose proof (lookup_lt_Some _ _ _ Hlook) as Hlt.
      unfold stream_numbered. rewrite add_packet_calls_app.
      cbn [streams]. rewrite list_lookup_insert_eq by done.
      destruct Hit as [[Hc Hl]|[Hc Hl]].
      * assert (add_packet_calls sid ((λ c, (sid, c)) <$> calls) = [])
          as -> by by destruct Hc as [-> | ->].
        rewrite app_nil_r. split; [done|].
        by destruct Hl as [-> | ->].
      * assert (add_packet_calls sid ((λ c, (sid, c)) <$> calls)
                = [(data, packetID st, groupID st)]) as ->.
        { rewrite Hc. unfold add_packet_calls. simpl.
          by rewrite bool_decide_eq_true_2. }
        destruct Hst as [Hp Hg]. split.
        -- intros b p pid gid Hb.
           apply lookup_app_Some in Hb as [Hb|[Hge Hb]]; [by eapply Hcalls|].
           apply list_lookup_singleton_Some in Hb as [Hb [= <- <- <-]].
           assert (b = length (add_packet_calls sid log)) as -> by lia.
           done.
        -- destruct Hl as [-> | ->]; [done|].
           rewrite length_app. cbn [length].
           replace (Z.of_nat (length (add_packet_calls sid log) + 1))
             with (Z.of_nat (length (add_packet_calls sid log)) + 1) by lia.
           apply advance_numbered; [lia|done..].
    + unfold stream_numbered. rewrite add_packet_calls_app.
      rewrite add_packet_calls_other by done. rewrite app_nil_r.
      cbn [streams]. by rewrite list_lookup_insert_ne.
  - destruct (FECDecoder (metrics s)); by apply (stream_numbered_unchanged sid s).
Qed.

Lemma stream_numbered_run sid (s : ServerState D) log evs :
  stream_numbered sid s log →
  stream_numbered sid (server_run s evs).1 (log ++ (server_run s evs).2).
Proof.
  revert s log. induction evs as [|e evs IH]; intros s log Hinv.
  - simpl. by rewrite app_nil_r.
  - cbn [server_run].
    pose proof (stream_numbered_step sid s log e Hinv) as Hstep.
    destruct (server_step s e) as [s1 log1]. cbn [fst snd] in Hstep.
    specialize (IH s1 (log ++ log1) Hstep).
    destruct (server_run s1 evs) as [s2 log2]. cbn [fst snd] in *.
    by rewrite app_assoc.
Qed.

(** In a run of the server started by [Run], the [b]-th [AddPacket] of a
    stream carries the packet identifier [b mod 10] and the group
    identifier [b / 10], reduced modulo 2^64. *)
Lemma calls_numbered now0 evs sid (b : nat) p pid gid :
  add_packet_calls sid (server_run (Run_init now0) evs).2 !! b
    = Some (p, pid, gid) →
  pid = Z.of_nat b `mod` 10 ∧ gid = (Z.of_nat b `div` 10) `mod` 2 ^ 64.
Proof.
  intros Hb.
  assert (stream_numbered sid (Run_init now0) []) as Hinit.
  { split; [by intros ???? [=]|done]. }
  destruct (stream_numbered_run sid _ _ evs Hinit) as [Hcalls _].
  by eapply Hcalls.
Qed.

Lemma server_step_payload (s : ServerState D) e sid p pid gid :
  (sid, CallAddPacket p pid gid) ∈ (server_step s e).2 →
  ∃ now err, e = EvRead sid now p err.
Proof.
  destruct e as [ok|cid ok|sid' now data err|now]; cbn [server_step].
  - destruct (listening s), ok; by intros ?%elem_of_nil.
  - destruct (conns s !! cid) as [[]|]; [destruct ok| |];
      by intros ?%elem_of_nil.
  - destruct (streams s !! sid') as [[st|]|]; try by intros ?%elem_of_nil.
    pose proof (handleStream_iter_calls now (metrics s) st data err) as Hit.
    destruct (handleStream_iter now (metrics s) st data err)
      as [[m' st'] calls].
    cbn [fst snd] in *.
    intros (c & [= -> <-] & Hc)%list_elem_of_fmap.
    destruct Hit as [[[-> | ->] _]|[-> _]].
    + by apply elem_of_nil in Hc.
    + by apply list_elem_of_singleton in Hc.
    + apply list_elem_of_singleton in Hc as [= -> -> ->]. eauto.
  - destruct (FECDecoder (metrics s)); by intros ?%elem_of_nil.
Qed.

(** The payload of every [AddPacket] is a whole buffer read on the
    stream. *)
Lemma server_run_payload (s : ServerState D) evs sid p pid gid :
  (sid, CallAddPacket p pid gid) ∈ (server_run s evs).2 →
  ∃ now err, EvRead sid now p err ∈ evs.
Proof.
  revert s. induction evs as [|e evs IH]; intros s.
  - simpl. by intros ?%elem_of_nil.
  - cbn [server_run].
    pose proof (server_step_payload s e sid p pid gid) as Hstep.
    destruct (server_step s e) as [s1 log1].
    specialize (IH s1). destruct (server_run s1 evs) as [s2 log2].
    cbn [fst snd] in *.
    intros [Hin|Hin]%elem_of_app.
    + destruct (Hstep Hin) as (now & err & ->). exists now, err. left.
    + destruct (IH Hin) as (now & err & Hev). exists now, err. by right.
Qed.

Lemma add_packet_calls_elem sid (log : list (nat * DecoderCall)) p pid gid :
  (p, pid, gid) ∈ add_packet_calls sid log →
  (sid, CallAddPacket p pid gid) ∈ log.
Proof.
  unfold add_packet_calls.
  intros ([i c] & Hin & Hc)%list_elem_of_omap.
  destruct c as [|p' pid' gid']; [done|].
  case_bool_decide; [|done]. by simplify_eq.
Qed.

End server_identifiers.

Section server_identifier_theorems.
Import Server.
Context {D : Type} `{!FECDecoderAPI D}.

(** C9.  In every run of the server started by [Run], among the
    [AddPacket] calls of one stream, numbered from 0 in the order in which
    they are made, a later call never carries a smaller group identifier
    than an earlier one, and the [b]-th call carries the packet identifier
    [b mod 10], which lies in 0..9, and the group identifier [b / 10]: the
    packet identifier returns to 0 and the group identifier grows by one
    after every ten data packets.  The stream is assumed to carry fewer
    than [10 * 2^64] data packets, so that the 64-bit group identifier does
    not wrap. *)
Theorem group_id_monotonic (now0 : Z) (evs : list Event) (sid a b : nat)
    (pa pb : list byte) (pida gida pidb gidb : Z) :
  add_packet_calls sid (server_run (Run_init now0) evs).2 !! a
    = Some (pa, pida, gida) →
  add_packet_calls sid (server_run (Run_init now0) evs).2 !! b
    = Some (pb, pidb, gidb) →
  (a ≤ b)%nat →
  Z.of_nat b < 10 * 2 ^ 64 →
  gida ≤ gidb
  ∧ 0 ≤ pidb ≤ 9
  ∧ pidb = Z.of_nat b `mod` 10
  ∧ gidb = Z.of_nat b `div` 10.
Proof.
  intros Ha Hb Hab Hbound.
  apply calls_numbered in Ha as [_ ->], Hb as [-> ->].
  assert (0 ≤ Z.of_nat a `div` 10 ≤ Z.of_nat b `div` 10) as Hdiv.
  { split; [apply Z.div_pos; lia|apply Z.div_le_mono; lia]. }
  assert (Z.of_nat b `div` 10 < 2 ^ 64) as Hlt.
  { apply Z.div_lt_upper_bound; lia. }
  rewrite !Z.mod_small by lia.
  pose proof (Z.mod_pos_bound (Z.of_nat b) 10). lia.
Qed.

(** C4, as the code has it.  In every run of the server started by [Run],
    the [b]-th [AddPacket] call of a stream records a whole buffer read on
    that stream, framing bytes included, under the packet identifier
    [b mod 10] and the group identifier [b / 10] modulo 2^64: the
    identifiers come from the order of arrival with a fixed group size of
    10, not from the content of the buffer. *)
Theorem arrival_order_identifiers (now0 : Z) (evs : list Event)
    (sid b : nat) (p : list byte) (pid gid : Z) :
  add_packet_calls sid (server_run (Run_init now0) evs).2 !! b
    = Some (p, pid, gid) →
  pid = Z.of_nat b `mod` 10
  ∧ gid = (Z.of_nat b `div` 10) `mod` 2 ^ 64
  ∧ ∃ now err, EvRead sid now p err ∈ evs.
Proof.
  intros Hb. destruct (calls_numbered _ _ _ _ _ _ _ Hb) as [Hp Hg].
  repeat split; try done.
  eapply server_run_payload, add_packet_calls_elem.
  eapply list_elem_of_lookup_2, Hb.
Qed.

End server_identifier_theorems.

(** An instance of C9: the tenth and the eleventh data packet of a
    stream. *)
Lemma group_id_monotonic_witness :
  Server.add_packet_calls 0
    (@Server.server_run _ (Server.spec_decoder 30)
       (@Server.Run_init _ (Server.spec_decoder 30) 0)
       Server.example_eleven).2 !! 9%nat = Some ([x2a], 9, 0)
  ∧ Server.add_packet_calls 0
      (@Server.server_run _ (Server.spec_decoder 30)
         (@Server.Run_init _ (Server.spec_decoder 30) 0)
         Server.example_eleven).2 !! 10%nat = Some ([x2a], 0, 1)
  ∧ (0 ≤ 1 ∧ 0 ≤ 0 ≤ 9 ∧ 0 = Z.of_nat 10 `mod` 10
     ∧ 1 = Z.of_nat 10 `div` 10).
Proof.
  split; [reflexivity|]. split; [reflexivity|].
  apply (@group_id_monotonic _ (Server.spec_decoder 30) 0
           Server.example_eleven 0 9 10 [x2a] [x2a] 9 0 0 1).
  - reflexivity.
  - reflexivity.
  - lia.
  - lia.
Defined.

(** An instance of the amended C4: the framed data packet is recorded
    whole under the identifiers (0, 0). *)
Lemma arrival_order_identifiers_witness :
  Server.add_packet_calls 0
    (@Server.server_run _ (Server.spec_decoder 30)
       (@Server.Run_init _ (Server.spec_decoder 30) 0)
       Server.example_framed_run).2 !! 0%nat
  = Some (Server.example_framed, 0, 0)
  ∧ (0 = Z.of_nat 0 `mod` 10
     ∧ 0 = (Z.of_nat 0 `div` 10) `mod` 2 ^ 64
     ∧ ∃ now err,
         Server.EvRead 0 now Server.example_framed err
         ∈ Server.example_framed_run).
Proof.
  split; [reflexivity|].
  apply (@arrival_order_identifiers _ (Server.spec_decoder 30) 0
           Server.example_framed_run 0 0 Server.example_framed 0 0).
  reflexivity.
Defined.

(** C4 as the specification states it fails: the first data packet of a
    stream, framed with group identifier [0x0101010101010101] and packet
    index [0x0101], is recorded under group 0 and packet 0. *)
Lemma recorded_under_framing_counterexample :
  ¬ Server.recorded_under_framing
      (@Server.server_run _ (Server.spec_decoder 30)
         (@Server.Run_init _ (Server.spec_decoder 30) 0)
         Server.example_framed_run).2.
Proof.
  intros Hclaim.
  destruct (Hclaim 0%nat Server.example_framed 0 0
              {| FEC.dp_group_id := 72340172838076673;
                 FEC.dp_packet_index := 257;
                 FEC.dp_payload := [x2a] |}) as [Hgid _].
  - vm_compute. left.
  - reflexivity.
  - discriminate Hgid.
Qed.

(** ** The congestion-control phase machine *)

Section congestion_facts.
Import Congestion.

Lemma transition_not_to_startup p q : transition p q → q ≠ Startup.
Proof. by destruct 1. Qed.

Lemma rtc_transition_not_startup p q :
  rtc transition p q → p ≠ Startup → q ≠ Startup.
Proof.
  induction 1 as [p|p r q Hstep _ IH]; [done|].
  intros _. by apply IH, (transition_not_to_startup p).
Qed.

Lemma tc_transition_not_startup p q : tc transition p q → q ≠ Startup.
Proof.
  induction 1 as [p q Hstep|p r q Hstep _ IH]; [|done].
  by apply (transition_not_to_startup p).
Qed.

(** The executable table takes only steps of the relation, or stays. *)
Lemma next_phase_transition p s :
  next_phase p s = p ∨ transition p (next_phase p s).
Proof. destruct p, s; simpl; auto using transition. Qed.

(** C6.  From every phase reached after at least one transition out of
    [Startup], no sequence of transitions leads back to [Startup]. *)
Theorem startup_never_reentered (p q : Phase) :
  tc transition Startup p → rtc transition p q → q ≠ Startup.
Proof.
  intros Hleft Hrun. apply (rtc_transition_not_startup p q Hrun).
  by apply (tc_transition_not_startup Startup).
Qed.

(** An instance of C6: after [Startup → Drain → ProbeBW], the probe of the
    minimum RTT does not lead to [Startup]. *)
Lemma startup_never_reentered_witness :
  tc transition Startup ProbeBW
  ∧ rtc transition ProbeBW ProbeRTT
  ∧ ProbeRTT ≠ Startup.
Proof.
  assert (tc transition Startup ProbeBW) as Hleft.
  { eapply tc_l; [apply t_startup_drain|].
    apply tc_once, t_drain_probe_bw. }
  assert (rtc transition ProbeBW ProbeRTT) as Hrun.
  { eapply rtc_l; [apply t_probe_bw_probe_rtt|]. apply rtc_refl. }
  split; [exact Hleft|]. split; [exact Hrun|].
  exact (startup_never_reentered ProbeBW ProbeRTT Hleft Hrun).
Defined.

(** The same for the executable table: once a sequence of signals has
    taken the controller out of [Startup], no further signals bring it
    back. *)
Lemma run_phases_never_reenters p ss :
  p ≠ Startup → run_phases p ss ≠ Startup.
Proof.
  revert p. induction ss as [|s ss IH]; intros p Hp; [done|].
  simpl. apply IH.
  destruct (next_phase_transition p s) as [->|Hstep]; [done|].
  by apply (transition_not_to_startup p).
Qed.

End congestion_facts.

(** ** The test manager *)

Section gui_facts.
Import Gui.

(** The three ways [StopTest] can go, with what it returns. *)
Lemma StopTest_cases (tm : TestManager) (testID : string)
    (now logged : Z) :
  match activeTests tm !! testID with
  | None =>
      StopTest tm testID now logged
      = (tm, Some ("test not found: " ++ testID)%string)
  | Some s =>
      (Status s ≠ "running"%string ∧
       StopTest tm testID now logged
       = (tm, Some ("test is not running: " ++ testID)%string))
      ∨ (Status s = "running"%string ∧
         StopTest tm testID now logged
         = ({| activeTests :=
                 <[testID := stop_session now logged s]> (activeTests tm) |},
            None))
  end.
Proof.
  unfold StopTest.
  destruct (activeTests tm !! testID) as [s|] eqn:Hs; [|done].
  case_bool_decide as Hrun; [by left|by right].
Qed.

(** C10.  [StopTest] returns an error and leaves the manager, hence every
    session's status, end time and logs, unchanged when the identifier
    names no session or a session whose status is not "running"; when the
    session is running it returns nil, sets the status of that session to
    "stopped", records the end time and one log entry, and leaves its other
    fields and every other session unchanged. *)
Theorem StopTest_atomic (tm : TestManager) (testID : string)
    (now logged : Z) :
  let running :=
    ∃ s, activeTests tm !! testID = Some s ∧ Status s = "running"%string in
  let out := StopTest tm testID now logged in
  (¬ running → is_Some out.2 ∧ out.1 = tm)
  ∧ (running →
     out.2 = None
     ∧ ∃ s s', activeTests tm !! testID = Some s
               ∧ activeTests out.1 !! testID = Some s'
               ∧ Status s' = "stopped"%string
               ∧ EndTime s' = Some now
               ∧ Logs s' = addLog logged (Logs s) "Test stopped by user"
               ∧ ID s' = ID s ∧ Config s' = Config s
               ∧ StartTime s' = StartTime s ∧ Metrics s' = Metrics s
               ∧ ∀ other, other ≠ testID →
                   activeTests out.1 !! other = activeTests tm !! other).
Proof.
  intros running out. subst running out.
  pose proof (StopTest_cases tm testID now logged) as Hcases.
  destruct (activeTests tm !! testID) as [s|] eqn:Hs.
  - destruct Hcases as [[Hnot ->]|[Hrun ->]]; simpl.
    + split; [by eauto|]. intros (s0 & [= <-] & Hr). done.
    + split; [intros Hno; destruct Hno; by exists s|]. intros _.
      split; [done|]. exists s, (stop_session now logged s).
      rewrite lookup_insert_eq. repeat split; try done.
      intros other Hne. by rewrite lookup_insert_ne.
  - rewrite Hcases. simpl. split; [by eauto|].
    by intros (s0 & [=] & _).
Qed.

(** An instance of C10: stopping the running session of the example
    manager, and stopping a session that does not exist. *)
Lemma StopTest_atomic_witness :
  (StopTest example_manager "test_1700000000" 1700000060 1700000061).2 = None
  ∧ is_Some (StopTest example_manager "test_0" 1700000060 1700000061).2.
Proof.
  split.
  - apply (proj2 (StopTest_atomic example_manager "test_1700000000"
                    1700000060 1700000061)).
    eexists. split; reflexivity.
  - apply (proj1 (StopTest_atomic example_manager "test_0"
                    1700000060 1700000061)).
    intros (s & Hs & _). discriminate Hs.
Defined.

(** [StopTest] fails exactly when no running session has the identifier. *)
Lemma StopTest_error_iff (tm : TestManager) (testID : string)
    (now logged : Z) :
  is_Some (StopTest tm testID now logged).2
  ↔ ¬ ∃ s, activeTests tm !! testID = Some s ∧ Status s = "running"%string.
Proof.
  unfold StopTest.
  destruct (activeTests tm !! testID) as [s|] eqn:Hs.
  - case_bool_decide as Hrun; simpl.
    + split; [|by eexists]. intros _ (s' & [= <-] & Hr). done.
    + split; [by intros [? [=]]|]. intros Hno. destruct Hno.
      by exists s.
  - simpl. split; [|by eexists]. by intros _ (s' & [=] & _).
Qed.

End gui_facts.

(** ** Configuration errors at startup *)

Section cli_facts.
Import Internal Cli.

Lemma dispatch_started cfg cfg' :
  started (dispatch cfg) cfg' → cfg' = cfg ∧ Mode cfg ∈ known_modes.
Proof.
  unfold dispatch, started, known_modes.
  repeat case_bool_decide; intros [Hst|[Hst|Hst]]; try discriminate Hst;
    injection Hst as <-; (split; [done|]); set_solver.
Qed.

Lemma dispatch_unknown_mode cfg :
  Mode cfg ∉ known_modes → dispatch cfg = Exit 1.
Proof.
  unfold dispatch, known_modes. intros Hmode.
  repeat case_bool_decide; try done; destruct Hmode; set_solver.
Qed.

(** [parseTestConfig] takes the redundancy fraction and the algorithm name
    from the request as they are. *)
Lemma parseTestConfig_copies (Atoi ParseDuration : string → option Z)
    (int_of_float : float → Z) (raw : gmap string Gui.JSON) cfg :
  Gui.parseTestConfig Atoi ParseDuration int_of_float raw = inl cfg →
  FECRedundancy cfg = default 0%float (Gui.as_number raw "fec_redundancy")
  ∧ CongestionControl cfg
    = default ""%string (Gui.as_string raw "congestion_control").
Proof.
  unfold Gui.parseTestConfig, Gui.bind_err.
  repeat case_match; try done; by intros [= <-].
Qed.

(** On the command line a run begins only with a mode among server,
    client and test; nothing else about the configuration is looked at. *)
Lemma main_started_mode {NetworkProfile : Type}
    (GetScenario : string → option TestConfig)
    (GetNetworkProfile : string → option NetworkProfile)
    (ApplyNetworkProfile : TestConfig → NetworkProfile → TestConfig)
    (f : Flags) (cfg : TestConfig) :
  started (main GetScenario GetNetworkProfile ApplyNetworkProfile f) cfg →
  Mode cfg ∈ known_modes.
Proof.
  unfold main.
  destruct (f_version f); [by intros [?|[?|?]]|].
  destruct (f_listScenarios f); [by intros [?|[?|?]]|].
  destruct (f_listProfiles f); [by intros [?|[?|?]]|].
  destruct (final_config _ _ _ f) as [cfg'|]; [|by intros [?|[?|?]]].
  intros [-> Hmode]%dispatch_started. done.
Qed.

(** The sibling path: [handleCreateTest] of the API server starts a session
    only for a configuration that [Validate] accepted, and a request that
    it refuses is answered with status 400 and changes nothing. *)
Lemma handleCreateTest_validates {Body : Type}
    (decode : Body → gmap string Gui.JSON + string)
    (Atoi ParseDuration : string → option Z) (int_of_float : float → Z)
    (Validate : TestConfig → option string)
    (tm : Gui.TestManager) (body : Body) (now started : Z) :
  let out :=
    Gui.handleCreateTest decode Atoi ParseDuration int_of_float
                         Validate tm body now started in
  (∀ session, out.2 = Gui.sendSuccess session →
     Validate (Gui.Config session) = None)
  ∧ (∀ message code, out.2 = Gui.sendError message code →
     code = 400 ∧ out.1 = tm).
Proof.
  unfold Gui.handleCreateTest.
  destruct (decode body) as [raw|e]; [|simpl; split; [done|]];
    [|by intros ?? [= _ <-]].
  destruct (Gui.parseTestConfig _ _ _ raw) as [config|e];
    [|simpl; split; [done|]];
    [|by intros ?? [= _ <-]].
  destruct (Validate config) as [e|] eqn:Hval; simpl.
  - split; [done|]. by intros ?? [= _ <-].
  - split; [|done]. by intros session [= <-].
Qed.

(** With FEC enabled, no alias given, no scenario and no network profile,
    [main] hands the redundancy fraction and the algorithm of the command
    line to the run as they are, whatever they are. *)
Lemma main_server_unvalidated {NetworkProfile : Type}
    (GetScenario : string → option TestConfig)
    (GetNetworkProfile : string → option NetworkProfile)
    (ApplyNetworkProfile : TestConfig → NetworkProfile → TestConfig)
    (f : Flags) :
  f_version f = false → f_listScenarios f = false →
  f_listProfiles f = false →
  f_scenario f = ""%string → f_networkProfile f = ""%string →
  f_mode f = "server"%string →
  main GetScenario GetNetworkProfile ApplyNetworkProfile f
  = RunServer (config_of_flags f).
Proof.
  intros Hv Hls Hlp Hsc Hnp Hmode. unfold main, final_config, dispatch.
  rewrite Hv, Hls, Hlp, Hsc, Hnp.
  rewrite !(bool_decide_eq_false_2 (""%string ≠ ""%string))
    by (intros H; by apply H).
  cbn [Mode config_of_flags]. rewrite Hmode. reflexivity.
Qed.

(** C5.  The claim fails on the command line
    [-mode server -enable-fec -fec-rate 0.9 -cc bogus]: FEC is enabled, the
    redundancy fraction 0.9 is outside [0.05, 0.20] and "bogus" is not one
    of the five algorithms, yet [main] does not end with a fatal error: it
    calls [server.Run] with exactly this configuration, whatever scenarios
    and network profiles are installed.  So the claim, that no run begins
    with such a configuration, does not hold of [main]. *)
Theorem invalid_flags_start_server :
  ∀ (NetworkProfile : Type) (GetScenario : string → option TestConfig)
    (GetNetworkProfile : string → option NetworkProfile)
    (ApplyNetworkProfile : TestConfig → NetworkProfile → TestConfig),
    let cfg := config_of_flags example_invalid_flags in
    main GetScenario GetNetworkProfile ApplyNetworkProfile
         example_invalid_flags
    = RunServer cfg
    ∧ FECEnabled cfg = true
    ∧ FECRedundancy cfg = 0.9%float
    ∧ redundancy_in_range (FECRedundancy cfg) = false
    ∧ CongestionControl cfg = "bogus"%string
    ∧ (CongestionControl cfg ∉ known_algorithms)
    ∧ ¬ no_run_with_config_error GetScenario GetNetworkProfile
          ApplyNetworkProfile.
Proof.
  intros NP GS GP AP cfg.
  assert (main GS GP AP example_invalid_flags = RunServer cfg) as Hmain
    by by apply main_server_unvalidated.
  assert (CongestionControl cfg ∉ known_algorithms) as Hcc.
  { intros Hin. unfold known_algorithms in Hin. simpl in Hin.
    repeat (apply elem_of_cons in Hin as [Hin|Hin]; try discriminate Hin).
    by apply elem_of_nil in Hin. }
  repeat split; try done.
  intros Hclaim. apply (Hclaim example_invalid_flags cfg).
  - left. exact Hmain.
  - by right.
Qed.

End cli_facts.

(** ** Expiry of groups *)

Section expiry_facts.









Section growth.
Import Server.
Variable retention : Z.
Variable P : Z → bool.




End growth.


End expiry_facts.

(* ===================================================================== *)
(** * Further properties of the code *)
(* ===================================================================== *)

(** ** The test manager: registering and finding sessions *)

Section manager_facts.
Import Gui.

(** X1.  A session started by [StartTest] is found by [GetTest] under the
    identifier it was given, is running, has no end time and no logs, and
    carries the configuration it was started with; every other identifier
    finds what it found before. *)
Theorem StartTest_GetTest (tm : TestManager) (config : Internal.TestConfig)
    (now started : Z) :
  let out := StartTest tm config now started in
  GetTest out.1 (ID out.2) = Some out.2
  ∧ ID out.2 = ("test_" ++ pretty now)%string
  ∧ Status out.2 = "running"%string
  ∧ EndTime out.2 = None
  ∧ Logs out.2 = []
  ∧ Config out.2 = config
  ∧ StartTime out.2 = started
  ∧ ∀ other, other ≠ ID out.2 → GetTest out.1 other = GetTest tm other.
Proof.
  unfold StartTest, GetTest. simpl.
  rewrite lookup_insert_eq. repeat split; try done.
  intros other Hne. by rewrite lookup_insert_ne.
Qed.

(** X2.  Two tests started within the same second get the same identifier:
    the second replaces the first in the manager, which then holds as many
    sessions as after the first start, and the first session can no longer
    be found. *)
Theorem StartTest_same_second (tm : TestManager)
    (c1 c2 : Internal.TestConfig) (now started1 started2 : Z) :
  let first := StartTest tm c1 now started1 in
  let second := StartTest first.1 c2 now started2 in
  ID second.2 = ID first.2
  ∧ GetTest second.1 (ID first.2) = Some second.2
  ∧ GetTotalTestCount second.1 = GetTotalTestCount first.1.
Proof.
  unfold StartTest, GetTest, GetTotalTestCount. simpl.
  rewrite lookup_insert_eq. repeat split; try done.
  f_equal. apply map_size_insert_Some. rewrite lookup_insert_eq. by eexists.
Qed.

(** The identifier of a started test grows the manager by one session when
    it is new, and by none when it is taken. *)
Lemma StartTest_total_count (tm : TestManager)
    (config : Internal.TestConfig) (now started : Z) :
  GetTotalTestCount (StartTest tm config now started).1
  = match GetTest tm ("test_" ++ pretty now)%string with
    | Some _ => GetTotalTestCount tm
    | None => GetTotalTestCount tm + 1
    end.
Proof.
  unfold StartTest, GetTest, GetTotalTestCount. simpl.
  rewrite map_size_insert.
  destruct (activeTests tm !! _); simpl; lia.
Qed.

(** Tests started in different seconds get different identifiers. *)
Lemma StartTest_ID_inj (tm tm' : TestManager)
    (c c' : Internal.TestConfig) (now now' started started' : Z) :
  ID (StartTest tm c now started).2 = ID (StartTest tm' c' now' started').2 →
  now = now'.
Proof.
  unfold StartTest. simpl. intros Heq.
  apply (inj (String.app "test_")) in Heq. by apply pretty_Z_inj in Heq.
Qed.

(** ** The test manager: the log of a session *)

Lemma length_addLog logged logs message :
  length (addLog logged logs message) = (S (length logs) `min` 100)%nat.
Proof.
  unfold addLog. rewrite length_app. simpl.
  destruct (Nat.ltb_spec 100 (length logs + 1)).
  - rewrite length_drop, length_app. simpl. lia.
  - rewrite length_app. simpl. lia.
Qed.

(** X3.  [addLog] appends the entry ["[hh:mm:ss] message"] and keeps the
    last 100 entries: the new log is a suffix of the old one followed by
    the entry, ends with the entry, and holds [min (n + 1) 100] entries. *)
Theorem addLog_keeps_last_100 (logged : Z) (logs : list string)
    (message : string) :
  let entry := ("[" ++ format_hms logged ++ "] " ++ message)%string in
  addLog logged logs message `suffix_of` logs ++ [entry]
  ∧ last (addLog logged logs message) = Some entry
  ∧ length (addLog logged logs message) = (S (length logs) `min` 100)%nat.
Proof.
  intros entry. split; [|split; [|apply length_addLog]].
  - unfold addLog. fold entry. case_match; [apply suffix_drop|done].
  - unfold addLog. fold entry.
    destruct (Nat.ltb_spec 100 (length (logs ++ [entry]))) as [Hlt|Hle];
      [|apply last_snoc].
    rewrite length_app in *. simpl in *.
    replace (length logs + 1 - 100)%nat with (length logs - 99)%nat by lia.
    rewrite drop_app_le by lia. apply last_snoc.
Qed.

(** ** The test manager: the life of a session *)

Lemma status_known (st : string) :
  In st known_statuses → st ∈ known_statuses.
Proof. apply list_elem_of_In. Qed.

Lemma session_ok_finished ts0 ts status now logged message :
  session_ok ts0 ts →
  In status ["stopped"; "completed"; "failed"]%string →
  session_ok ts0 {| ID := ID ts; Config := Config ts; Status := status;
                    StartTime := StartTime ts; EndTime := Some now;
                    Metrics := Metrics ts;
                    Logs := addLog logged (Logs ts) message |}.
Proof.
  intros (Hid & Hcfg & Hst & Hstatus & Hend & Hlogs) Hin.
  unfold session_ok. simpl. repeat split; try done.
  - apply status_known. simpl in *. tauto.
  - intros ->. simpl in Hin. by destruct Hin as [?|[?|[?|[]]]].
  - rewrite length_addLog. lia.
Qed.

Lemma session_step_ok ts0 ts e :
  session_ok ts0 ts → session_ok ts0 (session_step ts e).
Proof.
  intros Hok.
  destruct e as [logged message|metrics|now logged|now logged|now logged
                |now logged r]; simpl.
  - destruct Hok as (Hid & Hcfg & Hst & Hstatus & Hend & Hlogs).
    unfold session_ok. simpl. repeat split; try done; try apply Hend.
    rewrite length_addLog. lia.
  - done.
  - case_bool_decide; [done|].
    apply session_ok_finished; [done|]. simpl. tauto.
  - case_bool_decide; [|done].
    apply session_ok_finished; [done|]. simpl. tauto.
  - apply session_ok_finished; [done|]. simpl. tauto.
  - apply session_ok_finished; [done|]. simpl. tauto.
Qed.

Lemma session_run_keeps_ok ts0 ts evs :
  session_ok ts0 ts → session_ok ts0 (session_run ts evs).
Proof.
  revert ts. induction evs as [|e evs IH]; intros ts Hok; [done|].
  simpl. by apply IH, session_step_ok.
Qed.

(** X4.  Whatever [StopTest] and the goroutines of [runTest] do to a
    session that starts as [StartTest] creates it, in whatever order: its
    identifier, configuration and start time never change, its status is
    one of running, stopped, completed and failed, it has an end time
    exactly when it is not running, and its log never holds more than 100
    entries. *)
Theorem session_run_ok (ts0 : TestSession) (evs : list SessionEvent) :
  Status ts0 = "running"%string →
  EndTime ts0 = None →
  (length (Logs ts0) ≤ 100)%nat →
  session_ok ts0 (session_run ts0 evs).
Proof.
  intros Hrun Hend Hlogs.
  assert (session_ok ts0 ts0) as Hinit.
  { unfold session_ok. rewrite Hrun, Hend.
    repeat split; try done. apply status_known. simpl. tauto. }
  by apply session_run_keeps_ok.
Qed.

Lemma session_step_not_running ts e :
  Status ts ≠ "running"%string →
  Status (session_step ts e) ≠ "running"%string.
Proof.
  intros Hnot.
  destruct e as [logged message|metrics|now logged|now logged|now logged
                |now logged r]; simpl; try done.
  - by rewrite bool_decide_eq_true_2.
  - by rewrite bool_decide_eq_false_2.
Qed.

(** X5.  A session that has left the running state never returns to it,
    whatever happens to it afterwards. *)
Theorem session_never_running_again (ts : TestSession)
    (evs : list SessionEvent) :
  Status ts ≠ "running"%string →
  Status (session_run ts evs) ≠ "running"%string.
Proof.
  revert ts. induction evs as [|e evs IH]; intros ts Hnot; [done|].
  simpl. by apply IH, session_step_not_running.
Qed.

Lemma session_step_stopped ts e t :
  orderly e →
  Status ts = "stopped"%string → EndTime ts = Some t →
  Status (session_step ts e) = "stopped"%string
  ∧ EndTime (session_step ts e) = Some t.
Proof.
  intros He Hst Hend.
  destruct e as [logged message|metrics|now logged|now logged|now logged
                |now logged r]; simpl in *; try done.
  - rewrite bool_decide_eq_true_2; [done|]. by rewrite Hst.
  - rewrite bool_decide_eq_false_2; [done|]. by rewrite Hst.
Qed.

(** X6.  Once [StopTest] has stopped a running session, the session stays
    stopped with the end time of the stop through every later log entry,
    metrics update, second stop and the end of [runTest]: the completion
    step does not turn a stopped test into a completed one. *)
Theorem stop_is_final (ts : TestSession) (now logged : Z)
    (evs : list SessionEvent) :
  Status ts = "running"%string →
  Forall orderly evs →
  Status (session_run ts (SeStop now logged :: evs)) = "stopped"%string
  ∧ EndTime (session_run ts (SeStop now logged :: evs)) = Some now.
Proof.
  intros Hrun Hevs. unfold session_run. cbn [foldl session_step].
  rewrite bool_decide_eq_false_2 by (intros H; by apply H).
  assert (Status (stop_session now logged ts) = "stopped"%string
          ∧ EndTime (stop_session now logged ts) = Some now) as Hinit by done.
  revert Hinit. generalize (stop_session now logged ts) as ts'.
  induction Hevs as [|e evs He _ IH]; intros ts' [Hst Hend]; [done|].
  simpl. by apply IH, session_step_stopped.
Qed.

End manager_facts.

Section manager_witnesses.
Import Gui.

(** An instance of X4: the example session through a stop and the end of
    [runTest]. *)
Lemma session_run_ok_witness :
  session_ok example_session
    (session_run example_session
       (SeStop 1700000060 1700000060 :: example_after_stop)).
Proof.
  apply (session_run_ok example_session
           (SeStop 1700000060 1700000060 :: example_after_stop)).
  - reflexivity.
  - reflexivity.
  - simpl. lia.
Defined.

(** An instance of X5: a failed session that is then stopped and
    completed. *)
Lemma session_never_running_again_witness :
  Status (session_run
            (session_step example_session (SePanic 1 1 "boom"))
            example_after_stop) ≠ "running"%string.
Proof.
  apply (session_never_running_again
           (session_step example_session (SePanic 1 1 "boom"))
           example_after_stop).
  simpl. discriminate.
Defined.

(** An instance of X6: the example session stopped at 1700000060. *)
Lemma stop_is_final_witness :
  Status (session_run example_session
            (SeStop 1700000060 1700000060 :: example_after_stop))
  = "stopped"%string
  ∧ EndTime (session_run example_session
               (SeStop 1700000060 1700000060 :: example_after_stop))
    = Some 1700000060.
Proof.
  apply (stop_is_final example_session 1700000060 1700000060
           example_after_stop).
  - reflexivity.
  - repeat constructor.
Defined.

End manager_witnesses.

(** ** The test manager: counting and stopping *)

Section manager_counts.
Import Gui.

Lemma count_step_comm (z1 z2 : TestSession) (y : Z) :
  (if bool_decide (Status z1 = "running"%string)
   then (if bool_decide (Status z2 = "running"%string) then y + 1 else y) + 1
   else (if bool_decide (Status z2 = "running"%string) then y + 1 else y))
  = (if bool_decide (Status z2 = "running"%string)
     then (if bool_decide (Status z1 = "running"%string) then y + 1 else y) + 1
     else (if bool_decide (Status z1 = "running"%string) then y + 1 else y)).
Proof. by repeat case_bool_decide. Qed.

(** X7.  The number of running tests is never negative and never exceeds
    the number of tests. *)
Theorem active_le_total (tm : TestManager) :
  0 ≤ GetActiveTestCount tm ≤ GetTotalTestCount tm.
Proof.
  unfold GetActiveTestCount, GetTotalTestCount.
  apply (map_fold_weak_ind (λ count m, 0 ≤ count ≤ Z.of_nat (size m))).
  - by rewrite map_size_empty.
  - intros i x m r Hi Hr. rewrite map_size_insert_None by done.
    case_bool_decide; lia.
Qed.

Lemma GetActiveTestCount_lookup (tm : TestManager) testID s :
  activeTests tm !! testID = Some s →
  GetActiveTestCount tm
  = (if bool_decide (Status s = "running"%string) then 1 else 0)
    + GetActiveTestCount {| activeTests := delete testID (activeTests tm) |}.
Proof.
  intros Hs. unfold GetActiveTestCount. simpl.
  rewrite (map_fold_delete_L _ _ testID s) by
    (done || (intros; simpl; apply count_step_comm)).
  case_bool_decide; lia.
Qed.

(** X8.  A successful [StopTest] lowers the number of running tests by
    exactly one and leaves the number of tests unchanged; a failed one
    changes neither. *)
Theorem StopTest_counts (tm : TestManager) (testID : string)
    (now logged : Z) :
  let out := StopTest tm testID now logged in
  GetTotalTestCount out.1 = GetTotalTestCount tm
  ∧ GetActiveTestCount out.1
    = GetActiveTestCount tm - (if out.2 is None then 1 else 0).
Proof.
  pose proof (StopTest_cases tm testID now logged) as Hcases.
  destruct (activeTests tm !! testID) as [s|] eqn:Hs.
  - destruct Hcases as [[Hnot ->]|[Hrun ->]]; simpl; [split; lia|].
    split.
    + unfold GetTotalTestCount. simpl. f_equal.
      apply map_size_insert_Some. by eexists.
    + rewrite (GetActiveTestCount_lookup tm testID s Hs).
      rewrite (GetActiveTestCount_lookup _ testID (stop_session now logged s))
        by (simpl; apply lookup_insert_eq).
      simpl. rewrite delete_insert_eq.
      rewrite bool_decide_eq_true_2 by done. lia.
  - rewrite Hcases. simpl. split; lia.
Qed.

Lemma StopTest_refused (tm : TestManager) (testID : string)
    (now logged : Z) :
  (¬ ∃ s, activeTests tm !! testID = Some s ∧ Status s = "running"%string) →
  is_Some (StopTest tm testID now logged).2
  ∧ (StopTest tm testID now logged).1 = tm.
Proof.
  intros Hno.
  pose proof (StopTest_cases tm testID now logged) as Hcases.
  destruct (activeTests tm !! testID) as [s|] eqn:Hs.
  - destruct Hcases as [[Hnot ->]|[Hrun _]]; [by eauto|].
    destruct Hno. by exists s.
  - rewrite Hcases. by eauto.
Qed.

(** X9.  Stopping the same test a second time always fails and changes
    nothing: after any [StopTest], a further [StopTest] with the same
    identifier returns an error and leaves the manager as it is. *)
Theorem StopTest_twice (tm : TestManager) (testID : string)
    (now logged now' logged' : Z) :
  let tm1 := (StopTest tm testID now logged).1 in
  is_Some (StopTest tm1 testID now' logged').2
  ∧ (StopTest tm1 testID now' logged').1 = tm1.
Proof.
  intros tm1.
  apply StopTest_refused.
  intros (s1 & Hs1 & Hrun1). subst tm1.
  pose proof (StopTest_cases tm testID now logged) as Hcases.
  destruct (activeTests tm !! testID) as [s|] eqn:Hs.
  - destruct Hcases as [[Hnot Heq]|[Hrun Heq]]; rewrite Heq in Hs1;
      simpl in Hs1.
    + congruence.
    + rewrite lookup_insert_eq in Hs1. by injection Hs1 as <-.
  - rewrite Hcases in Hs1. simpl in Hs1. congruence.
Qed.

(** ** The test manager: the metrics of a session *)

(** X10.  After [updateMetrics], a key of the update reads the value of
    the update and every other key reads what it read before, whatever the
    order in which the loop visits the update; [GetMetrics] returns a map
    with exactly the entries of the session's metrics. *)
Theorem updateMetrics_lookup (ts : TestSession)
    (metrics : gmap string MetricValue) (key : string) :
  GetMetrics (updateMetrics ts metrics) !! key
  = match metrics !! key with
    | Some value => Some value
    | None => GetMetrics ts !! key
    end.
Proof.
  assert (∀ m : gmap string MetricValue,
            map_fold (λ key value acc, <[key := value]> acc) ∅ m = m)
    as Hcopy.
  { intros m.
    apply (map_fold_weak_ind (λ r m, r = m)); [done|].
    by intros i x m' r _ ->. }
  unfold GetMetrics, updateMetrics. simpl. rewrite !Hcopy.
  apply (map_fold_weak_ind
           (λ r m, r !! key = match m !! key with
                              | Some value => Some value
                              | None => Metrics ts !! key
                              end)); [done|].
  intros i x m r Hi Hr.
  destruct (decide (i = key)) as [->|Hne].
  - by rewrite !lookup_insert_eq.
  - by rewrite !lookup_insert_ne.
Qed.

End manager_counts.

(** ** The API server: listing tests *)

Section listing_facts.
Import Gui.
Variable Atoi : string → option Z.

Lemma parse_limit_pos limitStr : 0 < parse_limit Atoi limitStr.
Proof.
  unfold parse_limit. case_bool_decide; [|lia].
  destruct (Atoi limitStr) as [l|]; [|lia].
  destruct (Z.ltb_spec 0 l); lia.
Qed.

Lemma parse_offset_nonneg offsetStr : 0 ≤ parse_offset Atoi offsetStr.
Proof.
  unfold parse_offset. case_bool_decide; [|lia].
  destruct (Atoi offsetStr) as [o|]; [|lia].
  destruct (Z.leb_spec 0 o); lia.
Qed.

(** X11.  [handleListTests] answers with the page
    [filtered[offset : offset + limit]] cut down to the tests there are,
    where [filtered] keeps the tests whose status is the requested one (all
    of them when none is requested), [limit] is 50 unless a positive number
    is given and [offset] is 0 unless a non-negative number is given;
    [total] counts the filtered tests, not the page.  This holds whenever
    [offset + limit] does not exceed the largest [int]. *)
Theorem handleListTests_page (status limitStr offsetStr : string)
    (allTests : list TestSession) :
  let limit := parse_limit Atoi limitStr in
  let offset := parse_offset Atoi offsetStr in
  let filtered := filter_status status allTests in
  let page := take (Z.to_nat limit) (drop (Z.to_nat offset) filtered) in
  offset + limit ≤ max_i64 →
  handleListTests Atoi status limitStr offsetStr allTests
  = Some (ReplyTests page (Z.of_nat (length filtered)) limit offset)
  ∧ Z.of_nat (length page) ≤ limit
  ∧ ∀ test, test ∈ page →
      test ∈ allTests ∧ (status = ""%string ∨ Status test = status).
Proof.
  intros limit offset filtered page Hmax.
  pose proof (parse_limit_pos limitStr) as Hlimit.
  pose proof (parse_offset_nonneg offsetStr) as Hoffset.
  fold limit in Hlimit. fold offset in Hoffset.
  split; [|split].
  - unfold handleListTests. fold limit offset filtered.
    rewrite wrap_i64_small by (unfold max_i64 in *; lia).
    destruct (Z.leb_spec (Z.of_nat (length filtered)) offset) as [Hge|Hlt].
    { subst page. rewrite drop_ge by lia. by rewrite take_nil. }
    unfold go_slice.
    destruct (Z.ltb_spec (Z.of_nat (length filtered)) (offset + limit))
      as [Hcut|Hfit].
    + rewrite bool_decide_eq_true_2 by lia.
      subst page. do 2 f_equal.
      rewrite !take_ge; [done|rewrite length_drop; lia..].
    + rewrite bool_decide_eq_true_2 by lia.
      subst page. do 3 f_equal. lia.
  - subst page. rewrite length_take. lia.
  - intros test Hin. subst page filtered.
    eapply elem_of_sublist in Hin; [|apply sublist_take].
    eapply elem_of_sublist in Hin; [|apply sublist_drop].
    unfold filter_status in Hin. by apply list_elem_of_filter in Hin as [? ?].
Qed.

(** X12.  When [offset + limit] exceeds the largest [int], as with
    [limit=9223372036854775807&offset=1], and there are more than [offset]
    tests to list, the sum wraps to a negative end and the slice expression
    of [handleListTests] panics. *)
Theorem handleListTests_overflow_panics (status limitStr offsetStr : string)
    (allTests : list TestSession) :
  let limit := parse_limit Atoi limitStr in
  let offset := parse_offset Atoi offsetStr in
  limit ≤ max_i64 → offset ≤ max_i64 →
  max_i64 < offset + limit →
  offset < Z.of_nat (length (filter_status status allTests)) →
  handleListTests Atoi status limitStr offsetStr allTests = None.
Proof.
  intros limit offset Hl Ho Hover Hlt.
  pose proof (parse_offset_nonneg offsetStr) as Hoffset.
  fold offset in Hoffset.
  unfold handleListTests. fold limit offset.
  assert (wrap_i64 (offset + limit) = offset + limit - 2 ^ 64) as ->.
  { unfold wrap_i64, max_i64 in *.
    replace (offset + limit + 2 ^ 63)
      with (offset + limit - 2 ^ 63 + 1 * 2 ^ 64) by lia.
    rewrite Z.mod_add by lia. rewrite Z.mod_small; lia. }
  destruct (Z.leb_spec (Z.of_nat (length (filter_status status allTests)))
              offset); [lia|].
  destruct (Z.ltb_spec (Z.of_nat (length (filter_status status allTests)))
              (offset + limit - 2 ^ 64)); [unfold max_i64 in *; lia|].
  unfold go_slice. rewrite bool_decide_eq_false_2; [done|].
  unfold max_i64 in *. lia.
Qed.

End listing_facts.

(** An instance of X11: the second page of size 1 of the three example
    tests. *)
Lemma handleListTests_page_witness :
  Gui.handleListTests Gui.example_Atoi "" "1" "1" Gui.example_tests
  = Some (Gui.ReplyTests
            (take (Z.to_nat (Gui.parse_limit Gui.example_Atoi "1"))
               (drop (Z.to_nat (Gui.parse_offset Gui.example_Atoi "1"))
                  (Gui.filter_status "" Gui.example_tests)))
            (Z.of_nat (length (Gui.filter_status "" Gui.example_tests)))
            (Gui.parse_limit Gui.example_Atoi "1")
            (Gui.parse_offset Gui.example_Atoi "1")).
Proof.
  apply (proj1 (handleListTests_page Gui.example_Atoi "" "1" "1"
                  Gui.example_tests ltac:(vm_compute; discriminate))).
Defined.

(** An instance of X12: [limit=9223372036854775807&offset=1] on three
    tests. *)
Lemma handleListTests_overflow_panics_witness :
  Gui.handleListTests Gui.example_Atoi "" "9223372036854775807" "1"
    Gui.example_tests = None.
Proof.
  apply (handleListTests_overflow_panics Gui.example_Atoi ""
           "9223372036854775807" "1" Gui.example_tests).
  - vm_compute. discriminate.
  - vm_compute. discriminate.
  - vm_compute. reflexivity.
  - vm_compute. reflexivity.
Defined.

(** ** The API server: requests on one test *)

Section route_facts.
Import Gui.
Context {Body : Type}.
Variable decode : Body → gmap string JSON + string.
Variable Atoi : string → option Z.
Variable ParseDuration : string → option Z.
Variable int_of_float : float → Z.
Variable Validate : Internal.TestConfig → option string.

Lemma strip_prefix_app (prefix s : string) :
  strip_prefix (prefix ++ s) prefix = Some s.
Proof.
  induction prefix as [|c prefix IH]; simpl; [by destruct s|].
  by rewrite Ascii.eqb_refl.
Qed.

Lemma TrimPrefix_app (prefix s : string) :
  TrimPrefix (prefix ++ s) prefix = s.
Proof. unfold TrimPrefix. by rewrite strip_prefix_app. Qed.

Lemma handleCreateTest_success tm body now started tm1 session :
  handleCreateTest decode Atoi ParseDuration int_of_float Validate
                   tm body now started
  = (tm1, sendSuccess session) →
  ∃ config, (tm1, session) = StartTest tm config now started.
Proof.
  unfold handleCreateTest.
  destruct (decode body) as [raw|e]; [|done].
  destruct (parseTestConfig _ _ _ raw) as [config|e]; [|done].
  destruct (Validate config); [done|].
  intros [= <- <-]. by exists config.
Qed.

Lemma session_run_stays_finished (ts : TestSession)
    (evs : list SessionEvent) :
  Status ts ≠ "running"%string →
  Status (session_run ts evs) ≠ "running"%string.
Proof.
  revert ts. induction evs as [|e evs IH]; intros ts Hnot; [done|].
  simpl. by apply IH, session_step_not_running.
Qed.

Lemma session_run_in_progress (ts : TestSession) (evs : list SessionEvent) :
  Forall in_progress evs → Status (session_run ts evs) = Status ts.
Proof.
  intros Hevs. revert ts.
  induction Hevs as [|e evs He _ IH]; intros ts; [done|].
  simpl. rewrite IH. by destruct e.
Qed.

Lemma GetTest_session_events (tm : TestManager) (testID : string)
    (evs : list SessionEvent) :
  GetTest (session_events tm testID evs) testID
  = (λ ts, session_run ts evs) <$> GetTest tm testID.
Proof. unfold GetTest, session_events. simpl. apply lookup_alter_eq. Qed.

Lemma handleTestByID_delete (tm : TestManager) (r : Request (Body := Body))
    (testID : string) (now logged : Z) :
  Method r = "DELETE"%string →
  Path r = ("/api/tests/" ++ testID)%string →
  testID ≠ ""%string →
  handleTestByID tm r now logged = handleStopTest tm testID now logged.
Proof.
  intros Hm Hp Hid. unfold handleTestByID.
  rewrite Hp, Hm, TrimPrefix_app.
  rewrite (bool_decide_eq_false_2 (testID = ""%string)) by done.
  rewrite (bool_decide_eq_false_2 ("DELETE"%string = "GET"%string)) by done.
  by rewrite (bool_decide_eq_true_2 ("DELETE"%string = _)).
Qed.

Lemma handleStopTest_finished (tm : TestManager) (testID : string)
    (now logged : Z) (s : TestSession) :
  GetTest tm testID = Some s → Status s ≠ "running"%string →
  handleStopTest tm testID now logged
  = (tm, ReplyError ("test is not running: " ++ testID)%string 400).
Proof.
  intros Hs Hst. unfold handleStopTest, StopTest. unfold GetTest in Hs.
  rewrite Hs. by rewrite bool_decide_eq_true_2.
Qed.

(** X13.  A test created through [handleCreateTest] is found under the
    identifier of the answer whatever its [runTest] goroutine has done in
    the meantime.  [GET /api/tests/{id}] returns the session as it is then,
    with the identifier, configuration and start time it was created with;
    it is still running when the goroutine has only logged and updated
    metrics.  [DELETE /api/tests/{id}] answers "Test stopped successfully"
    and leaves the session stopped, with the time of the request as its end
    time, when the session is still running, and is refused with status 400
    and "test is not running" when it no longer is.  After the
    first [DELETE], whatever the session's goroutines do next, a second
    [DELETE] is refused with status 400, changing nothing. *)
Theorem create_get_stop (tm tm1 : TestManager) (body : Body)
    (now started : Z) (session : TestSession)
    (rget rdel : Request (Body := Body))
    (evs1 evs2 : list SessionEvent) (t1 l1 t2 l2 t3 l3 : Z) :
  handleCreateTest decode Atoi ParseDuration int_of_float Validate
                   tm body now started
  = (tm1, sendSuccess session) →
  Method rget = "GET"%string →
  Path rget = ("/api/tests/" ++ ID session)%string →
  Method rdel = "DELETE"%string →
  Path rdel = ("/api/tests/" ++ ID session)%string →
  let tm2 := session_events tm1 (ID session) evs1 in
  let current := session_run session evs1 in
  let stopped := handleTestByID tm2 rdel t2 l2 in
  let tm3 := session_events stopped.1 (ID session) evs2 in
  handleTestByID tm2 rget t1 l1 = (tm2, ReplySession current)
  ∧ ID current = ID session
  ∧ Config current = Config session
  ∧ StartTime current = StartTime session
  ∧ (Forall in_progress evs1 → Status current = "running"%string)
  ∧ (Status current = "running"%string →
     stopped.2 = ReplyMessage "Test stopped successfully"
     ∧ ∃ s', GetTest stopped.1 (ID session) = Some s'
             ∧ Status s' = "stopped"%string ∧ EndTime s' = Some t2
             ∧ Config s' = Config session)
  ∧ (Status current ≠ "running"%string →
     stopped
     = (tm2, ReplyError ("test is not running: " ++ ID session)%string 400))
  ∧ handleTestByID tm3 rdel t3 l3
    = (tm3, ReplyError ("test is not running: " ++ ID session)%string 400).
Proof.
  intros Hcreate Hget Hpget Hdel Hpdel tm2 current stopped tm3.
  destruct (handleCreateTest_success _ _ _ _ _ _ Hcreate)
    as (config & Hstart).
  assert (GetTest tm1 (ID session) = Some session
          ∧ Status session = "running"%string
          ∧ EndTime session = None ∧ Logs session = []
          ∧ ID session ≠ ""%string)
    as (Hfound & Hrunning & Hend & Hlogs & Hid).
  { unfold StartTest in Hstart. injection Hstart as -> ->.
    unfold GetTest. simpl. by rewrite lookup_insert_eq. }
  assert (GetTest tm2 (ID session) = Some current) as Hcurrent.
  { subst tm2 current. by rewrite GetTest_session_events, Hfound. }
  assert (session_ok session current) as (Hcid & Hccfg & Hcst & _).
  { apply session_run_keeps_ok. unfold session_ok, known_statuses.
    rewrite Hrunning, Hend, Hlogs. repeat split; try done; simpl; try lia.
    apply status_known. simpl. tauto. }
  assert (stopped = handleStopTest tm2 (ID session) t2 l2) as Hstopped
    by by apply handleTestByID_delete.
  split.
  { unfold handleTestByID. rewrite Hpget, Hget, TrimPrefix_app.
    rewrite (bool_decide_eq_false_2 (_ = ""%string)) by done.
    rewrite (bool_decide_eq_true_2 ("GET"%string = _)) by done.
    unfold handleGetTest. by rewrite Hcurrent. }
  split; [done|]. split; [done|]. split; [done|].
  split.
  { intros Hevs. subst current.
    by rewrite session_run_in_progress. }
  assert (Status current = "running"%string →
          stopped
          = ({| activeTests :=
                  <[ID session := stop_session t2 l2 current]>
                    (activeTests tm2) |},
             ReplyMessage "Test stopped successfully")) as Hsuccess.
  { intros Hst. rewrite Hstopped. unfold handleStopTest, StopTest.
    unfold GetTest in Hcurrent. rewrite Hcurrent.
    by rewrite bool_decide_eq_false_2 by (intros H; by apply H). }
  assert (Status current ≠ "running"%string →
          stopped
          = (tm2,
             ReplyError ("test is not running: " ++ ID session)%string 400))
    as Hrefused.
  { intros Hst. rewrite Hstopped.
    by apply (handleStopTest_finished tm2 _ _ _ current). }
  split.
  { intros Hst. rewrite (Hsuccess Hst). cbn [fst snd]. split; [done|].
    exists (stop_session t2 l2 current). unfold GetTest. simpl.
    by rewrite lookup_insert_eq. }
  split; [done|].
  assert (∃ s, GetTest stopped.1 (ID session) = Some s
               ∧ Status s ≠ "running"%string) as (s & Hs & Hfinished).
  { destruct (decide (Status current = "running"%string)) as [Hst|Hst].
    - rewrite (Hsuccess Hst). cbn [fst].
      exists (stop_session t2 l2 current). unfold GetTest. simpl.
      by rewrite lookup_insert_eq.
    - rewrite (Hrefused Hst). cbn [fst]. by exists current. }
  rewrite (handleTestByID_delete tm3 rdel (ID session)) by done.
  apply (handleStopTest_finished tm3 _ _ _ (session_run s evs2)).
  - subst tm3. by rewrite GetTest_session_events, Hs.
  - by apply session_run_stays_finished.
Qed.

(** X14.  Only [POST /api/tests] and [DELETE /api/tests/{id}] can change
    the test manager: every other method on the two routes leaves it
    unchanged, a method that is neither [GET] nor the writing one is
    answered with status 405, and an empty identifier with status 400. *)
Theorem only_post_and_delete_write (tm : TestManager)
    (r : Request (Body := Body)) (allTests : list TestSession)
    (now started logged : Z) :
  (Method r ≠ "POST"%string →
   (handleTests decode Atoi ParseDuration int_of_float Validate
                tm r allTests now started).1 = tm)
  ∧ (Method r ≠ "POST"%string → Method r ≠ "GET"%string →
     (handleTests decode Atoi ParseDuration int_of_float Validate
                  tm r allTests now started).2
     = Some (ReplyError "Method not allowed" 405))
  ∧ (Method r ≠ "DELETE"%string → (handleTestByID tm r now logged).1 = tm)
  ∧ (TrimPrefix (Path r) "/api/tests/" = ""%string →
     handleTestByID tm r now logged = (tm, ReplyError "Test ID required" 400))
  ∧ (TrimPrefix (Path r) "/api/tests/" ≠ ""%string →
     Method r ≠ "DELETE"%string → Method r ≠ "GET"%string →
     handleTestByID tm r now logged
     = (tm, ReplyError "Method not allowed" 405)).
Proof.
  unfold handleTests, handleTestByID.
  repeat split; intros; repeat case_bool_decide; done.
Qed.

(** ** The API server: reading a configuration *)

Lemma nonempty_or_default (o : option string) (d : string) :
  d ≠ ""%string →
  match o with
  | Some v => if bool_decide (v ≠ ""%string) then v else d
  | None => d
  end ≠ ""%string.
Proof. intros Hd. destruct o as [v|]; [by case_bool_decide|done]. Qed.

Lemma int_field_missing (raw : gmap string JSON) key dflt :
  raw !! key = None → int_field Atoi int_of_float raw key dflt = inl dflt.
Proof.
  intros Hk. unfold int_field, as_number, as_string. by rewrite Hk.
Qed.

(** X15.  A configuration read by [parseTestConfig] never has an empty
    mode or address, and a field that the request does not mention gets
    its default: mode "test", address "localhost:9000", 2 connections, 4
    streams, packets of 1200 bytes, rate 100 and a duration of 60
    seconds. *)
Theorem parseTestConfig_defaults (raw : gmap string JSON)
    (cfg : Internal.TestConfig) :
  parseTestConfig Atoi ParseDuration int_of_float raw = inl cfg →
  Internal.Mode cfg ≠ ""%string
  ∧ Internal.Addr cfg ≠ ""%string
  ∧ (raw !! "mode"%string = None → Internal.Mode cfg = "test"%string)
  ∧ (raw !! "addr"%string = None →
     Internal.Addr cfg = "localhost:9000"%string)
  ∧ (raw !! "connections"%string = None → Internal.Connections cfg = 2)
  ∧ (raw !! "streams"%string = None → Internal.Streams cfg = 4)
  ∧ (raw !! "packet_size"%string = None → Internal.PacketSize cfg = 1200)
  ∧ (raw !! "rate"%string = None → Internal.Rate cfg = 100)
  ∧ (raw !! "duration"%string = None →
     Internal.Duration cfg = 60 * 1000000000).
Proof.
  unfold parseTestConfig, bind_err.
  destruct (int_field Atoi int_of_float raw "connections" 2)
    as [connections|] eqn:Hc; [|done].
  destruct (int_field Atoi int_of_float raw "streams" 4)
    as [streams|] eqn:Hs; [|done].
  destruct (int_field Atoi int_of_float raw "packet_size" 1200)
    as [packet_size|] eqn:Hp; [|done].
  destruct (int_field Atoi int_of_float raw "rate" 100)
    as [rate|] eqn:Hr; [|done].
  destruct (duration_field ParseDuration int_of_float raw)
    as [duration|] eqn:Hd; [|done].
  destruct (emulate_latency_field ParseDuration raw)
    as [latency|] eqn:Hl; [|done].
  intros [= <-]. cbn [Internal.Mode Internal.Addr Internal.Connections
    Internal.Streams Internal.PacketSize Internal.Rate Internal.Duration].
  split; [apply nonempty_or_default; discriminate|].
  split; [apply nonempty_or_default; discriminate|].
  split; [unfold as_string; by intros ->|].
  split; [unfold as_string; by intros ->|].
  split; [intros Hk; by rewrite (int_field_missing _ _ _ Hk) in Hc;
          injection Hc|].
  split; [intros Hk; by rewrite (int_field_missing _ _ _ Hk) in Hs;
          injection Hs|].
  split; [intros Hk; by rewrite (int_field_missing _ _ _ Hk) in Hp;
          injection Hp|].
  split; [intros Hk; by rewrite (int_field_missing _ _ _ Hk) in Hr;
          injection Hr|].
  intros Hk. unfold duration_field, as_string, as_number in Hd.
  rewrite Hk in Hd. by injection Hd.
Qed.

Lemma int_field_error raw key dflt e :
  int_field Atoi int_of_float raw key dflt = inr e →
  ∃ v, as_string raw key = Some v ∧ Atoi v = None
       ∧ e = ("invalid " ++ key ++ " value: " ++ v)%string.
Proof.
  unfold int_field. destruct (as_number raw key); [done|].
  destruct (as_string raw key) as [v|]; [|done].
  case_bool_decide; [done|].
  destruct (Atoi v) eqn:Hv; [done|]. intros [= <-]. eauto.
Qed.

(** X16.  Every error of [parseTestConfig] names a field of the request
    whose string really does not parse: one of connections, streams,
    packet_size and rate with a string that [Atoi] rejects, or duration or
    emulate_latency with a string that [ParseDuration] rejects.  A request
    without string values in these six fields is therefore never
    refused. *)
Theorem parseTestConfig_error_cause (raw : gmap string JSON) (e : string) :
  parseTestConfig Atoi ParseDuration int_of_float raw = inr e →
  (∃ key v,
     key ∈ ["connections"; "streams"; "packet_size"; "rate"]%string
     ∧ as_string raw key = Some v ∧ Atoi v = None
     ∧ e = ("invalid " ++ key ++ " value: " ++ v)%string)
  ∨ (∃ key v,
       key ∈ ["duration"; "emulate_latency"]%string
       ∧ as_string raw key = Some v ∧ ParseDuration v = None
       ∧ e = ("invalid " ++ key ++ " format: " ++ v)%string).
Proof.
  unfold parseTestConfig, bind_err.
  destruct (int_field Atoi int_of_float raw "connections" 2)
    as [connections|e1] eqn:Hc.
  2: { intros [= <-]. apply int_field_error in Hc as (v & ? & ? & ->).
       left. exists "connections"%string, v.
       split; [|done]. apply list_elem_of_In. simpl. tauto. }
  destruct (int_field Atoi int_of_float raw "streams" 4)
    as [streams|e1] eqn:Hs.
  2: { intros [= <-]. apply int_field_error in Hs as (v & ? & ? & ->).
       left. exists "streams"%string, v.
       split; [|done]. apply list_elem_of_In. simpl. tauto. }
  destruct (int_field Atoi int_of_float raw "packet_size" 1200)
    as [packet_size|e1] eqn:Hp.
  2: { intros [= <-]. apply int_field_error in Hp as (v & ? & ? & ->).
       left. exists "packet_size"%string, v.
       split; [|done]. apply list_elem_of_In. simpl. tauto. }
  destruct (int_field Atoi int_of_float raw "rate" 100)
    as [rate|e1] eqn:Hr.
  2: { intros [= <-]. apply int_field_error in Hr as (v & ? & ? & ->).
       left. exists "rate"%string, v.
       split; [|done]. apply list_elem_of_In. simpl. tauto. }
  destruct (duration_field ParseDuration int_of_float raw)
    as [duration|e1] eqn:Hd.
  2: { intros [= <-]. right. unfold duration_field in Hd.
       destruct (as_string raw "duration") as [v|] eqn:Hv.
       - destruct (ParseDuration v) eqn:Hpd; [done|].
         injection Hd as <-. exists "duration"%string, v.
         split; [|done]. apply list_elem_of_In. simpl. tauto.
       - by destruct (as_number raw "duration"). }
  destruct (emulate_latency_field ParseDuration raw)
    as [latency|e1] eqn:Hl; [done|].
  intros [= <-]. right. unfold emulate_latency_field in Hl.
  destruct (as_string raw "emulate_latency") as [v|] eqn:Hv; [|done].
  case_bool_decide; [|done].
  destruct (ParseDuration v) eqn:Hpd; [done|].
  injection Hl as <-. exists "emulate_latency"%string, v.
  split; [|done]. apply list_elem_of_In. simpl. tauto.
Qed.

End route_facts.

Section route_witnesses.
Import Gui.

(** An instance of X13: a test created from an empty request at second
    1700000000 logs and updates its metrics, is then fetched and stopped,
    winds up, and is stopped again. *)
Lemma create_get_stop_witness :
  (handleTestByID
     (session_events
        (StartTest NewTestManager example_parsed 1700000000 1700000001).1
        "test_1700000000" example_started)
     example_delete 2 2).2
  = ReplyMessage "Test stopped successfully".
Proof.
  pose proof (create_get_stop example_decode example_Atoi
                example_ParseDuration example_int_of_float example_Validate
                NewTestManager
                (StartTest NewTestManager example_parsed
                   1700000000 1700000001).1
                ∅ 1700000000 1700000001
                (StartTest NewTestManager example_parsed
                   1700000000 1700000001).2
                example_get example_delete
                example_started example_wound_up 1 1 2 2 3 3
                eq_refl eq_refl eq_refl eq_refl eq_refl) as H.
  exact (proj1 (proj1 (proj2 (proj2 (proj2 (proj2 (proj2 H)))))
                  eq_refl)).
Defined.

(** An instance of X14: a [PUT] on both routes. *)
Lemma only_post_and_delete_write_witness :
  (handleTests example_decode example_Atoi example_ParseDuration
     example_int_of_float example_Validate example_manager
     (mkRequest "PUT" "/api/tests/test_1700000000" "" "" "" ∅)
     example_tests 1 1).1 = example_manager
  ∧ (handleTestByID example_manager
       (mkRequest "PUT" "/api/tests/test_1700000000" "" "" ""
          (∅ : gmap string JSON)) 1 1).1 = example_manager.
Proof.
  pose proof (only_post_and_delete_write example_decode example_Atoi
                example_ParseDuration example_int_of_float example_Validate
                example_manager
                (mkRequest "PUT" "/api/tests/test_1700000000" "" "" "" ∅)
                example_tests 1 1 1) as H.
  split.
  - apply (proj1 H). discriminate.
  - apply (proj1 (proj2 (proj2 H))). discriminate.
Defined.

(** An instance of X15: the empty request. *)
Lemma parseTestConfig_defaults_witness :
  Internal.Mode example_parsed ≠ ""%string
  ∧ Internal.Addr example_parsed ≠ ""%string
  ∧ Internal.Connections example_parsed = 2.
Proof.
  pose proof (parseTestConfig_defaults example_Atoi example_ParseDuration
                example_int_of_float ∅ example_parsed eq_refl) as H.
  split; [exact (proj1 H)|]. split; [exact (proj1 (proj2 H))|].
  apply (proj1 (proj2 (proj2 (proj2 (proj2 H))))). reflexivity.
Defined.

(** An instance of X16: [connections] given as the string "many". *)
Lemma parseTestConfig_error_cause_witness :
  parseTestConfig example_Atoi example_ParseDuration example_int_of_float
    example_bad_request
  = inr "invalid connections value: many"%string
  ∧ ((∃ key v,
        key ∈ ["connections"; "streams"; "packet_size"; "rate"]%string
        ∧ as_string example_bad_request key = Some v
        ∧ example_Atoi v = None
        ∧ "invalid connections value: many"%string
          = ("invalid " ++ key ++ " value: " ++ v)%string)
     ∨ (∃ key v,
          key ∈ ["duration"; "emulate_latency"]%string
          ∧ as_string example_bad_request key = Some v
          ∧ example_ParseDuration v = None
          ∧ "invalid connections value: many"%string
            = ("invalid " ++ key ++ " format: " ++ v)%string)).
Proof.
  split; [reflexivity|].
  apply (parseTestConfig_error_cause example_Atoi example_ParseDuration
           example_int_of_float example_bad_request
           "invalid connections value: many" eq_refl).
Defined.

End route_witnesses.

(** ** The server: what the counters count *)

Section server_more.
Import Server.
Context {D : Type} `{!FECDecoderAPI D}.

Lemma count_recovered_others (m : serverMetrics D) l :
  Connections (count_recovered m l) = Connections m
  ∧ Streams (count_recovered m l) = Streams m
  ∧ Errors (count_recovered m l) = Errors m.
Proof.
  revert m. induction l as [|r l IH]; intros m; [done|].
  unfold count_recovered in *. cbn [foldl].
  destruct (IH (add_Bytes m (Z.of_nat (length (FEC.Data r)))))
    as (-> & -> & ->).
  done.
Qed.

Lemma handle_buffer_others now (m : serverMetrics D) st data :
  Connections (handle_buffer now m st data).1.1 = Connections m
  ∧ Streams (handle_buffer now m st data).1.1 = Streams m
  ∧ Errors (handle_buffer now m st data).1.1 = Errors m.
Proof.
  unfold handle_buffer. destruct (is_repair_packet data).
  - destruct (FECDecoder m) as [d|]; [|done].
    destruct (AddRedundancyPacket now d data) as [d' [recovered l]].
    destruct (recovered && _); cbn [fst]; [|done].
    by destruct (count_recovered_others (set_decoder m d') l)
      as (-> & -> & ->).
  - cbn [add_Bytes FECDecoder]. by destruct (FECDecoder m).
Qed.

Lemma handleStream_iter_others now (m : serverMetrics D) st data err :
  Connections (handleStream_iter now m st data err).1.1 = Connections m
  ∧ Streams (handleStream_iter now m st data err).1.1 = Streams m
  ∧ Errors (handleStream_iter now m st data err).1.1
    = match err with
      | Some e => if bool_decide (e ≠ "EOF"%string)
                  then wrap_i64 (Errors m + 1) else Errors m
      | None => Errors m
      end.
Proof.
  unfold handleStream_iter.
  pose proof (handle_buffer_others now m st data) as Hb.
  destruct (0 <? Z.of_nat (length data)).
  - destruct (handle_buffer now m st data) as [[m1 st1] calls].
    cbn [fst] in Hb. destruct Hb as (H1 & H2 & H3).
    destruct err as [e|]; cbn [fst]; [|done].
    case_bool_decide; cbn [inc_Errors Connections Streams Errors];
      by rewrite ?H1, ?H2, ?H3.
  - destruct err as [e|]; cbn [fst]; [|done].
    by case_bool_decide.
Qed.

Lemma accepted_counted_step (n : Z) (s : ServerState D) e :
  n + 1 ≤ max_i64 →
  accepted_counted n s → accepted_counted (n + 1) (server_step s e).1.
Proof.
  intros Hn (HC & HS & HnC & HnS). unfold accepted_counted.
  destruct e as [ok|cid ok|sid now data err|now]; cbn [server_step].
  - destruct (listening s), ok;
      cbn [fst metrics conns streams inc_Connections inc_Errors
           Connections Streams];
      rewrite ?length_app; cbn [length];
      rewrite ?wrap_i64_small by (unfold max_i64 in *; lia); lia.
  - destruct (conns s !! cid) as [[]|]; [destruct ok| |];
      cbn [fst metrics conns streams inc_Streams inc_Errors
           Connections Streams];
      rewrite ?length_app, ?length_insert; cbn [length];
      rewrite ?wrap_i64_small by (unfold max_i64 in *; lia); lia.
  - destruct (streams s !! sid) as [[st|]|]; cbn [fst]; try lia.
    pose proof (handleStream_iter_others now (metrics s) st data err)
      as (H1 & H2 & _).
    destruct (handleStream_iter now (metrics s) st data err)
      as [[m' st'] calls].
    cbn [fst metrics conns streams] in *. rewrite length_insert. lia.
  - destruct (FECDecoder (metrics s)); cbn; lia.
Qed.

Lemma accepted_counted_run (n : Z) (s : ServerState D) evs :
  n + Z.of_nat (length evs) ≤ max_i64 →
  accepted_counted n s →
  accepted_counted (n + Z.of_nat (length evs)) (server_run s evs).1.
Proof.
  revert n s. induction evs as [|e evs IH]; intros n s Hn Hs.
  - cbn [server_run fst length]. by replace (n + Z.of_nat 0) with n by lia.
  - cbn [server_run length] in *.
    pose proof (accepted_counted_step n s e ltac:(lia) Hs) as Hstep.
    destruct (server_step s e) as [s1 log1]. cbn [fst] in Hstep.
    specialize (IH (n + 1) s1 ltac:(lia) Hstep).
    destruct (server_run s1 evs) as [s2 log2]. cbn [fst] in *.
    by replace (n + Z.of_nat (S (length evs)))
      with (n + 1 + Z.of_nat (length evs)) by lia.
Qed.

(** X17.  In every run of the server started by [Run] that is short
    enough for the counters not to wrap, [Connections] is the number of
    connections accepted so far and [Streams] the number of streams
    accepted so far: each is counted once, when it is accepted, and never
    uncounted when it ends. *)
Theorem accepted_are_counted (now0 : Z) (evs : list Event) :
  Z.of_nat (length evs) ≤ max_i64 →
  Connections (metrics (server_run (Run_init now0) evs).1)
  = Z.of_nat (length (conns (server_run (Run_init now0) evs).1))
  ∧ Streams (metrics (server_run (Run_init now0) evs).1)
    = Z.of_nat (length (streams (server_run (Run_init now0) evs).1)).
Proof.
  intros Hlen.
  destruct (accepted_counted_run 0 (Run_init now0) evs) as (HC & HS & _).
  - lia.
  - unfold accepted_counted. simpl. lia.
  - done.
Qed.

Lemma closed_listener_step (s : ServerState D) e :
  listening s = false →
  listening (server_step s e).1 = false
  ∧ Connections (metrics (server_step s e).1) = Connections (metrics s)
  ∧ length (conns (server_step s e).1) = length (conns s).
Proof.
  intros Hl.
  destruct e as [ok|cid ok|sid now data err|now]; cbn [server_step].
  - by rewrite Hl.
  - destruct (conns s !! cid) as [[]|]; [destruct ok| |]; cbn; try done.
    by rewrite length_insert.
  - destruct (streams s !! sid) as [[st|]|]; cbn [fst]; try done.
    pose proof (handleStream_iter_others now (metrics s) st data err)
      as (H1 & _).
    by destruct (handleStream_iter now (metrics s) st data err)
      as [[m' st'] calls].
  - by destruct (FECDecoder (metrics s)).
Qed.

(** X18.  The accept loop ends at the first error of [listener.Accept]:
    from then on the loop is over, no connection is accepted any more
    whatever [listener.Accept] would return, and [Connections] keeps the
    value it had before the error. *)
Theorem accept_error_is_final (s : ServerState D) (evs : list Event) :
  listening s = true →
  let s1 := (server_step s (EvAccept false)).1 in
  listening (server_run s1 evs).1 = false
  ∧ Connections (metrics (server_run s1 evs).1) = Connections (metrics s)
  ∧ length (conns (server_run s1 evs).1) = length (conns s).
Proof.
  intros Hl s1. subst s1. cbn [server_step]. rewrite Hl. cbn [fst].
  set (s1 := mkServerState _ _ _ _).
  assert (listening s1 = false
          ∧ Connections (metrics s1) = Connections (metrics s)
          ∧ length (conns s1) = length (conns s)) as Hinit by done.
  revert Hinit. generalize s1. clear s1.
  induction evs as [|e evs IH]; intros s1 (H1 & H2 & H3); [done|].
  cbn [server_run].
  pose proof (closed_listener_step s1 e H1) as (H1' & H2' & H3').
  destruct (server_step s1 e) as [s2 log2]. cbn [fst] in *.
  specialize (IH s2). destruct (server_run s2 evs) as [s3 log3].
  cbn [fst] in *. apply IH. repeat split; congruence.
Qed.

Lemma ended_stream_step (s : ServerState D) sid e :
  streams s !! sid = Some None →
  streams (server_step s e).1 !! sid = Some None
  ∧ ∀ c, (sid, c) ∉ (server_step s e).2.
Proof.
  intros Hs.
  destruct e as [ok|cid ok|sid' now data err|now]; cbn [server_step].
  - destruct (listening s), ok; cbn; (split; [done|]);
      intros c; apply not_elem_of_nil.
  - destruct (conns s !! cid) as [[]|]; [destruct ok| |]; cbn;
      (split; [|intros c; apply not_elem_of_nil]); try done.
    apply lookup_app_l_Some, Hs.
  - destruct (decide (sid' = sid)) as [->|Hne].
    + rewrite Hs. cbn. split; [done|]. intros c; apply not_elem_of_nil.
    + destruct (streams s !! sid') as [[st|]|]; cbn [fst snd];
        try (split; [done|]; intros c; apply not_elem_of_nil).
      destruct (handleStream_iter now (metrics s) st data err)
        as [[m' st'] calls].
      cbn [fst snd streams]. split.
      * by rewrite list_lookup_insert_ne.
      * intros c (c' & [= ? _] & _)%list_elem_of_fmap. done.
  - destruct (FECDecoder (metrics s)); cbn; (split; [done|]);
      intros c; apply not_elem_of_nil.
Qed.

Lemma ended_stream_run (s : ServerState D) sid evs :
  streams s !! sid = Some None →
  streams (server_run s evs).1 !! sid = Some None
  ∧ ∀ c, (sid, c) ∉ (server_run s evs).2.
Proof.
  revert s. induction evs as [|e evs IH]; intros s Hs.
  - cbn. split; [done|]. intros c; apply not_elem_of_nil.
  - cbn [server_run].
    pose proof (ended_stream_step s sid e Hs) as [Hs1 Hlog1].
    destruct (server_step s e) as [s1 log1]. cbn [fst snd] in *.
    specialize (IH s1 Hs1). destruct (server_run s1 evs) as [s2 log2].
    cbn [fst snd] in *. destruct IH as [Hs2 Hlog2]. split; [done|].
    intros c [?|?]%elem_of_app; [by eapply Hlog1|by eapply Hlog2].
Qed.

(** X19.  A read that returns an error ends [handleStream]: the bytes that
    came with the error are still handled, [Errors] grows by one unless
    the error is "EOF", and from then on the stream is never read again,
    so that no later event makes a decoder call in its name. *)
Theorem read_error_ends_stream (s : ServerState D) (sid : nat)
    (st : streamLocals) (now : Z) (data : list byte) (e : string)
    (evs : list Event) :
  streams s !! sid = Some (Some st) →
  let after := server_step s (EvRead sid now data (Some e)) in
  after.2 = (server_step s (EvRead sid now data None)).2
  ∧ Errors (metrics after.1)
    = (if bool_decide (e = "EOF"%string) then Errors (metrics s)
       else wrap_i64 (Errors (metrics s) + 1))
  ∧ streams (server_run after.1 evs).1 !! sid = Some None
  ∧ ∀ c, (sid, c) ∉ (server_run after.1 evs).2.
Proof.
  intros Hs after. subst after.
  pose proof (lookup_lt_Some _ _ _ Hs) as Hlt.
  cbn [server_step]. rewrite Hs.
  pose proof (handleStream_iter_others now (metrics s) st data (Some e))
    as (_ & _ & HE).
  assert ((handleStream_iter now (metrics s) st data (Some e)).2
          = (handleStream_iter now (metrics s) st data None).2
          ∧ (handleStream_iter now (metrics s) st data (Some e)).1.2 = None)
    as [Hcalls Hend].
  { unfold handleStream_iter.
    destruct (0 <? Z.of_nat (length data));
      [destruct (handle_buffer now (metrics s) st data) as [[m1 st1] calls]|];
      done. }
  destruct (handleStream_iter now (metrics s) st data (Some e))
    as [[m' st'] calls].
  destruct (handleStream_iter now (metrics s) st data None)
    as [[m'' st''] calls''].
  cbn [fst snd metrics] in *. subst st' calls''.
  split; [done|]. split.
  - rewrite HE. by repeat case_bool_decide.
  - apply ended_stream_run. cbn [streams].
    by rewrite list_lookup_insert_eq.
Qed.

Lemma plain_iter_bytes sid now (m : serverMetrics D) st data err d :
  FECDecoder m = Some d →
  is_repair_packet data = false →
  0 ≤ Bytes m → Bytes m + Z.of_nat (length data) ≤ max_i64 →
  Bytes (handleStream_iter now m st data err).1.1
  = Bytes m + Z.of_nat (length data)
  ∧ log_bytes ((λ c, (sid, c)) <$> (handleStream_iter now m st data err).2)
    = Z.of_nat (length data).
Proof.
  intros Hd Hplain H0 Hmax. unfold handleStream_iter, handle_buffer.
  rewrite Hplain. cbn [add_Bytes FECDecoder]. rewrite Hd.
  destruct (Z.ltb_spec 0 (Z.of_nat (length data))) as [Hpos|Hzero].
  - destruct err as [e|]; [case_bool_decide|];
      cbn [fst snd inc_Errors set_decoder add_Bytes Bytes fmap list_fmap
           log_bytes foldr];
      rewrite wrap_i64_small by (unfold max_i64 in *; lia); lia.
  - destruct err as [e|]; [case_bool_decide|];
      cbn [fst snd inc_Errors Bytes fmap list_fmap log_bytes foldr]; lia.
Qed.

Lemma plain_step_bytes (s : ServerState D) e B :
  is_Some (FECDecoder (metrics s)) →
  plain_read e → read_fits e →
  0 ≤ Bytes (metrics s) ≤ B → B + 4096 ≤ max_i64 →
  Bytes (metrics (server_step s e).1)
  = Bytes (metrics s) + log_bytes (server_step s e).2
  ∧ 0 ≤ Bytes (metrics (server_step s e).1) ≤ B + 4096.
Proof.
  intros [d Hd] Hplain Hfit HB Hmax.
  destruct e as [ok|cid ok|sid now data err|now]; cbn [server_step].
  - destruct (listening s), ok; cbn; lia.
  - destruct (conns s !! cid) as [[]|]; [destruct ok| |]; cbn; lia.
  - destruct (streams s !! sid) as [[st|]|]; try (cbn; lia).
    cbn [plain_read read_fits] in Hplain, Hfit.
    pose proof (plain_iter_bytes sid now (metrics s) st data err d Hd Hplain
                  ltac:(lia) ltac:(lia)) as [HB1 Hlog].
    destruct (handleStream_iter now (metrics s) st data err)
      as [[m' st'] calls].
    cbn [fst snd metrics] in *. lia.
  - rewrite Hd. cbn. lia.
Qed.

Lemma log_bytes_app (l1 l2 : list (nat * DecoderCall)) :
  log_bytes (l1 ++ l2) = log_bytes l1 + log_bytes l2.
Proof.
  induction l1 as [|[i c] l1 IH]; [done|].
  destruct c as [data|payload pid gid].
  - exact IH.
  - change (Z.of_nat (length payload) + log_bytes (l1 ++ l2)
            = Z.of_nat (length payload) + log_bytes l1 + log_bytes l2).
    lia.
Qed.

Lemma plain_run_bytes (s : ServerState D) evs B :
  is_Some (FECDecoder (metrics s)) →
  Forall plain_read evs → Forall read_fits evs →
  0 ≤ Bytes (metrics s) ≤ B →
  B + 4096 * Z.of_nat (length evs) ≤ max_i64 →
  Bytes (metrics (server_run s evs).1)
  = Bytes (metrics s) + log_bytes (server_run s evs).2.
Proof.
  intros Hd Hplain. revert s B Hd.
  induction Hplain as [|e evs He _ IH]; intros s B Hd Hfit HB Hmax.
  - cbn. lia.
  - apply Forall_cons in Hfit as [Hfe Hfit]. cbn [server_run length] in *.
    pose proof (plain_step_bytes s e B Hd He Hfe HB ltac:(lia))
      as [Hstep Hbound].
    pose proof (FECDecoder_server_step s e Hd) as Hd1.
    destruct (server_step s e) as [s1 log1]. cbn [fst snd] in *.
    specialize (IH s1 (B + 4096) Hd1 Hfit Hbound ltac:(lia)).
    destruct (server_run s1 evs) as [s2 log2]. cbn [fst snd] in *.
    rewrite log_bytes_app. lia.
Qed.

(** X20.  In a run of the server started by [Run] in which no buffer
    carries the repair marker, [Bytes] is exactly the number of bytes
    handed to [AddPacket]: every byte read on a live stream is both counted
    and passed to the decoder, and nothing else is counted.  The run is
    assumed short enough for the counter not to wrap. *)
Theorem bytes_are_the_bytes_decoded (now0 : Z) (evs : list Event) :
  Forall plain_read evs →
  Forall read_fits evs →
  4096 * Z.of_nat (length evs) ≤ max_i64 →
  Bytes (metrics (server_run (Run_init now0) evs).1)
  = log_bytes (server_run (Run_init now0) evs).2.
Proof.
  intros Hplain Hfit Hmax.
  rewrite (plain_run_bytes (Run_init now0) evs 0);
    first [done | by eexists | simpl; lia].
Qed.

End server_more.

Section server_more_witnesses.
Import Server.

(** An instance of X17: the run with one connection, one stream and two
    reads. *)
Lemma accepted_are_counted_witness :
  Connections
    (metrics (@server_run _ (spec_decoder 30)
                (@Run_init _ (spec_decoder 30) 0) example_run).1) = 1
  ∧ Streams
      (metrics (@server_run _ (spec_decoder 30)
                  (@Run_init _ (spec_decoder 30) 0) example_run).1) = 1.
Proof.
  apply (@accepted_are_counted _ (spec_decoder 30) 0 example_run).
  vm_compute. discriminate.
Defined.

(** An instance of X18: the listener fails after one connection and one
    stream; a later successful accept is never reached. *)
Lemma accept_error_is_final_witness :
  Connections
    (metrics
       (@server_run _ (spec_decoder 30)
          (@server_step _ (spec_decoder 30)
             (@server_run _ (spec_decoder 30)
                (@Run_init _ (spec_decoder 30) 0) example_events).1
             (EvAccept false)).1
          [EvAccept true; EvAcceptStream 0 true]).1)
  = Connections
      (metrics (@server_run _ (spec_decoder 30)
                  (@Run_init _ (spec_decoder 30) 0) example_events).1).
Proof.
  apply (@accept_error_is_final _ (spec_decoder 30)
           (@server_run _ (spec_decoder 30)
              (@Run_init _ (spec_decoder 30) 0) example_events).1
           [EvAccept true; EvAcceptStream 0 true]).
  reflexivity.
Defined.

(** An instance of X19: the stream of the example ends with "EOF" and is
    read again afterwards. *)
Lemma read_error_ends_stream_witness :
  streams
    (@server_run _ (spec_decoder 30)
       (@server_step _ (spec_decoder 30)
          (@server_run _ (spec_decoder 30)
             (@Run_init _ (spec_decoder 30) 0) example_events).1
          (EvRead 0 2 [x04] (Some "EOF"%string))).1
       example_after_error).1 !! 0%nat = Some None.
Proof.
  apply (@read_error_ends_stream _ (spec_decoder 30)
           (@server_run _ (spec_decoder 30)
              (@Run_init _ (spec_decoder 30) 0) example_events).1
           0%nat (mkStreamLocals 0 0) 2 [x04] "EOF"%string
           example_after_error).
  reflexivity.
Defined.

(** An instance of X20: eleven one-byte data packets on one stream. *)
Lemma bytes_are_the_bytes_decoded_witness :
  Bytes
    (metrics (@server_run _ (spec_decoder 30)
                (@Run_init _ (spec_decoder 30) 0) example_eleven).1)
  = log_bytes
      (@server_run _ (spec_decoder 30)
         (@Run_init _ (spec_decoder 30) 0) example_eleven).2.
Proof.
  apply (@bytes_are_the_bytes_decoded _ (spec_decoder 30) 0 example_eleven).
  - repeat constructor.
  - repeat constructor; simpl; lia.
  - vm_compute. discriminate.
Defined.

End server_more_witnesses.

(** ** The command line: scenarios *)

Section scenario_facts.
Import Internal Cli.
Context {NetworkProfile : Type}.
Variable GetScenario : string → option TestConfig.
Variable GetNetworkProfile : string → option NetworkProfile.
Variable ApplyNetworkProfile : TestConfig → NetworkProfile → TestConfig.

(** X21.  When [-scenario] is given, the configuration of the scenario
    replaces the one built from the flags as a whole: two command lines
    that name the same scenario and the same network profile, and agree on
    [-version], [-list-scenarios] and [-list-profiles], end [main] in the
    same way, whatever their other flags are; [-mode], [-addr], [-cc],
    [-fec] and the rest are ignored. *)
Theorem scenario_overrides_flags (f f' : Flags) :
  f_scenario f ≠ ""%string →
  f_scenario f' = f_scenario f →
  f_networkProfile f' = f_networkProfile f →
  f_version f' = f_version f →
  f_listScenarios f' = f_listScenarios f →
  f_listProfiles f' = f_listProfiles f →
  main GetScenario GetNetworkProfile ApplyNetworkProfile f'
  = main GetScenario GetNetworkProfile ApplyNetworkProfile f.
Proof.
  intros Hs Hsc Hnp Hv Hls Hlp. unfold main, final_config.
  rewrite Hsc, Hnp, Hv, Hls, Hlp.
  by rewrite (bool_decide_eq_true_2 _ Hs).
Qed.

End scenario_facts.

(** An instance of X21: with the scenario, a mode that the switch does not
    know is as good as "server". *)
Lemma scenario_overrides_flags_witness :
  Cli.main Cli.example_GetScenario Cli.no_profile Cli.apply_no_profile
    (Cli.example_scenario_flags "bogus")
  = Cli.main Cli.example_GetScenario Cli.no_profile Cli.apply_no_profile
      (Cli.example_scenario_flags "server").
Proof.
  apply (scenario_overrides_flags Cli.example_GetScenario Cli.no_profile
           Cli.apply_no_profile
           (Cli.example_scenario_flags "server")
           (Cli.example_scenario_flags "bogus"));
    [discriminate | reflexivity ..].
Defined.
